(** * Kitchen assistant: unit algebra, inventory reconciliation,
      intent classification and dispatch

    A shallow embedding of [app/services/ai_service.py] (class [AIService]),
    of [parse_incoming_message] in [app/services/whatsapp_service.py] and of
    the per-user lock of [whatsapp_webhook] in [main.py].

    The two inventory branches are embedded twice: in [Inventory] on
    entries and items whose name and amount are texts, and in [Branches]
    on the JSON values [classify_message] lets through, under their outer
    exception handlers; [BranchFacts] shows that the two agree on texts.

    - Python [str] values are Rocq strings holding the UTF-8 bytes of the
      text.  [len] and slicing count code points; case mapping and the
      character classes are those of the ASCII range.
    - Python [float] is IEEE 754 binary64: Rocq's primitive [float].
    - The language-model calls ([normalize_item_name], the chat completions)
      are opaque capabilities: their results are inputs of the model.
    - [mongodb ... update_one] is recorded as the list it is asked to store. *)

From Stdlib Require Import Bool Ascii String List ZArith Lia Floats.
From Stdlib Require Import Sorted.
Import ListNotations.
Local Open Scope string_scope.

(* ================================================================== *)
(** * Python built-ins on [str] *)
(* ================================================================== *)

Module PyStr.

Definition code (c : ascii) : nat := nat_of_ascii c.

Definition in_range (lo hi : nat) (c : ascii) : bool :=
  (lo <=? code c)%nat && (code c <=? hi)%nat.

Definition is_upper (c : ascii) : bool := in_range 65 90 c.
Definition is_lower (c : ascii) : bool := in_range 97 122 c.
(** The regular-expression class [[a-zA-Z]]. *)
Definition is_alpha (c : ascii) : bool := is_upper c || is_lower c.
(** [\d] and the digits of [float()], ASCII range. *)
Definition is_digit (c : ascii) : bool := in_range 48 57 c.
(** [str.isspace]: TAB LF VT FF CR, FS GS RS US, and the space. *)
Definition is_space (c : ascii) : bool :=
  in_range 9 13 c || in_range 28 32 c.

Definition lower_char (c : ascii) : ascii :=
  if is_upper c then ascii_of_nat (code c + 32) else c.

(** [s.lower()] *)
Fixpoint lower (s : string) : string :=
  match s with
  | "" => ""
  | String c r => String (lower_char c) (lower r)
  end.

Fixpoint lstrip (s : string) : string :=
  match s with
  | "" => ""
  | String c r => if is_space c then lstrip r else s
  end.

(** Drops the longest suffix all of whose characters satisfy [p]. *)
Fixpoint rstrip_by (p : ascii -> bool) (s : string) : string :=
  match s with
  | "" => ""
  | String a r =>
      match rstrip_by p r with
      | "" => if p a then "" else String a ""
      | r' => String a r'
      end
  end.

(** [s.strip()] *)
Definition strip (s : string) : string := rstrip_by is_space (lstrip s).

(** [s.rstrip(c)] for a one-character argument: every trailing [c] goes. *)
Definition rstrip_char (c : ascii) (s : string) : string :=
  rstrip_by (Ascii.eqb c) s.

(** [s.split()]: the maximal runs of non-space characters, in order. *)
Fixpoint split (s : string) : list string :=
  match s with
  | "" => []
  | String c r =>
      if is_space c then split r
      else
        match r with
        | "" => [String c ""]
        | String d _ =>
            if is_space d then String c "" :: split r
            else
              match split r with
              | w :: ws => String c w :: ws
              | [] => [String c ""]
              end
        end
  end.

(** [x in y] on strings. *)
Fixpoint contains (x y : string) : bool :=
  prefix x y
  || match y with
     | "" => false
     | String _ r => contains x r
     end.

(** A UTF-8 continuation byte, [10xxxxxx]. *)
Definition is_continuation (c : ascii) : bool := in_range 128 191 c.

(** [len(s)]: the number of code points. *)
Fixpoint len (s : string) : nat :=
  match s with
  | "" => 0
  | String c r => if is_continuation c then len r else S (len r)
  end.

(** [s[:n]]: the first [n] code points. *)
Fixpoint slice_to (n : nat) (s : string) : string :=
  match s with
  | "" => ""
  | String c r =>
      if is_continuation c then String c (slice_to n r)
      else
        match n with
        | O => ""
        | S n' => String c (slice_to n' r)
        end
  end.

(** [sep.join(parts)] *)
Fixpoint join (sep : string) (parts : list string) : string :=
  match parts with
  | [] => ""
  | [p] => p
  | p :: ps => p ++ sep ++ join sep ps
  end.

(** [c * n] for a string [c]. *)
Fixpoint repeat_str (c : string) (n : nat) : string :=
  match n with
  | O => ""
  | S n' => c ++ repeat_str c n'
  end.

Definition digit_char (d : Z) : ascii := ascii_of_nat (48 + Z.to_nat d).

(** Decimal digits of a non-negative integer, most significant first;
    [fuel] bounds the number of digits. *)
Fixpoint digits_of (fuel : nat) (z : Z) (acc : string) : string :=
  match fuel with
  | O => acc
  | S f =>
      let acc' := String (digit_char (z mod 10)) acc in
      if (z <? 10)%Z then acc' else digits_of f (z / 10)%Z acc'
  end.

(** [str(z)] for a Python [int]. *)
Definition str_of_int (z : Z) : string :=
  let a := Z.abs z in
  let ds := digits_of (S (Z.to_nat (Z.log2 a))) a "" in
  if (z <? 0)%Z then String "-" ds else ds.

Definition str_of_nat (n : nat) : string := str_of_int (Z.of_nat n).

Definition nl : string := String (ascii_of_nat 10) "".

End PyStr.

(* ================================================================== *)
(** * Python built-ins on [float] *)
(* ================================================================== *)

Module PyFloat.
Import PyStr.

Local Open Scope Z_scope.

(** The binary64 value nearest to [num / den] (ties to even), with sign
    [neg]: the quotient of two exact integers, rounded once. *)
Definition nearest (neg : bool) (num den : positive) : float :=
  SF2Prim (SFdiv prec emax (S754_finite neg num 0) (S754_finite false den 0)).

Definition signed_zero (neg : bool) : float := SF2Prim (S754_zero neg).
Definition signed_inf (neg : bool) : float := SF2Prim (S754_infinity neg).

(** The value of the decimal numeral [m * 10^e], where the digits of
    [m] number [nd], correctly rounded as [strtod] does.  Numerals beyond
    the binary64 range are settled without building the power of ten. *)
Definition of_decimal (neg : bool) (m : Z) (nd : Z) (e : Z) : float :=
  match m with
  | Zpos p =>
      if 310 <? e then signed_inf neg
      else if e + nd <? -330 then signed_zero neg
      else if 0 <=? e then nearest neg (p * Z.to_pos (10 ^ e)) 1
      else nearest neg p (Z.to_pos (10 ^ (- e)))
  | _ => signed_zero neg
  end.

Definition digit_val (c : ascii) : Z := Z.of_nat (code c) - 48.

(** The integer written by a string of digits. *)
Fixpoint Z_of_digits (acc : Z) (s : string) : Z :=
  match s with
  | "" => acc
  | String c r => Z_of_digits (10 * acc + digit_val c) r
  end.

(** [(["_"] digit)*]: the rest of a [digitpart] after its first digit.
    Returns the digits read (underscores dropped) and what follows. *)
Fixpoint digit_tail (s : string) : string * string :=
  match s with
  | "" => ("", "")
  | String c r =>
      if is_digit c then
        let (d, t) := digit_tail r in (String c d, t)
      else if Ascii.eqb c "_" then
        match r with
        | String c2 r2 =>
            if is_digit c2 then
              let (d, t) := digit_tail r2 in (String c2 d, t)
            else ("", s)
        | "" => ("", s)
        end
      else ("", s)
  end.

(** [digitpart ::= digit (["_"] digit)*] *)
Definition digitpart (s : string) : option (string * string) :=
  match s with
  | String c r =>
      if is_digit c then
        let (d, t) := digit_tail r in Some (String c d, t)
      else None
  | "" => None
  end.

(** [[sign]]: whether a minus was read, and the rest. *)
Definition sign_opt (s : string) : bool * string :=
  match s with
  | String c r =>
      if Ascii.eqb c "-" then (true, r)
      else if Ascii.eqb c "+" then (false, r)
      else (false, s)
  | "" => (false, s)
  end.

(** [number ::= [digitpart] "." digitpart | digitpart ["."]]:
    integer digits, fraction digits, and the rest. *)
Definition number (s : string) : option (string * string * string) :=
  match digitpart s with
  | Some (ip, t) =>
      match t with
      | String c r =>
          if Ascii.eqb c "." then
            match digitpart r with
            | Some (fp, t') => Some (ip, fp, t')
            | None => Some (ip, "", r)
            end
          else Some (ip, "", t)
      | "" => Some (ip, "", "")
      end
  | None =>
      match s with
      | String c r =>
          if Ascii.eqb c "." then
            match digitpart r with
            | Some (fp, t') => Some ("", fp, t')
            | None => None
            end
          else None
      | "" => None
      end
  end.

(** [exponent ::= ("e" | "E") [sign] digitpart], or nothing. *)
Definition exponent (s : string) : option (Z * string) :=
  match s with
  | String c r =>
      if Ascii.eqb c "e" || Ascii.eqb c "E" then
        let (neg, r1) := sign_opt r in
        match digitpart r1 with
        | Some (ds, t) =>
            let x := Z_of_digits 0 ds in
            Some (if neg then - x else x, t)
        | None => None
        end
      else Some (0, s)
  | "" => Some (0, "")
  end.

Definition Zlen (s : string) : Z := Z.of_nat (String.length s).

(** [float(s)] for a string: [None] stands for [ValueError]. *)
Definition float_of_string (s : string) : option float :=
  let (neg, body) := sign_opt (strip s) in
  let word := lower body in
  if String.eqb word "inf" || String.eqb word "infinity" then
    Some (signed_inf neg)
  else if String.eqb word "nan" then Some nan
  else
    match number body with
    | Some (ip, fp, t) =>
        match exponent t with
        | Some (x, "") =>
            Some (of_decimal neg (Z_of_digits 0 (ip ++ fp))
                    (Zlen ip + Zlen fp) (x - Zlen fp))
        | _ => None
        end
    | None => None
    end.

(** The integer a float equals, when it is finite and integral. *)
Definition integral_value (x : float) : option Z :=
  match Prim2SF x with
  | S754_zero _ => Some 0
  | S754_finite s m e =>
      if 0 <=? e then Some (cond_Zopp s (Zpos m * 2 ^ e))
      else if Zpos m mod 2 ^ (- e) =? 0
           then Some (cond_Zopp s (Zpos m / 2 ^ (- e)))
           else None
  | _ => None
  end.

(** [x.is_integer()] *)
Definition is_integer (x : float) : bool :=
  match integral_value x with Some _ => true | None => false end.

(** [int(x)] for a float that passed [is_integer]. *)
Definition to_int (x : float) : Z :=
  match integral_value x with Some z => z | None => 0 end.

(** The integer nearest to [n / d], ties to even ([d > 0], [n >= 0]). *)
Definition div_half_even (n d : Z) : Z :=
  let q := n / d in
  let r := n mod d in
  match 2 * r ?= d with
  | Lt => q
  | Gt => q + 1
  | Eq => if Z.even q then q else q + 1
  end.

(** [round(x, 2)]: the decimal with two fractional digits nearest to the
    exact value of [x], read back as a float; infinities and nan round to
    themselves. *)
Definition round2 (x : float) : float :=
  match Prim2SF x with
  | S754_finite s m e =>
      let h := if 0 <=? e then Zpos m * 2 ^ e * 100
               else div_half_even (Zpos m * 100) (2 ^ (- e)) in
      match h with
      | Zpos p => nearest s p 100
      | _ => signed_zero s
      end
  | _ => x
  end.

(** ** [repr] of a float: the shortest digit string that reads back to it *)

(** Number of decimal digits of a positive integer. *)
Definition ndigits (z : Z) : Z := Zlen (str_of_int z).

(** [|x| = num / den] exactly, for a finite non-zero float. *)
Definition exact_ratio (m : positive) (e : Z) : Z * Z :=
  if 0 <=? e then (Zpos m * 2 ^ e, 1) else (Zpos m, 2 ^ (- e)).

(** [num * 10^k / den] as a fraction. *)
Definition scale (num den k : Z) : Z * Z :=
  if 0 <=? k then (num * 10 ^ k, den) else (num, den * 10 ^ (- k)).

(** The decimal point position [k] of [num / den]:
    [10^(k-1) <= num/den < 10^k]. *)
Definition decimal_point (num den : Z) : Z :=
  let k0 := ndigits num - ndigits den in
  let (a, b) := scale num den (- k0) in
  if a <? b then k0 else k0 + 1.

Definition reads_back (x : float) (c : Z) (k : Z) : bool :=
  PrimFloat.Leibniz.eqb (PrimFloat.abs x) (of_decimal false c (ndigits c) k).

(** With [n] significant digits: the candidate digit string (as an
    integer [c] with [c * 10^(k-n)] the value) that reads back to [x],
    the nearer of the two neighbours first. *)
Definition candidate (x : float) (num den k : Z) (n : Z) : option Z :=
  let (a, b) := scale num den (n - k) in
  let lo := a / b in
  let r := a mod b in
  let hi := lo + 1 in
  let lo_ok := reads_back x lo (k - n) in
  let hi_ok := reads_back x hi (k - n) in
  match 2 * r ?= b with
  | Lt => if lo_ok then Some lo else if hi_ok then Some hi else None
  | Gt => if hi_ok then Some hi else if lo_ok then Some lo else None
  | Eq =>
      if Z.even lo
      then (if lo_ok then Some lo else if hi_ok then Some hi else None)
      else (if hi_ok then Some hi else if lo_ok then Some lo else None)
  end.

Fixpoint shortest (x : float) (num den k : Z) (n : Z) (fuel : nat)
  : Z * Z :=
  match candidate x num den k n with
  | Some c => (c, n)
  | None =>
      match fuel with
      | O => (fst (scale num den (n - k)) / snd (scale num den (n - k)), n)
      | S f => shortest x num den k (n + 1) f
      end
  end.

(** Drops the trailing zeros of a digit string, keeping one digit. *)
Definition strip_zeros (s : string) : string :=
  match rstrip_by (Ascii.eqb "0") s with
  | "" => "0"
  | t => t
  end.

(** Digits [ds] with decimal point position [k], laid out as [repr]
    does: positional for [-4 < k <= 16], scientific otherwise. *)
Definition layout (ds : string) (k : Z) : string :=
  let n := Zlen ds in
  if (k <=? -4) || (16 <? k) then
    let mant :=
      match ds with
      | String d "" => String d ""
      | String d r => String d ("." ++ r)
      | "" => "0"
      end in
    let x := k - 1 in
    let xs := str_of_int (Z.abs x) in
    mant ++ "e" ++ (if x <? 0 then "-" else "+")
         ++ (if Z.abs x <? 10 then "0" ++ xs else xs)
  else if k <=? 0 then
    "0." ++ repeat_str "0" (Z.to_nat (- k)) ++ ds
  else if n <=? k then
    ds ++ repeat_str "0" (Z.to_nat (k - n)) ++ ".0"
  else
    substring 0 (Z.to_nat k) ds ++ "."
      ++ substring (Z.to_nat k) (Z.to_nat (n - k)) ds.

(** [repr(x)], which is also [str(x)] and [format(x, "")]. *)
Definition repr (x : float) : string :=
  match Prim2SF x with
  | S754_nan => "nan"
  | S754_infinity s => if s then "-inf" else "inf"
  | S754_zero s => if s then "-0.0" else "0.0"
  | S754_finite s m e =>
      let (num, den) := exact_ratio m e in
      let k := decimal_point num den in
      let (c, n) := shortest x num den k 1 17 in
      (* a candidate rounded up to 10^n carries into the next position *)
      let k' := if ndigits c =? n then k else k + 1 in
      (if s then "-" else "") ++ layout (strip_zeros (str_of_int c)) k'
  end.

End PyFloat.

(* ================================================================== *)
(** * Exceptions *)
(* ================================================================== *)

Module PyExc.

(** The exceptions the modelled code raises.  [ValueError] is the one the
    inner handlers catch; everything is an [Exception]. *)
Inductive exn : Type :=
| ValueError (msg : string)
| TypeError (msg : string)
| KeyError (key : string)
| AttributeError (msg : string)
| ProviderError (msg : string).

Inductive result (A : Type) : Type :=
| Ok (a : A)
| Raise (e : exn).
Arguments Ok {A} a.
Arguments Raise {A} e.

Definition bind {A B : Type} (m : result A) (k : A -> result B) : result B :=
  match m with
  | Ok a => k a
  | Raise e => Raise e
  end.

(** [try: m  except Exception: h] *)
Definition try_except {A : Type} (m : result A) (h : exn -> A) : A :=
  match m with
  | Ok a => a
  | Raise e => h e
  end.

Definition raised {A : Type} (m : result A) : bool :=
  match m with Ok _ => false | Raise _ => true end.

End PyExc.

Notation "x <- m ;; k" := (PyExc.bind m (fun x => k))
  (at level 61, m at next level, right associativity).
Notation "' p <- m ;; k" := (PyExc.bind m (fun x => let 'p := x in k))
  (at level 61, p pattern, m at next level, right associativity).

(* ================================================================== *)
(** * Unit algebra: the private helpers of [AIService] *)
(* ================================================================== *)

Module Units.
Import PyStr PyFloat PyExc.

(** An insertion-ordered [dict] with string keys. *)
Definition dict (A : Type) : Type := list (string * A).

Fixpoint get {A : Type} (k : string) (d : dict A) : option A :=
  match d with
  | [] => None
  | (k', v) :: r => if String.eqb k k' then Some v else get k r
  end.

(** [k in d] *)
Definition has_key {A : Type} (k : string) (d : dict A) : bool :=
  match get k d with Some _ => true | None => false end.

Definition keys {A : Type} (d : dict A) : list string := map fst d.
Definition values {A : Type} (d : dict A) : list A := map snd d.

(** [x in l] for a list of strings. *)
Definition mem (x : string) (l : list string) : bool :=
  existsb (String.eqb x) l.

(** [float(n)] for a Python [int]. *)
Definition float_of_int (n : Z) : float :=
  SF2Prim (binary_normalize prec emax n 0 false).

(** [_get_unit_conversions]: alias -> factor to the base unit. *)
Definition _get_unit_conversions : dict Z :=
  [ (* Weight conversions (base unit: grams) *)
    ("g", 1); ("gram", 1); ("grams", 1);
    ("kg", 1000); ("kilo", 1000); ("kilos", 1000);
    ("kilogram", 1000); ("kilograms", 1000);
    (* Volume conversions (base unit: milliliters) *)
    ("ml", 1); ("milliliter", 1); ("milliliters", 1);
    ("l", 1000); ("liter", 1000); ("liters", 1000);
    (* Count units *)
    ("piece", 1); ("pieces", 1); ("pcs", 1); ("pc", 1);
    ("whole", 1); ("wholes", 1) ]%Z.

(** [unit.lower().rstrip('s')] *)
Definition normalize_unit (unit : string) : string :=
  rstrip_char "s" (lower unit).

(** The aliases [_validate_unit] offers for an unknown [unit]. *)
Definition similar_units (unit : string) : list string :=
  filter (fun valid_unit => contains unit valid_unit || contains valid_unit unit)
         (keys _get_unit_conversions).

Definition _validate_unit (unit : string) : bool * string :=
  let unit := normalize_unit unit in
  if has_key unit _get_unit_conversions then (true, unit)
  else
    match similar_units unit with
    | [] => (false, "Unsupported unit. Supported units are: g, kg, ml, l, piece")
    | similar => (false, "Did you mean: " ++ join ", " similar ++ "?")
    end.

(** The [from_type] / [to_type] computation of [_convert_unit]. *)
Definition unit_type (unit : string) : string :=
  if mem unit ["g"; "gram"; "kg"; "kilo"; "kilogram"] then "weight"
  else if mem unit ["ml"; "milliliter"; "l"; "liter"] then "volume"
  else "count".

Definition _convert_unit (value : float) (from_unit to_unit : string)
  : option float :=
  let unit_conversions := _get_unit_conversions in
  let from_unit := normalize_unit from_unit in
  let to_unit := normalize_unit to_unit in
  match get from_unit unit_conversions, get to_unit unit_conversions with
  | Some from_factor, Some to_factor =>
      if negb (String.eqb (unit_type from_unit) (unit_type to_unit)) then None
      else
        let base_value := (value * float_of_int from_factor)%float in
        let converted_value := (base_value / float_of_int to_factor)%float in
        Some converted_value
  | _, _ => None
  end.

Definition _format_unit (value : float) (unit : string) : string :=
  (if is_integer value then str_of_int (to_int value)
   else repr (round2 value))
  ++ " " ++ unit.

(** The longest prefix of characters in the class [p], and the rest. *)
Fixpoint span (p : ascii -> bool) (s : string) : string * string :=
  match s with
  | "" => ("", "")
  | String c r =>
      if p c then let (a, b) := span p r in (String c a, b)
      else ("", s)
  end.

Definition is_empty (s : string) : bool :=
  match s with "" => true | _ => false end.

(** [$]: the end of the string, or just before a final newline. *)
Definition at_end (s : string) : bool :=
  is_empty s || String.eqb s nl.

(** [re.match(r'^(\d+(?:\.\d+)?)([a-zA-Z]+)$', s)]: groups 1 and 2.
    The classes of adjacent parts are disjoint, so the greedy scan is the
    only way the pattern can match. *)
Definition re_match_amount (s : string) : option (string * string) :=
  let (whole, r1) := span is_digit s in
  if is_empty whole then None
  else
    let (number, r2) :=
      match r1 with
      | String c r =>
          if Ascii.eqb c "." then
            let (frac, r') := span is_digit r in
            if is_empty frac then (whole, r1)
            else (whole ++ "." ++ frac, r')
          else (whole, r1)
      | "" => (whole, r1)
      end in
    let (unit, r3) := span is_alpha r2 in
    if negb (is_empty unit) && at_end r3 then Some (number, unit)
    else None.

(** [float(s)] as a computation that may raise. *)
Definition float_ (s : string) : result float :=
  match float_of_string s with
  | Some v => Ok v
  | None => Raise (ValueError ("could not convert string to float: " ++ s))
  end.

Definition _parse_amount_unit (amount_str : string) : result (float * string) :=
  (* Remove any extra spaces *)
  let amount_str := strip amount_str in
  (* If amount_str is just a number, return it with default unit "piece" *)
  match float_ amount_str with
  | Ok value => Ok (value, "piece")
  | Raise _ =>
      (* Try to find where the number ends and unit begins *)
      match re_match_amount amount_str with
      | Some (g1, g2) =>
          value <- float_ g1 ;;
          Ok (value, g2)
      | None =>
          (* If no match, try splitting by space *)
          let fallthrough :=
            Raise (ValueError ("Invalid amount format: " ++ amount_str)) in
          match split amount_str with
          | [p0; p1] =>
              match float_ p0 with
              | Ok value => Ok (value, p1)
              | Raise _ => fallthrough
              end
          | _ => fallthrough
          end
      end
  end.

End Units.

(* ================================================================== *)
(** * The fixed texts of the replies *)
(* ================================================================== *)

Module Msg.
Import PyStr.

(** line 697 *)
Definition remove_header : string := "🗑️ Updated your kitchen inventory!" ++ nl ++ nl.
(** line 698 *)
Definition removed_items_heading : string := "Removed items:" ++ nl.
(** the bullet of every listing line *)
Definition bullet : string := "• ".
(** lines 701, 957 *)
Definition dash : string := " - ".
(** lines 703, 817, 957, 959 *)
Definition open_paren : string := " (".
(** lines 703, 817 *)
Definition close_paren : string := ")" ++ nl.
(** line 704 *)
Definition remaining_items : string := nl ++ "Remaining items: ".
(** line 706 *)
Definition no_items_removed : string := "No items were removed from your inventory.".
(** line 715 *)
Definition remove_failed : string := "❌ Sorry, there was an error updating your inventory. Please try again.".
(** lines 725, 812 *)
Definition inventory_empty : string := "Your kitchen inventory is empty. Add some ingredients to get started!".
(** line 808 *)
Definition none_found : string := "❌ None of the requested items were found in your inventory.".
(** line 810 *)
Definition no_category_items : string := "❌ No items found in the requested categories: ".
(** line 814 *)
Definition inventory_header : string := "📋 Your Kitchen Inventory:" ++ nl ++ nl.
(** line 820 *)
Definition group_colon : string := ":" ++ nl.
(** line 822 *)
Definition sub_bullet : string := "  - ".
(** line 824 *)
Definition total_shown : string := nl ++ "Total items shown: ".
(** line 826 *)
Definition of_total : string := " (of ".
(** line 826 *)
Definition total_items_suffix : string := " total items)".
(** line 827 *)
Definition last_updated : string := nl ++ nl ++ "Last updated: ".
(** line 836 *)
Definition get_failed : string := "❌ Sorry, there was an error retrieving your inventory. Please try again.".
(** line 950 *)
Definition update_warning : string := "⚠️ Some items couldn't be added to your inventory:" ++ nl ++ nl.
(** line 952 *)
Definition update_header : string := "✅ Updated your kitchen inventory!" ++ nl ++ nl.
(** line 954 *)
Definition items_heading : string := "Items:" ++ nl.
(** line 957 *)
Definition close_paren_dash : string := ") - ".
(** line 959 *)
Definition close_paren_plus : string := ") [+".
(** line 959 *)
Definition close_bracket : string := "]" ++ nl.
(** line 962 *)
Definition total_in_inventory : string := nl ++ "Total items in inventory: ".
(** line 964 *)
Definition no_items_added : string := "No new items were added to your inventory.".
(** line 973 *)
Definition update_failed : string := "❌ Sorry, there was an error updating your inventory. Please try again.".
(** line 988 *)
Definition recipe_header : string := "🍳 Recipe suggestions:" ++ nl ++ nl.
(** lines 994, 995 *)
Definition ingredient_sep : string := nl ++ "    • ".
(** line 998 *)
Definition step_sep : string := nl ++ "    ".
(** line 1001 *)
Definition pin : string := "📌 ".
(** line 1002 *)
Definition memo : string := "📝 ".
(** line 1003 *)
Definition ingredients_heading : string := "🛒 Ingredients:" ++ nl.
(** line 1004 *)
Definition available_label : string := "  Available:".
(** line 1005 *)
Definition needed_label : string := "  Needed:".
(** line 1006 *)
Definition time_label : string := "⏱️  Time: ".
(** line 1007 *)
Definition difficulty_label : string := "⭐ Difficulty: ".
(** line 1008 *)
Definition steps_label : string := "📋 Steps:" ++ nl ++ "    ".
(** line 1023 *)
Definition and_more : string := nl ++ "...and ".
(** line 1023 *)
Definition more_recipe : string := " more recipe".
(** line 1023 *)
Definition ask_for_more : string := " available. Ask for more!".
(** line 1009: the separator is this character thirty times *)
Definition rule_char : string := "─".
(** lines 89, 1042 *)
Definition ellipsis : string := "...".

End Msg.

(* ================================================================== *)
(** * Inventory reconciliation: the [remove_inventory] and
      [update_inventory] branches of [process_classified_message]

    The branches are read here on stored entries and items whose name
    and amount are texts and with a store that answers: then nothing in
    the [try] blocks raises past the inner handlers.  [Branches] below
    runs the same lines on whatever values arrive, under the outer
    handlers of lines 712-717 and 970-975. *)
(* ================================================================== *)

Module Inventory.
Import PyStr PyFloat PyExc Units.

(** [{"name": ..., "amount": ...}]: an entry of the stored inventory, and
    an item of a classification. *)
Record item : Type := Item { name : string; amount : string }.

(** One record of [removed_items] / [updated_items]: always a "name";
    "amount", "added" and "error" as the branch that built it decides. *)
Record report : Type := Report {
  r_name : string;
  r_amount : option string;
  r_added : option string;
  r_error : option string
}.

(** [l.append(r)] *)
Definition push {A : Type} (l : list A) (r : A) : list A := (l ++ [r])%list.

Definition has_error (r : report) : bool :=
  match r_error r with Some _ => true | None => false end.

(** [d[k] = v]: an existing key keeps its place, a new one goes last. *)
Fixpoint set {A : Type} (k : string) (v : A) (d : dict A) : dict A :=
  match d with
  | [] => [(k, v)]
  | (k', v') :: r =>
      if String.eqb k k' then (k, v) :: r else (k', v') :: set k v r
  end.

(** [del d[k]] *)
Fixpoint del {A : Type} (k : string) (d : dict A) : dict A :=
  match d with
  | [] => []
  | (k', v') :: r =>
      if String.eqb k k' then del k r else (k', v') :: del k r
  end.

(** What one call of the handler leaves behind: the reply, the list
    handed to [update_one] for [kitchen_inventory.ingredients] (if the
    call was made), and the per-item records the reply was built from. *)
Record outcome : Type := Outcome {
  response : string;
  written : option (list item);
  reports : list report
}.

(** The stored ingredients once the handler has returned. *)
Definition stored_after (before : list item) (o : outcome) : list item :=
  match written o with
  | Some updated_inventory => updated_inventory
  | None => before
  end.

Section Reconciler.

(** [normalize_item_name]: the external text normalization, lower-cased. *)
Variable normalize_item_name : string -> string.

(** Lines 604-607 and 845-848: the mapping of normalized names to items. *)
Definition index_inventory (current_inventory : list item) : dict item :=
  fold_left (fun current_items it =>
               set (normalize_item_name (name it)) it current_items)
            current_inventory [].

(** ** [remove_inventory] *)

(** The body of the inner [try] (lines 628-664).  It returns the state
    the iteration ends in; a [ValueError] escapes to the handler. *)
Definition remove_partial (normalized_name : string)
    (current_item it : item)
    (current_items : dict item) (removed_items : list report)
  : result (dict item * list report) :=
  '(current_value, current_unit) <- _parse_amount_unit (amount current_item) ;;
  '(remove_value, remove_unit) <- _parse_amount_unit (amount it) ;;
  let converted :=
    if negb (String.eqb current_unit remove_unit)
    then _convert_unit remove_value remove_unit current_unit
    else Some remove_value in
  match converted with
  | None =>
      (* continue *)
      Ok (current_items,
          push removed_items
            (Report (name current_item) (Some (amount current_item)) None
               (Some ("Cannot convert between " ++ remove_unit
                        ++ " and " ++ current_unit))))
  | Some remove_value =>
      if (remove_value <? current_value)%float then
        (* Update remaining amount *)
        let remaining := (current_value - remove_value)%float in
        Ok (set normalized_name
              (Item (name current_item) (_format_unit remaining current_unit))
              current_items,
            push removed_items
              (Report (name current_item)
                 (Some (_format_unit remove_value current_unit)) None None))
      else if (current_value =? remove_value)%float then
        (* Remove entire item *)
        Ok (del normalized_name current_items,
            push removed_items
              (Report (name current_item) (Some (amount current_item))
                 None None))
      else
        (* Can't remove more than available *)
        Ok (current_items,
            push removed_items
              (Report (name current_item) (Some (amount current_item)) None
                 (Some "Requested amount exceeds available amount")))
  end.

(** One iteration of the loop over [items_to_remove] (lines 613-678). *)
Definition remove_one (st : dict item * list report) (it : item)
  : dict item * list report :=
  let (current_items, removed_items) := st in
  let normalized_name := normalize_item_name (name it) in
  match get normalized_name current_items with
  | Some current_item =>
      if String.eqb (lower (amount it)) "all" then
        (* Remove entire item *)
        (del normalized_name current_items,
         push removed_items
           (Report (name current_item) (Some (amount current_item)) None None))
      else
        match remove_partial normalized_name current_item it
                current_items removed_items with
        | Ok st' => st'
        | Raise _ =>
            (* If amount parsing fails, remove entire item *)
            (del normalized_name current_items,
             push removed_items
               (Report (name current_item) (Some (amount current_item)) None
                  (Some "Invalid amount format")))
        end
  | None =>
      (current_items,
       push removed_items
         (Report (name it) None None (Some "Item not found in inventory")))
  end.

Definition remove_loop (items_to_remove : list item)
    (st : dict item * list report) : dict item * list report :=
  fold_left remove_one items_to_remove st.

Definition opt_str (o : option string) : string :=
  match o with Some s => s | None => "" end.

(** Lines 699-703. *)
Definition removed_line (r : report) : string :=
  match r_error r with
  | Some e => Msg.bullet ++ r_name r ++ Msg.dash ++ e ++ nl
  | None =>
      Msg.bullet ++ r_name r ++ Msg.open_paren ++ opt_str (r_amount r)
        ++ Msg.close_paren
  end.

(** Lines 696-706. *)
Definition format_removed (removed_items : list report) (remaining : nat)
  : string :=
  match removed_items with
  | [] => Msg.no_items_removed
  | _ =>
      Msg.remove_header ++ Msg.removed_items_heading
        ++ String.concat "" (map removed_line removed_items)
        ++ Msg.remaining_items ++ str_of_nat remaining
  end.

(** The [remove_inventory] branch (lines 599-711).  The classification's
    [remove_all] entry is passed along and, as in the source, not read. *)
Definition remove_inventory (current_inventory : list item)
    (items_to_remove : list item) (remove_all : bool) : outcome :=
  let current_items := index_inventory current_inventory in
  let (current_items, removed_items) :=
    remove_loop items_to_remove (current_items, []) in
  (* Convert back to list *)
  let updated_inventory := values current_items in
  {| response := format_removed removed_items (List.length updated_inventory);
     written := Some updated_inventory;
     reports := removed_items |}.

(** ** [update_inventory] *)

Record update_state : Type := UpdateState {
  u_items : dict item;
  u_reports : list report;
  has_errors : bool
}.

Definition fail_item (st : update_state) (r : report) : update_state :=
  {| u_items := u_items st;
     u_reports := push (u_reports st) r;
     has_errors := true |}.

(** The body of the inner [try] (lines 859-920). *)
Definition update_body (normalized_name : string) (new_item : item)
    (st : update_state) : result update_state :=
  let current_items := u_items st in
  (* Parse the new amount *)
  '(new_value, new_unit) <- _parse_amount_unit (amount new_item) ;;
  (* Validate unit *)
  let (is_valid, unit_message) := _validate_unit new_unit in
  if negb is_valid then
    Ok (fail_item st
          (Report (name new_item) (Some (amount new_item)) None
             (Some unit_message)))
  else
    match get normalized_name current_items with
    | Some current_item =>
        (* Parse current amount *)
        '(current_value, current_unit) <-
            _parse_amount_unit (amount current_item) ;;
        (* Validate current unit *)
        let (is_valid, unit_message) := _validate_unit current_unit in
        if negb is_valid then
          Ok (fail_item st
                (Report (name new_item) (Some (amount current_item)) None
                   (Some ("Current amount has " ++ unit_message))))
        else
          (* Try to convert units if they're different *)
          let converted :=
            if negb (String.eqb current_unit new_unit)
            then
              match _convert_unit new_value new_unit current_unit with
              | Some converted_value => Some (converted_value, current_unit)
              | None => None
              end
            else Some (new_value, new_unit) in
          match converted with
          | None =>
              Ok (fail_item st
                    (Report (name new_item) (Some (amount new_item)) None
                       (Some ("Cannot convert between " ++ new_unit
                                ++ " and " ++ current_unit))))
          | Some (new_value, new_unit) =>
              (* Add the amounts *)
              let total_value := (current_value + new_value)%float in
              Ok {| u_items :=
                      set normalized_name
                        (Item (name current_item)
                           (_format_unit total_value current_unit))
                        current_items;
                    u_reports :=
                      push (u_reports st)
                        (Report (name new_item)
                           (Some (_format_unit total_value current_unit))
                           (Some (_format_unit new_value new_unit)) None);
                    has_errors := has_errors st |}
          end
    | None =>
        (* Add new item *)
        Ok {| u_items :=
                set normalized_name
                  (Item (name new_item) (_format_unit new_value new_unit))
                  current_items;
              u_reports :=
                push (u_reports st)
                  (Report (name new_item)
                     (Some (_format_unit new_value new_unit))
                     (Some (_format_unit new_value new_unit)) None);
              has_errors := has_errors st |}
    end.

(** One iteration of the loop over [new_items] (lines 856-928). *)
Definition update_one (st : update_state) (new_item : item) : update_state :=
  let normalized_name := normalize_item_name (name new_item) in
  match update_body normalized_name new_item st with
  | Ok st' => st'
  | Raise _ =>
      fail_item st
        (Report (name new_item) (Some (amount new_item)) None
           (Some "Invalid amount format"))
  end.

Definition update_loop (new_items : list item) (st : update_state)
  : update_state :=
  fold_left update_one new_items st.

(** Lines 955-959. *)
Definition updated_line (r : report) : string :=
  match r_error r with
  | Some e =>
      Msg.bullet ++ r_name r ++ Msg.open_paren ++ opt_str (r_amount r)
        ++ Msg.close_paren_dash ++ e ++ nl
  | None =>
      Msg.bullet ++ r_name r ++ Msg.open_paren ++ opt_str (r_amount r)
        ++ Msg.close_paren_plus ++ opt_str (r_added r) ++ Msg.close_bracket
  end.

(** Lines 947-964. *)
Definition format_updated (st : update_state) : string :=
  match u_reports st with
  | [] => Msg.no_items_added
  | updated_items =>
      (if has_errors st then Msg.update_warning else Msg.update_header)
        ++ Msg.items_heading
        ++ String.concat "" (map updated_line updated_items)
        ++ (if has_errors st then ""
            else Msg.total_in_inventory
                   ++ str_of_nat (List.length (u_items st)))
  end.

(** The [update_inventory] branch (lines 840-969). *)
Definition update_inventory (current_inventory : list item)
    (new_items : list item) : outcome :=
  let current_items := index_inventory current_inventory in
  let st := update_loop new_items (UpdateState current_items [] false) in
  {| response := format_updated st;
     (* Only update database if there are no errors *)
     written := if has_errors st then None else Some (values (u_items st));
     reports := u_reports st |}.

End Reconciler.

End Inventory.

(* ================================================================== *)
(** * Intent classification: [classify_message] *)
(* ================================================================== *)

Module Classifier.
Import PyStr PyExc Units.

#[local] Set Warnings "-register-all".

(** What [json.loads] returns. *)
Inductive json : Type :=
| JNull
| JBool (b : bool)
| JInt (n : Z)
| JFloat (x : float)
| JStr (s : string)
| JList (l : list json)
| JDict (d : dict json).

(** What the chat completion call of lines 373-387 comes to. *)
Inductive completion : Type :=
| ApiError (e : exn)        (* the call, or reading its content, raised *)
| NotJson (content : string) (* [json.loads] raises [JSONDecodeError] *)
| Decoded (j : json).        (* [json.loads] returned [j] *)

Definition is_str (s : string) (j : json) : bool :=
  match j with JStr t => String.eqb t s | _ => false end.

(** [field in c], for the string [field]. *)
Definition py_in (field : string) (c : json) : result bool :=
  match c with
  | JDict d => Ok (has_key field d)
  | JList l => Ok (existsb (is_str field) l)
  | JStr s => Ok (contains field s)
  | _ => Raise (TypeError "argument is not iterable")
  end.

(** [c[key]], for the string [key]. *)
Definition subscript (c : json) (key : string) : result json :=
  match c with
  | JDict d =>
      match get key d with
      | Some v => Ok v
      | None => Raise (KeyError key)
      end
  | _ => Raise (TypeError "indices must be integers")
  end.

(** [v in names], for a list of strings [names]. *)
Definition among (v : json) (names : list string) : bool :=
  match v with JStr s => mem s names | _ => false end.

Definition valid_actions : list string :=
  ["get_recipes"; "general_conversation"; "update_inventory";
   "get_inventory"; "remove_inventory"].

Definition is_list (j : json) : bool :=
  match j with JList _ => true | _ => false end.
Definition is_dict (j : json) : bool :=
  match j with JDict _ => true | _ => false end.

(** [raise ValueError(msg)] when [b] holds. *)
Definition raise_if (b : bool) (msg : string) : result unit :=
  if b then Raise (ValueError msg) else Ok tt.

(** Lines 405-407: each item must be a dict with "name" and "amount". *)
Fixpoint check_items (l : list json) : result unit :=
  match l with
  | [] => Ok tt
  | item :: rest =>
      bad <- (if negb (is_dict item) then Ok true
              else
                has_name <- py_in "name" item ;;
                if negb has_name then Ok true
                else
                  has_amount <- py_in "amount" item ;;
                  Ok (negb has_amount)) ;;
      _ <- raise_if bad
             "Each inventory item must have 'name' and 'amount' fields" ;;
      check_items rest
  end.

(** The items of a list, for the [for] loop of line 405. *)
Definition iterate (j : json) : result (list json) :=
  match j with
  | JList l => Ok l
  | _ => Raise (TypeError "not a list")
  end.

(** Lines 389-410: validation of the decoded reply. *)
Definition validate (classification : json) : result json :=
  (* Validate required fields *)
  has_action <- py_in "action" classification ;;
  _ <- raise_if (negb has_action) "Missing required fields in classification" ;;
  (* Validate action type *)
  action <- subscript classification "action" ;;
  _ <- raise_if (negb (among action valid_actions)) "Invalid action type" ;;
  (* Validate items field for update_inventory and remove_inventory *)
  _ <- (if among action ["update_inventory"; "remove_inventory"] then
          has_items <- py_in "items" classification ;;
          bad <- (if negb has_items then Ok true
                  else
                    items <- subscript classification "items" ;;
                    Ok (negb (is_list items))) ;;
          _ <- raise_if bad
                 "Missing or invalid items field for inventory action" ;;
          items <- subscript classification "items" ;;
          l <- iterate items ;;
          check_items l
        else Ok tt) ;;
  Ok classification.

(** The [try] block, lines 372-414. *)
Definition classify_body (c : completion) : result json :=
  match c with
  | ApiError e => Raise e
  | NotJson content => Raise (ValueError ("Invalid JSON response: " ++ content))
  | Decoded classification => validate classification
  end.

(** Lines 419-421. *)
Definition general_conversation : json :=
  JDict [("action", JStr "general_conversation")].

(** [classify_message]: the [try] block under [except Exception]. *)
Definition classify_message (c : completion) : json :=
  try_except (classify_body c) (fun _ => general_conversation).

(** The action of a returned classification. *)
Definition action_of (j : json) : option string :=
  match j with
  | JDict d => match get "action" d with Some (JStr a) => Some a | _ => None end
  | _ => None
  end.

End Classifier.

(* ================================================================== *)
(** * Dispatch: [process_classified_message] *)
(* ================================================================== *)

Module Dispatch.
Import PyStr PyExc Units Inventory.

(** ** [generate_general_response] and the general branch *)

(** Lines 88-89 and 1041-1042: the same cut, made twice. *)
Definition cut_reply (text : string) : string :=
  if (1500 <? len text)%nat then slice_to 1497 text ++ Msg.ellipsis
  else text.

(** [generate_general_response], as far as its ["response"] goes: the
    completion's content, cut; any failure is re-raised (line 110). *)
Definition generate_general_response (completion : result string)
  : result string :=
  ai_response <- completion ;;
  Ok (cut_reply ai_response).

(** ** The [get_recipes] branch *)

(** A recipe whose fields are texts and lists of texts, as the prompt of
    [generate_recipe_recommendations] prescribes them. *)
Record recipe : Type := Recipe {
  recipe_name : string;
  description : string;
  available : list string;
  needed : list string;
  difficulty : string;
  cooking_time : string;
  steps : list string
}.

(** [[f"{i+1}. {step}" for i, step in enumerate(steps)]] (line 998) *)
Fixpoint numbered (i : nat) (steps : list string) : list string :=
  match steps with
  | [] => []
  | step :: r => (str_of_nat (i + 1) ++ ". " ++ step) :: numbered (S i) r
  end.

(** Lines 994-1010. *)
Definition recipe_text (r : recipe) : string :=
  let available_ingredients := join Msg.ingredient_sep ("" :: available r) in
  let needed_ingredients := join Msg.ingredient_sep ("" :: needed r) in
  let steps := join Msg.step_sep (numbered 0 (steps r)) in
  Msg.pin ++ recipe_name r ++ nl
  ++ Msg.memo ++ description r ++ nl ++ nl
  ++ Msg.ingredients_heading
  ++ Msg.available_label ++ available_ingredients ++ nl
  ++ Msg.needed_label ++ needed_ingredients ++ nl ++ nl
  ++ Msg.time_label ++ cooking_time r ++ nl
  ++ Msg.difficulty_label ++ difficulty r ++ nl ++ nl
  ++ Msg.steps_label ++ steps ++ nl ++ nl
  ++ repeat_str Msg.rule_char 30 ++ nl ++ nl.

(** The loop of lines 992-1016: the recipes shown, given the length
    reached so far; it stops at the first recipe that does not fit. *)
Fixpoint recipes_to_show (total_length : nat) (recipes : list recipe)
  : list string :=
  match recipes with
  | [] => []
  | r :: rest =>
      let text := recipe_text r in
      if (1400 <? total_length + len text)%nat then []
      else text :: recipes_to_show (total_length + len text) rest
  end.

(** Lines 1020-1023. *)
Definition more_note (shown all : nat) : string :=
  if (shown <? all)%nat then
    let remaining := (all - shown)%nat in
    Msg.and_more ++ str_of_nat remaining ++ Msg.more_recipe
      ++ (if (1 <? remaining)%nat then "s" else "")
      ++ Msg.ask_for_more
  else "".

(** Lines 987-1023: the reply of the [get_recipes] branch. *)
Definition format_recipes (recipes : list recipe) : string :=
  let response := Msg.recipe_header in
  let shown := recipes_to_show (len response) recipes in
  response ++ String.concat "" shown
    ++ more_note (List.length shown) (List.length recipes).

(** ** The [get_inventory] branch *)

(** The decoded reply of the inventory analyzer (line 759), read by its
    ["type"]; [Other] is any type the branch does not know. *)
Inductive analysis : Type :=
| All
| Specific (items : list string)
| Category (categories : list string)
| Other.

Definition upper_char (c : ascii) : ascii :=
  if is_lower c then ascii_of_nat (code c - 32) else c.

(** [s.title()] *)
Fixpoint title_from (after_letter : bool) (s : string) : string :=
  match s with
  | "" => ""
  | String c r =>
      String (if after_letter then lower_char c else upper_char c)
             (title_from (is_alpha c) r)
  end.
Definition title (s : string) : string := title_from false s.

(** Lines 762-767: [normalized_groups[k].append(item)], a new key last. *)
Fixpoint add_to_group (k : string) (it : item) (g : dict (list item))
  : dict (list item) :=
  match g with
  | [] => [(k, [it])]
  | (k', l) :: r =>
      if String.eqb k k' then (k, push l it) :: r
      else (k', l) :: add_to_group k it r
  end.

(** [sorted(d.items(), key=lambda x: x[0])], by insertion. *)
Fixpoint insert_sorted {A : Type} (kv : string * A) (l : dict A) : dict A :=
  match l with
  | [] => [kv]
  | kv' :: r =>
      if String.leb (fst kv) (fst kv') then kv :: l
      else kv' :: insert_sorted kv r
  end.
Definition sorted_items {A : Type} (d : dict A) : dict A :=
  fold_right insert_sorted [] d.

(** Lines 815-822. *)
Definition group_lines (g : string * list item) : string :=
  let (normalized_name, items) := g in
  match items with
  | [it] =>
      Msg.bullet ++ name it ++ Msg.open_paren ++ amount it ++ Msg.close_paren
  | _ =>
      Msg.bullet ++ title normalized_name ++ Msg.group_colon
        ++ String.concat ""
             (map (fun it => Msg.sub_bullet ++ name it ++ Msg.open_paren
                               ++ amount it ++ Msg.close_paren) items)
  end.

Section GetInventory.

Variable normalize_item_name : string -> string.
(** The category call of lines 786-797: the categories of a name. *)
Variable categories_of : string -> list string.

Definition group_inventory (inventory : list item) : dict (list item) :=
  fold_left (fun g it => add_to_group (normalize_item_name (name it)) it g)
            inventory [].

(** Lines 770-800. *)
Definition filter_groups (a : analysis) (normalized_groups : dict (list item))
  : dict (list item) :=
  match a with
  | All => normalized_groups
  | Specific items =>
      fold_left
        (fun filtered it =>
           let normalized_item := normalize_item_name it in
           match get normalized_item normalized_groups with
           | Some g => set normalized_item g filtered
           | None => filtered
           end)
        items []
  | Category categories =>
      fold_left
        (fun filtered kv =>
           if existsb (fun cat => mem cat categories) (categories_of (fst kv))
           then set (fst kv) (snd kv) filtered
           else filtered)
        normalized_groups []
  | Other => []
  end.

(** Lines 722-827, once the analysis is at hand. *)
Definition format_inventory (inventory : list item) (a : analysis)
    (last_updated : string) : string :=
  match inventory with
  | [] => Msg.inventory_empty
  | _ =>
      let normalized_groups := group_inventory inventory in
      let filtered_groups := filter_groups a normalized_groups in
      let sorted_groups := sorted_items filtered_groups in
      match filtered_groups with
      | [] =>
          match a with
          | Specific _ => Msg.none_found
          | Category categories =>
              Msg.no_category_items ++ join ", " categories
          | _ => Msg.inventory_empty
          end
      | _ =>
          Msg.inventory_header
            ++ String.concat "" (map group_lines sorted_groups)
            ++ Msg.total_shown ++ str_of_nat (List.length filtered_groups)
            ++ (if (List.length filtered_groups
                      <? List.length normalized_groups)%nat
                then Msg.of_total
                       ++ str_of_nat (List.length normalized_groups)
                       ++ Msg.total_items_suffix
                else "")
            ++ Msg.last_updated ++ last_updated
      end
  end.

End GetInventory.

(** ** The dispatcher *)

(** A validated classification whose items carry strings, as the
    classifier's prompt prescribes. *)
Record classification : Type := Classification {
  action : string;
  items : list item;
  remove_all : bool
}.

(** The part of the user document the branches read. *)
Record user : Type := User {
  ingredients : list item;
  last_updated : string    (* already through [strftime] *)
}.

(** The results of the external calls one turn may make. *)
Record capabilities : Type := Capabilities {
  normalize_item_name : string -> string;
  chat_completion : result string;       (* line 78 *)
  recommended_recipes : list recipe;     (* line 980 *)
  inventory_analysis : result analysis;  (* lines 748-759 *)
  categories_of : string -> list string  (* lines 786-797 *)
}.

Definition reply (text : string) : outcome :=
  {| response := text; written := None; reports := [] |}.

(** [process_classified_message] *)
Definition process_classified_message (cap : capabilities)
    (c : classification) (u : user) : result outcome :=
  if String.eqb (action c) "remove_inventory" then
    Ok (remove_inventory (normalize_item_name cap) (ingredients u)
          (items c) (remove_all c))
  else if String.eqb (action c) "get_inventory" then
    match ingredients u with
    | [] => Ok (reply Msg.inventory_empty)
    | _ =>
        Ok (reply
              (try_except
                 (a <- inventory_analysis cap ;;
                  Ok (format_inventory (normalize_item_name cap)
                        (categories_of cap) (ingredients u) a
                        (last_updated u)))
                 (fun _ => Msg.get_failed)))
    end
  else if String.eqb (action c) "update_inventory" then
    Ok (update_inventory (normalize_item_name cap) (ingredients u) (items c))
  else if String.eqb (action c) "get_recipes" then
    Ok (reply (format_recipes (recommended_recipes cap)))
  else
    (* Handle general conversation with character limit *)
    response <- generate_general_response (chat_completion cap) ;;
    Ok (reply (cut_reply response)).

End Dispatch.

(* ================================================================== *)
(** * The specification's vocabulary *)
(* ================================================================== *)

Module Spec.
Import PyStr PyFloat PyExc Units Classifier.

(** ** Unit table: alias -> dimension class and factor *)

Inductive dimension : Type := Weight | Volume | Count.

Definition dimension_eqb (a b : dimension) : bool :=
  match a, b with
  | Weight, Weight | Volume, Volume | Count, Count => true
  | _, _ => false
  end.

(** The three sections of the conversion table. *)
Definition weight_aliases : list string :=
  ["g"; "gram"; "grams"; "kg"; "kilo"; "kilos"; "kilogram"; "kilograms"].
Definition volume_aliases : list string :=
  ["ml"; "milliliter"; "milliliters"; "l"; "liter"; "liters"].
Definition count_aliases : list string :=
  ["piece"; "pieces"; "pcs"; "pc"; "whole"; "wholes"].

Definition known_unit (u : string) : Prop := In u (keys _get_unit_conversions).

Definition dimension_of (u : string) : dimension :=
  if mem u weight_aliases then Weight
  else if mem u volume_aliases then Volume
  else Count.

(** [factorToBase]: the table's entry, as a float. *)
Definition factor_to_base (u : string) : float :=
  match get u _get_unit_conversions with
  | Some f => float_of_int f
  | None => 0%float
  end.

(** ** Substrings and character classes *)

(** [x] occurs in [y]. *)
Definition substring_of (x y : string) : Prop :=
  exists p q, y = p ++ x ++ q.

Fixpoint all_chars (p : ascii -> bool) (s : string) : bool :=
  match s with
  | "" => true
  | String c r => p c && all_chars p r
  end.

Definition nonempty (s : string) : Prop := s <> "".

(** One or more digits. *)
Definition digits1 (s : string) : Prop :=
  nonempty s /\ all_chars is_digit s = true.

(** Digits, optionally followed by a point and more digits. *)
Definition unsigned_decimal (n : string) : Prop :=
  digits1 n \/ exists a b, n = a ++ "." ++ b /\ digits1 a /\ digits1 b.

(** One or more letters. *)
Definition alphabetic (u : string) : Prop :=
  nonempty u /\ all_chars is_alpha u = true.

(** A non-empty run without white space. *)
Definition token (w : string) : Prop :=
  nonempty w /\ all_chars (fun c => negb (is_space c)) w = true.

(** A non-empty run of white space. *)
Definition blank (ws : string) : Prop :=
  nonempty ws /\ all_chars is_space ws = true.

(** ** The parse strategies of [parseAmount] *)

(** (b): numeral [n] directly followed by the alphabetic unit [u]. *)
Definition concat_form (t n u : string) : Prop :=
  t = n ++ u /\ unsigned_decimal n /\ alphabetic u.

(** (c): two tokens [p0] and [p1] with white space between them. *)
Definition spaced_form (t p0 p1 : string) : Prop :=
  exists ws, t = p0 ++ ws ++ p1 /\ token p0 /\ blank ws /\ token p1.

(** The three strategies read with one notion of numeral throughout. *)
Definition accepted (numeral : string -> Prop) (t : string) : Prop :=
  numeral t
  \/ (exists n u, t = n ++ u /\ numeral n /\ alphabetic u)
  \/ (exists n u, spaced_form t n u /\ numeral n).

Definition parses (s : string) : Prop :=
  exists v u, _parse_amount_unit s = Ok (v, u).

(** ** [validate] with a single plural suffix *)

(** Drops one trailing "s", if there is one. *)
Fixpoint strip_plural_once (s : string) : string :=
  match s with
  | "" => ""
  | String c "" => if Ascii.eqb c "s" then "" else s
  | String c r => String c (strip_plural_once r)
  end.

Definition validates_single_suffix (u : string) : bool :=
  has_key (strip_plural_once (lower u)) _get_unit_conversions.

(** ** The intents a classification may carry *)

Definition intents : list string :=
  ["general_conversation"; "get_recipes"; "update_inventory";
   "get_inventory"; "remove_inventory"].

Definition inventory_intent (a : string) : bool :=
  String.eqb a "update_inventory" || String.eqb a "remove_inventory".

(** An item with a name and an amount. *)
Definition item_ok (j : json) : bool :=
  match j with
  | JDict f => has_key "name" f && has_key "amount" f
  | _ => false
  end.

(** A result the validation layer lets through: an object with an
    [action] among the five intents and, for an inventory intent, a list
    of items each with name and amount. *)
Definition well_formed (j : json) : bool :=
  match j with
  | JDict d =>
      match get "action" d with
      | Some (JStr a) =>
          mem a intents
          && (if inventory_intent a then
                match get "items" d with
                | Some (JList l) => forallb item_ok l
                | _ => false
                end
              else true)
      | _ => false
      end
  | _ => false
  end.

End Spec.

(* ================================================================== *)
(** * Notions used in the statements and proofs below *)
(* ================================================================== *)

Module Notions.
Import PyStr PyFloat PyExc Units Inventory Classifier Dispatch.

Definition first_char (s : string) : option ascii :=
  match s with "" => None | String c _ => Some c end.

Fixpoint last_char (s : string) : option ascii :=
  match s with
  | "" => None
  | String c "" => Some c
  | String _ r => last_char r
  end.

(** [r] is empty or begins with a character outside the class [p]. *)
Definition stops (p : ascii -> bool) (r : string) : Prop :=
  forall c, first_char r = Some c -> p c = false.

Definition nonspace (c : ascii) : bool := negb (is_space c).

(** Neither the first nor the last character is white space. *)
Definition stripped (t : string) : Prop :=
  (forall c, first_char t = Some c -> is_space c = false)
  /\ (forall c, last_char t = Some c -> is_space c = false).

(** [r] is empty or begins with neither a digit nor an underscore. *)
Definition digits_stop (r : string) : Prop :=
  forall c, first_char r = Some c ->
            is_digit c = false /\ Ascii.eqb c "_" = false.

(** Zero or above, as a binary64 datum. *)
Definition nonneg (f : spec_float) : Prop :=
  SFleb (S754_zero false) f = true.

(** The mapping of normalized names to items is well keyed: the keys are
    distinct, and each is the normalized name of its item. *)
Definition consistent (norm : string -> string) (d : dict item) : Prop :=
  NoDup (keys d) /\ Forall (fun kv => fst kv = norm (name (snd kv))) d.

(** What one iteration of the removal loop may do to the mapping. *)
Inductive effect (k : string) (d : dict item) : dict item -> Prop :=
| Unchanged : effect k d d
| Deleted : effect k d (del k d)
| Reduced (cur : item) (amt : string) :
    get k d = Some cur -> effect k d (set k (Item (name cur) amt) d).

(** Line 407. *)
Definition items_error : exn :=
  ValueError "Each inventory item must have 'name' and 'amount' fields".

(** A set of capability results for the worked examples. *)
Definition kitchen : capabilities :=
  {| normalize_item_name := lower;
     chat_completion := Ok "Season the pan first.";
     recommended_recipes := [];
     inventory_analysis := Ok All;
     categories_of := fun _ => [] |}.

(** A recipe of some six hundred characters, and capability results
    with a chat completion of 1600 characters and three such recipes. *)
Definition stew : recipe :=
  {| recipe_name := "Beef stew";
     description := "A slow stew for a cold day.";
     available := ["beef"; "onion"];
     needed := ["carrot"];
     difficulty := "beginner";
     cooking_time := "2 hours";
     steps := [repeat_str "a" 150; repeat_str "b" 150; repeat_str "c" 150] |}.

Definition talkative : capabilities :=
  {| normalize_item_name := lower;
     chat_completion := Ok (repeat_str "a" 1600);
     recommended_recipes := [stew; stew; stew];
     inventory_analysis := Ok All;
     categories_of := fun _ => [] |}.

End Notions.

(* ================================================================== *)
(** * Notions for the inventory mapping *)
(* ================================================================== *)

Module InventoryNotions.
Import PyStr PyFloat PyExc Units Inventory Spec.

(** The normalized names of a list of items, in order. *)
Definition normalized (norm : string -> string) (l : list item) : list string :=
  map (fun it => norm (name it)) l.

(** The keys of a mapping with the names stored under them. *)
Definition skeleton (d : dict item) : list (string * string) :=
  map (fun kv => (fst kv, name (snd kv))) d.

(** What one iteration of the addition loop may do to the mapping, for an
    item called [nm] whose normalized name is [k]. *)
Inductive addition (nm k : string) (d : dict item) : dict item -> Prop :=
| Kept : addition nm k d d
| Summed (cur : item) (amt : string) :
    get k d = Some cur -> addition nm k d (set k (Item (name cur) amt) d)
| Appended (amt : string) :
    get k d = None -> addition nm k d (set k (Item nm amt) d).

(** A record of the removal loop that refuses the request: an error other
    than the one of the amount-parsing handler (line 677). *)
Definition refused (r : report) : bool :=
  match r_error r with
  | Some e => negb (String.eqb e "Invalid amount format")
  | None => false
  end.

(** The stored items filed under the normalized name [k], in stored
    order. *)
Definition members (norm : string -> string) (k : string) (l : list item)
  : list item :=
  filter (fun it => String.eqb (norm (name it)) k) l.

(** An entry whose amount [_parse_amount_unit] accepts. *)
Definition parseable (it : item) : Prop := Spec.parses (amount it).

(** An entry called [nm] whose amount is read with the unit [cu]. *)
Definition measured_in (nm cu : string) (e : item) : Prop :=
  name e = nm /\ exists v, _parse_amount_unit (amount e) = Ok (v, cu).

(** Some stored item is filed under the normalized name [k]. *)
Definition stocked (norm : string -> string) (k : string) (l : list item)
  : bool :=
  existsb (fun it => String.eqb (norm (name it)) k) l.

(** Ascending by key. *)
Definition by_key {A : Type} (x y : string * A) : Prop :=
  String.leb (fst x) (fst y) = true.

End InventoryNotions.

(* ================================================================== *)
(** * The conversation: [generate_general_response] with its history *)
(* ================================================================== *)

Module Conversation.
Import PyStr PyExc Units Inventory Dispatch.

(** An entry of [conversation_history]. *)
Record entry : Type := Entry {
  role : string;
  content : string;
  timestamp : string
}.

(** A message of a chat request. *)
Record message : Type := Message { m_role : string; m_content : string }.

(** [l[-n:]], for a positive [n]. *)
Definition last_n {A : Type} (n : nat) (l : list A) : list A :=
  skipn (List.length l - n) l.

(** [l.append(a); l.append(b)] on the caller's list. *)
Definition append2 {A : Type} (l : list A) (a b : A) : list A :=
  push (push l a) b.

(** Line 73: the note on what is in the kitchen. *)
Definition ingredients_note (available_ingredients : list item) : string :=
  "Available ingredients: "
  ++ join ", " (map (fun it => name it ++ " , " ++ amount it)
                    available_ingredients).

(** Lines 53-54: the instruction added to the personality prompt. *)
Definition limit_instruction : string :=
  nl ++ nl
  ++ "IMPORTANT: Keep your response under 1500 characters. Be concise and clear.".

(** Lines 56-74: the messages sent, given the prompt that
    [_get_system_prompt] built. *)
Definition request (system_prompt message : string)
    (conversation_history : list entry)
    (available_ingredients : option (list item)) : list Conversation.message :=
  ([Message "system" (system_prompt ++ limit_instruction)]
   ++ map (fun msg => Message (role msg) (content msg))
          (last_n 5 conversation_history)
   ++ [Message "user" message]
   ++ match available_ingredients with
      | Some ((_ :: _) as l) => [Message "system" (ingredients_note l)]
      | _ => []
      end)%list.

Section WithProvider.

(** The chat completion of lines 78-85, as a function of the request. *)
Variable chat : list Conversation.message -> result string.

(** [generate_general_response] with its second result: the reply and
    the history it leaves.  [t_user] and [t_assistant] are the two
    readings of the clock. *)
Definition generate_general_response_with_history (message : string)
    (conversation_history : list entry) (system_prompt : string)
    (available_ingredients : option (list item))
    (t_user t_assistant : string) : result (string * list entry) :=
  ai_response <-
    Dispatch.generate_general_response
      (chat (request system_prompt message conversation_history
               available_ingredients)) ;;
  Ok (ai_response,
      append2 conversation_history
        (Entry "user" message t_user)
        (Entry "assistant" ai_response t_assistant)).

End WithProvider.

End Conversation.

(* ================================================================== *)
(** * [generate_recipe_recommendations] *)
(* ================================================================== *)

Module Recipes.
Import PyStr PyExc Units Inventory Classifier Conversation.

(** [len(j)] *)
Definition py_len (j : json) : result nat :=
  match j with
  | JStr s => Ok (len s)
  | JList l => Ok (List.length l)
  | JDict d => Ok (List.length d)
  | _ => Raise (TypeError "object has no len()")
  end.

(** [j[:n] + "..."]: only a string can be cut this way; a list cannot
    take the string, and the others cannot be sliced.  Whatever is raised
    here, the handler of line 292 catches it. *)
Definition cut_to (n : nat) (j : json) : result json :=
  match j with
  | JStr s => Ok (JStr (slice_to n s ++ "..."))
  | JList _ => Raise (TypeError "can only concatenate list to list")
  | _ => Raise (TypeError "object is not subscriptable")
  end.

(** [c[key] = v] *)
Definition store (c : json) (key : string) (v : json) : result json :=
  match c with
  | JDict d => Ok (JDict (set key v d))
  | _ => Raise (TypeError "object does not support item assignment")
  end.

Definition required_fields : list string :=
  ["name"; "description"; "ingredients"; "difficulty"; "cooking_time";
   "steps"].

(** [all(field in recipe for field in fields)] *)
Fixpoint all_in (fields : list string) (recipe : json) : result bool :=
  match fields with
  | [] => Ok true
  | field :: rest =>
      found <- py_in field recipe ;;
      if found then all_in rest recipe else Ok false
  end.

(** [x[:keep] + "..." if len(x) > limit else x] *)
Definition shorten (limit keep : nat) (x : json) : result json :=
  n <- py_len x ;;
  if (limit <? n)%nat then cut_to keep x else Ok x.

(** Line 269: the list comprehension over the steps. *)
Fixpoint shorten_steps (steps : list json) : result (list json) :=
  match steps with
  | [] => Ok []
  | step :: rest =>
      s <- shorten 150 147 step ;;
      r <- shorten_steps rest ;;
      Ok (s :: r)
  end.

(** Lines 246-270: one pass of the loop over the recipes; the recipe is
    changed in place. *)
Definition check_recipe (recipe : json) : result json :=
  complete <- all_in required_fields recipe ;;
  _ <- raise_if (negb complete)
         "Recipe missing required fields: ['name', 'description', 'ingredients', 'difficulty', 'cooking_time', 'steps']" ;;
  (* Validate ingredients structure *)
  ingredients <- subscript recipe "ingredients" ;;
  bad <- (if negb (is_dict ingredients) then Ok true
          else
            has_available <- py_in "available" ingredients ;;
            if negb has_available then Ok true
            else
              has_needed <- py_in "needed" ingredients ;;
              Ok (negb has_needed)) ;;
  _ <- raise_if bad
         "Recipe ingredients must have 'available' and 'needed' lists" ;;
  (* Validate arrays *)
  steps <- subscript recipe "steps" ;;
  _ <- raise_if (negb (is_list steps)) "Recipe steps must be an array" ;;
  (* Validate string lengths *)
  description <- subscript recipe "description" ;;
  n <- py_len description ;;
  recipe <- (if (100 <? n)%nat then
               short <- cut_to 97 description ;;
               store recipe "description" short
             else Ok recipe) ;;
  (* Truncate long steps but keep more detail (150 chars) *)
  steps <- subscript recipe "steps" ;;
  l <- iterate steps ;;
  l' <- shorten_steps l ;;
  store recipe "steps" (JList l').

Fixpoint check_recipes (l : list json) : result (list json) :=
  match l with
  | [] => Ok []
  | recipe :: rest =>
      r <- check_recipe recipe ;;
      rs <- check_recipes rest ;;
      Ok (r :: rs)
  end.

(** Lines 240-270: the decoded reply once it is through validation, its
    recipes changed in place. *)
Definition validate_recipes (recipes : json) : result json :=
  has_recipes <- py_in "recipes" recipes ;;
  bad <- (if negb has_recipes then Ok true
          else
            r <- subscript recipes "recipes" ;;
            Ok (negb (is_list r))) ;;
  _ <- raise_if bad "Response must contain 'recipes' array" ;;
  r <- subscript recipes "recipes" ;;
  l <- iterate r ;;
  l' <- check_recipes l ;;
  store recipes "recipes" (JList l').

(** Lines 297-311: what is returned when anything went wrong. *)
Definition error_recipes : json :=
  JDict
    [("recipes",
      JList
        [JDict
           [("name", JStr "Error generating recipes");
            ("description", JStr "Please try again later");
            ("ingredients",
             JDict [("available", JList []); ("needed", JList [])]);
            ("difficulty", JStr "beginner");
            ("cooking_time", JStr "0 minutes");
            ("steps", JList [JStr "Try again later"])]])].

Section WithClock.

(** [str(recipes)], the text of the assistant's history entry. *)
Variable str_of : json -> string.

(** The [try] block of lines 182-290: the recommendations and the
    history the call leaves. *)
Definition recommend_body (c : completion) (message : string)
    (conversation_history : list entry) (t_user t_assistant : string)
  : result (json * list entry) :=
  match c with
  | ApiError e => Raise e
  | NotJson content =>
      Raise (ValueError ("Invalid JSON response: " ++ content))
  | Decoded recipes =>
      recipes <- validate_recipes recipes ;;
      Ok (recipes,
          append2 conversation_history
            (Entry "user" message t_user)
            (Entry "assistant" (str_of recipes) t_assistant))
  end.

(** [generate_recipe_recommendations]: its ["recommendations"], and the
    conversation history once it has returned. *)
Definition generate_recipe_recommendations (c : completion)
    (message : string) (conversation_history : list entry)
    (t_user t_assistant : string) : json * list entry :=
  try_except
    (recommend_body c message conversation_history t_user t_assistant)
    (fun _ => (error_recipes, conversation_history)).

End WithClock.

(** ** The shape the recipes branch of the dispatcher reads *)

(** A value with a length of at most [limit]. *)
Definition within (limit : nat) (j : json) : bool :=
  match py_len j with
  | Ok n => (n <=? limit)%nat
  | Raise _ => false
  end.

Definition field_is (p : json -> bool) (key : string) (d : dict json) : bool :=
  match get key d with Some v => p v | None => false end.

Definition present (_ : json) : bool := true.

(** A recipe with the six fields, ingredients split in two, a
    description of at most 100 and steps of at most 150 each. *)
Definition recipe_ok (recipe : json) : bool :=
  match recipe with
  | JDict d =>
      forallb (fun field => has_key field d) required_fields
      && field_is (fun i =>
                     match i with
                     | JDict f => has_key "available" f && has_key "needed" f
                     | _ => false
                     end) "ingredients" d
      && field_is (within 100) "description" d
      && field_is (fun s =>
                     match s with
                     | JList l => forallb (within 150) l
                     | _ => false
                     end) "steps" d
  | _ => false
  end.

Definition recommendations_ok (recipes : json) : bool :=
  match recipes with
  | JDict d =>
      field_is (fun r =>
                  match r with
                  | JList l => forallb recipe_ok l
                  | _ => false
                  end) "recipes" d
  | _ => false
  end.

End Recipes.

(* ================================================================== *)
(** * The webhook: addressing and the per-user lock *)
(* ================================================================== *)

Module Webhook.
Import PyStr PyExc Units Inventory.

(** [s.replace(old, new)] for a non-empty [old]: the occurrences of
    [old] are found from the left, without overlap.  [skip] counts the
    characters of an occurrence still to be passed over. *)
Fixpoint replace_from (skip : nat) (old new s : string) : string :=
  match s with
  | "" => ""
  | String c r =>
      match skip with
      | S k => replace_from k old new r
      | O =>
          if prefix old s
          then new ++ replace_from (String.length old - 1) old new r
          else String c (replace_from 0 old new r)
      end
  end.

Definition replace (old new s : string) : string := replace_from 0 old new s.

(** [d.get(key, default)] *)
Definition get_or {A : Type} (key : string) (default : A) (d : dict A) : A :=
  match get key d with Some v => v | None => default end.

Record incoming : Type := Incoming {
  type : string;
  from_number : string;
  message_body : string;
  media_url : option string;
  timestamp : string;
  message_sid : string
}.

(** [parse_incoming_message], on form data whose values are strings. *)
Definition parse_incoming_message (message_data : dict string) : incoming :=
  {| type := get_or "MessageType" "text" message_data;
     from_number := replace "whatsapp:" "" (get_or "From" "" message_data);
     message_body := get_or "Body" "" message_data;
     media_url := get "MediaUrl0" message_data;
     timestamp := get_or "MessageTimestamp" "" message_data;
     message_sid := get_or "MessageSid" "" message_data |}.

(** The [to=] of [send_text_message] (line 29). *)
Definition address (to_number : string) : string := "whatsapp:" ++ to_number.

(** ** [user_message_locks] *)

(** An [asyncio.Lock], by its [locked()] flag. *)
Definition lock : Type := bool.

Inductive admission : Type :=
| Busy       (* line 118: the busy reply, nothing else *)
| Entered    (* the lock was free and is now held *)
| Queued.    (* [acquire] found the lock held and waits *)

(** [lock.acquire()]: a free lock is taken at once, without yielding. *)
Definition acquire (phone_number : string) (locks : dict lock)
  : admission * dict lock :=
  match get phone_number locks with
  | Some false => (Entered, set phone_number true locks)
  | _ => (Queued, locks)
  end.

(** Lines 112-125, which no [await] of a free lock interrupts: the busy
    test, the creation of the lock, its acquisition. *)
Definition enter (phone_number : string) (user_message_locks : dict lock)
  : admission * dict lock :=
  if has_key phone_number user_message_locks
     && get_or phone_number false user_message_locks
  then (Busy, user_message_locks)
  else
    let user_message_locks :=
      if negb (has_key phone_number user_message_locks)
      then set phone_number false user_message_locks
      else user_message_locks in
    acquire phone_number user_message_locks.

(** Leaving the [async with] block, by [return] or by the exception of
    line 181: the lock is released. *)
Definition leave (phone_number : string) (user_message_locks : dict lock)
  : dict lock :=
  set phone_number false user_message_locks.

(** What the event loop interleaves: a request reaching line 112, and a
    turn leaving its [async with] block. *)
Inductive event : Type :=
| Arrives (phone_number : string)
| Finishes (phone_number : string).

(** The locks, the users whose turn is inside the block, and those whose
    request waits for the lock. *)
Record state : Type := State {
  locks : dict lock;
  in_flight : list string;
  waiting : list string
}.

Definition start : state := State [] [] [].

Fixpoint remove_one_of (p : string) (l : list string) : list string :=
  match l with
  | [] => []
  | x :: r => if String.eqb p x then r else x :: remove_one_of p r
  end.

(** One event; [None] when no turn of that user is there to finish. *)
Definition step (st : state) (e : event) : option state :=
  match e with
  | Arrives p =>
      match enter p (locks st) with
      | (Busy, l) => Some (State l (in_flight st) (waiting st))
      | (Entered, l) => Some (State l (p :: in_flight st) (waiting st))
      | (Queued, l) => Some (State l (in_flight st) (p :: waiting st))
      end
  | Finishes p =>
      if mem p (in_flight st)
      then Some (State (leave p (locks st)) (remove_one_of p (in_flight st))
                   (waiting st))
      else None
  end.

Fixpoint run (st : state) (trace : list event) : option state :=
  match trace with
  | [] => Some st
  | e :: rest =>
      match step st e with
      | Some st' => run st' rest
      | None => None
      end
  end.

End Webhook.

(* ================================================================== *)
(** * Notions for the later theorems *)
(* ================================================================== *)

Module TurnNotions.
Import PyStr PyFloat PyExc Units Inventory Dispatch Spec Notions Conversation
  Webhook.

(** ** The numerals [_format_unit] writes *)

(** Nothing, or an exponent as [repr] writes it. *)
Definition exponent_part (x : string) : Prop :=
  x = ""
  \/ exists sg ds, x = "e" ++ sg ++ ds /\ (sg = "-" \/ sg = "+") /\ digits1 ds.

(** An optional minus, digits with an optional fraction, an optional
    exponent. *)
Definition plain_numeral (s : string) : Prop :=
  exists sg n x,
    s = sg ++ n ++ x /\ (sg = "" \/ sg = "-")
    /\ unsigned_decimal n /\ exponent_part x.

Definition written_numeral (s : string) : Prop :=
  plain_numeral s \/ s = "inf" \/ s = "-inf" \/ s = "nan".

(** Empty, or beginning with a space. *)
Definition spaced (r : string) : Prop :=
  r = "" \/ exists u, r = String " " u.

(** ** What a listing was asked for *)

(** The analysis asks for the group filed under [k]. *)
Definition wanted (norm : string -> string)
    (categories_of : string -> list string) (a : analysis) (k : string)
  : bool :=
  match a with
  | All => true
  | Specific items => mem k (map norm items)
  | Category categories =>
      existsb (fun cat => mem cat categories) (categories_of k)
  | Other => false
  end.

(** ** Replies, senders and the locks *)

(** The reply of a general turn, without the history. *)
Definition reply_of (m : result (string * list entry)) : result string :=
  out <- m ;; Ok (fst out).

Definition colon_free (s : string) : bool :=
  all_chars (fun c => negb (Ascii.eqb c ":")) s.

(** No request waits; at most one turn per user is inside the block; and
    a user's lock is held exactly while that turn is. *)
Definition serialized (st : state) : Prop :=
  waiting st = []
  /\ NoDup (in_flight st)
  /\ forall p, In p (in_flight st) <-> get p (locks st) = Some true.

End TurnNotions.

(* ================================================================== *)
(** * The two inventory branches on the values they receive

    [Inventory] above reads the branches on entries and items whose name
    and amount are texts.  Here the classification is the object
    [classify_message] returned, the user is the stored document, and
    both branches run under their outer [except Exception] (lines 712-717
    and 970-975). *)
(* ================================================================== *)

Module Branches.
Import PyStr PyFloat PyExc Units Classifier.

(** [j.get(key, default)]: a method of [dict] only. *)
Definition py_get (j : json) (key : string) (default : json) : result json :=
  match j with
  | JDict d => Ok (match get key d with Some v => v | None => default end)
  | _ => Raise (AttributeError "object has no attribute 'get'")
  end.

(** The code points of a text, each a text of its own. *)
Fixpoint characters (s : string) : list string :=
  match s with
  | "" => []
  | String c r =>
      match r with
      | "" => [String c ""]
      | String d _ =>
          if is_continuation d then
            match characters r with
            | w :: ws => String c w :: ws
            | [] => [String c ""]
            end
          else String c "" :: characters r
      end
  end.

(** [for x in j]: the values the loop visits. *)
Definition visited (j : json) : result (list json) :=
  match j with
  | JList l => Ok l
  | JDict d => Ok (map JStr (keys d))
  | JStr s => Ok (map JStr (characters s))
  | _ => Raise (TypeError "object is not iterable")
  end.

(** The receiver of [j.lower()] or [j.strip()]: only a [str] has them. *)
Definition str_method (method : string) (j : json) : result string :=
  match j with
  | JStr s => Ok s
  | _ => Raise (AttributeError ("object has no attribute '" ++ method ++ "'"))
  end.

(** [_parse_amount_unit(amount)]: line 521 calls [strip] on its argument
    before anything else. *)
Definition parse_amount (amount : json) : result (float * string) :=
  amount_str <- str_method "strip" amount ;;
  _parse_amount_unit amount_str.

(** [c[key] = v] *)
Definition assign (c : json) (key : string) (v : json) : result json :=
  match c with
  | JDict d => Ok (JDict (Inventory.set key v d))
  | _ => Raise (TypeError "object does not support item assignment")
  end.

(** [try: m  except ValueError: h]: any other exception goes on. *)
Definition except_ValueError {A : Type} (m h : result A) : result A :=
  match m with
  | Raise (ValueError _) => h
  | _ => m
  end.

(** A [for] loop whose body may raise: the state after the last value,
    or the first exception. *)
Fixpoint for_each {S A : Type} (body : S -> A -> result S) (l : list A)
    (st : S) : result S :=
  match l with
  | [] => Ok st
  | x :: rest => st' <- body st x ;; for_each body rest st'
  end.

(** What one call of a branch leaves behind: the two entries of the
    returned dict, the list [update_one] stored (if the call was made and
    returned), and the records the reply was built from. *)
Record turn : Type := Turn {
  t_response : string;
  t_history : json;
  t_written : option (list json);
  t_reports : list json
}.

(** The state of the addition loop (lines 845-853). *)
Record additions : Type := Additions {
  current_items : dict json;
  updated_items : list json;
  any_errors : bool
}.

Section Branch.

(** [normalize_item_name] on a [str]: the completion's answer or, when
    the call fails, the lower-cased name (line 588); it always returns. *)
Variable normalize_text : string -> string.
(** The completion's answer for a name that is not a [str]; [None] when
    the call fails, and [item_name.lower()] raises inside the handler. *)
Variable normalize_other : json -> option string.
(** [str(j)] for a value that is not a [str], as an f-string shows it. *)
Variable str_of : json -> string.
(** [get_collection("users")] and [update_one] of lines 684-693 and
    936-945, on the user id and the list; a call that raises has stored
    nothing. *)
Variable update_one : json -> list json -> result unit.

Definition normalize_name (item_name : json) : result string :=
  match item_name with
  | JStr s => Ok (normalize_text s)
  | _ =>
      match normalize_other item_name with
      | Some s => Ok s
      | None => Raise (AttributeError "object has no attribute 'lower'")
      end
  end.

(** [f"{j}"] *)
Definition shown (j : json) : string :=
  match j with JStr s => s | _ => str_of j end.

(** Lines 602 and 843. *)
Definition stored_ingredients (user : dict json) : result json :=
  py_get (Webhook.get_or "kitchen_inventory" (JDict []) user)
         "ingredients" (JList []).

(** Lines 606-607 and 847-848. *)
Definition index_entry (current_items : dict json) (item : json)
  : result (dict json) :=
  item_name <- subscript item "name" ;;
  normalized_name <- normalize_name item_name ;;
  Ok (Inventory.set normalized_name item current_items).

(** Lines 602-607 and 843-848: the mapping of normalized names to the
    stored entries. *)
Definition index_entries (user : dict json) : result (dict json) :=
  current_inventory <- stored_ingredients user ;;
  entries <- visited current_inventory ;;
  for_each index_entry entries [].

(** Lines 684-693 and 936-945. *)
Definition persist (user : dict json) (updated_inventory : list json)
  : result unit :=
  user_id <- subscript (JDict user) "user_id" ;;
  update_one user_id updated_inventory.

(** [user.get("conversation_history", [])] *)
Definition history_of (user : dict json) : json :=
  Webhook.get_or "conversation_history" (JList []) user.

(** ** The [remove_inventory] branch *)

(** The body of the inner [try] (lines 628-664).  Nothing is changed
    before the last statement that can raise, so the handler finds the
    state the iteration began with.  The [print] of line 632 is taken to
    succeed. *)
Definition remove_try (normalized_name : string) (current_item item : json)
    (current_items : dict json) (removed_items : list json)
  : result (dict json * list json) :=
  (* Parse current and remove amounts *)
  stored_amount <- subscript current_item "amount" ;;
  '(current_value, current_unit) <- parse_amount stored_amount ;;
  amount <- subscript item "amount" ;;
  '(remove_value, remove_unit) <- parse_amount amount ;;
  (* Try to convert units if they're different *)
  let converted :=
    if negb (String.eqb current_unit remove_unit)
    then _convert_unit remove_value remove_unit current_unit
    else Some remove_value in
  match converted with
  | None =>
      stored_name <- subscript current_item "name" ;;
      stored_amount <- subscript current_item "amount" ;;
      Ok (current_items,
          Inventory.push removed_items
            (JDict [("name", stored_name); ("amount", stored_amount);
                    ("error",
                     JStr ("Cannot convert between " ++ remove_unit
                             ++ " and " ++ current_unit))]))
  | Some remove_value =>
      if (remove_value <? current_value)%float then
        (* Update remaining amount *)
        let remaining := (current_value - remove_value)%float in
        current_item <-
          assign current_item "amount"
            (JStr (_format_unit remaining current_unit)) ;;
        stored_name <- subscript current_item "name" ;;
        Ok (Inventory.set normalized_name current_item current_items,
            Inventory.push removed_items
              (JDict [("name", stored_name);
                      ("amount",
                       JStr (_format_unit remove_value current_unit))]))
      else if (current_value =? remove_value)%float then
        (* Remove entire item *)
        Ok (Inventory.del normalized_name current_items,
            Inventory.push removed_items current_item)
      else
        (* Can't remove more than available *)
        stored_name <- subscript current_item "name" ;;
        stored_amount <- subscript current_item "amount" ;;
        Ok (current_items,
            Inventory.push removed_items
              (JDict [("name", stored_name); ("amount", stored_amount);
                      ("error",
                       JStr "Requested amount exceeds available amount")]))
  end.

(** The handler of line 665. *)
Definition remove_unparsed (normalized_name : string) (current_item : json)
    (current_items : dict json) (removed_items : list json)
  : result (dict json * list json) :=
  stored_name <- subscript current_item "name" ;;
  stored_amount <- subscript current_item "amount" ;;
  Ok (Inventory.del normalized_name current_items,
      Inventory.push removed_items
        (JDict [("name", stored_name); ("amount", stored_amount);
                ("error", JStr "Invalid amount format")])).

(** One iteration of the loop over [items_to_remove] (lines 613-678). *)
Definition remove_item (st : dict json * list json) (item : json)
  : result (dict json * list json) :=
  let (current_items, removed_items) := st in
  item_name <- subscript item "name" ;;
  normalized_name <- normalize_name item_name ;;
  match get normalized_name current_items with
  | Some current_item =>
      amount <- subscript item "amount" ;;
      amount_text <- str_method "lower" amount ;;
      if String.eqb (lower amount_text) "all" then
        (* Remove entire item *)
        stored_name <- subscript current_item "name" ;;
        stored_amount <- subscript current_item "amount" ;;
        Ok (Inventory.del normalized_name current_items,
            Inventory.push removed_items
              (JDict [("name", stored_name); ("amount", stored_amount)]))
      else
        except_ValueError
          (remove_try normalized_name current_item item
             current_items removed_items)
          (remove_unparsed normalized_name current_item
             current_items removed_items)
  | None =>
      item_name <- subscript item "name" ;;
      Ok (current_items,
          Inventory.push removed_items
            (JDict [("name", item_name);
                    ("error", JStr "Item not found in inventory")]))
  end.

(** Lines 601-678: the mapping and the records when the loop is done. *)
Definition remove_run (classification : json) (user : dict json)
  : result (dict json * list json) :=
  current_items <- index_entries user ;;
  (* Process items to remove *)
  items_to_remove <- py_get classification "items" (JList []) ;;
  items <- visited items_to_remove ;;
  for_each remove_item items (current_items, []).

(** Lines 699-703. *)
Definition removed_entry_line (item : json) : result string :=
  with_error <- py_in "error" item ;;
  if with_error then
    item_name <- subscript item "name" ;;
    error <- subscript item "error" ;;
    Ok (Msg.bullet ++ shown item_name ++ Msg.dash ++ shown error ++ nl)
  else
    item_name <- subscript item "name" ;;
    amount <- subscript item "amount" ;;
    Ok (Msg.bullet ++ shown item_name ++ Msg.open_paren ++ shown amount
          ++ Msg.close_paren).

(** [response += line] for every record, in order. *)
Fixpoint lines_of (line : json -> result string) (records : list json)
  : result string :=
  match records with
  | [] => Ok ""
  | item :: rest =>
      first <- line item ;;
      others <- lines_of line rest ;;
      Ok (first ++ others)
  end.

(** Lines 696-706. *)
Definition removed_reply (removed_items : list json) (remaining : nat)
  : result string :=
  match removed_items with
  | [] => Ok Msg.no_items_removed
  | _ =>
      body <- lines_of removed_entry_line removed_items ;;
      Ok (Msg.remove_header ++ Msg.removed_items_heading ++ body
            ++ Msg.remaining_items ++ str_of_nat remaining)
  end.

(** The handler of an outer [except Exception]: the fixed reply. *)
Definition gave_up (text : string) (user : dict json)
    (stored : option (list json)) : turn :=
  {| t_response := text;
     t_history := history_of user;
     t_written := stored;
     t_reports := [] |}.

(** The [remove_inventory] branch (lines 599-717). *)
Definition remove_branch (classification : json) (user : dict json) : turn :=
  match remove_run classification user with
  | Raise _ => gave_up Msg.remove_failed user None
  | Ok (current_items, removed_items) =>
      (* Convert back to list *)
      let updated_inventory := values current_items in
      (* Update user's inventory in database *)
      match persist user updated_inventory with
      | Raise _ => gave_up Msg.remove_failed user None
      | Ok _ =>
          (* Format response *)
          match removed_reply removed_items
                  (List.length updated_inventory) with
          | Raise _ =>
              gave_up Msg.remove_failed user (Some updated_inventory)
          | Ok response =>
              {| t_response := response;
                 t_history := history_of user;
                 t_written := Some updated_inventory;
                 t_reports := removed_items |}
          end
      end
  end.

(** ** The [update_inventory] branch *)

(** [updated_items.append(record); has_errors = True; continue] *)
Definition fail_with (st : additions) (record : json) : additions :=
  {| current_items := current_items st;
     updated_items := Inventory.push (updated_items st) record;
     any_errors := true |}.

(** The body of the inner [try] (lines 859-920).  Here too nothing is
    changed before the last statement that can raise. *)
Definition update_try (normalized_name : string) (new_item : json)
    (st : additions) : result additions :=
  (* Parse the new amount *)
  amount <- subscript new_item "amount" ;;
  '(new_value, new_unit) <- parse_amount amount ;;
  (* Validate unit *)
  let (is_valid, unit_message) := _validate_unit new_unit in
  if negb is_valid then
    item_name <- subscript new_item "name" ;;
    amount <- subscript new_item "amount" ;;
    Ok (fail_with st
          (JDict [("name", item_name); ("amount", amount);
                  ("error", JStr unit_message)]))
  else
    match get normalized_name (current_items st) with
    | Some current_item =>
        (* Parse current amount *)
        stored_amount <- subscript current_item "amount" ;;
        '(current_value, current_unit) <- parse_amount stored_amount ;;
        (* Validate current unit *)
        let (is_valid, unit_message) := _validate_unit current_unit in
        if negb is_valid then
          item_name <- subscript new_item "name" ;;
          stored_amount <- subscript current_item "amount" ;;
          Ok (fail_with st
                (JDict [("name", item_name); ("amount", stored_amount);
                        ("error",
                         JStr ("Current amount has " ++ unit_message))]))
        else
          (* Try to convert units if they're different *)
          let converted :=
            if negb (String.eqb current_unit new_unit)
            then
              match _convert_unit new_value new_unit current_unit with
              | Some converted_value => Some (converted_value, current_unit)
              | None => None
              end
            else Some (new_value, new_unit) in
          match converted with
          | None =>
              item_name <- subscript new_item "name" ;;
              amount <- subscript new_item "amount" ;;
              Ok (fail_with st
                    (JDict [("name", item_name); ("amount", amount);
                            ("error",
                             JStr ("Cannot convert between " ++ new_unit
                                     ++ " and " ++ current_unit))]))
          | Some (new_value, new_unit) =>
              (* Add the amounts *)
              let total_value := (current_value + new_value)%float in
              current_item <-
                assign current_item "amount"
                  (JStr (_format_unit total_value current_unit)) ;;
              item_name <- subscript new_item "name" ;;
              Ok {| current_items :=
                      Inventory.set normalized_name current_item
                        (current_items st);
                    updated_items :=
                      Inventory.push (updated_items st)
                        (JDict [("name", item_name);
                                ("amount",
                                 JStr (_format_unit total_value current_unit));
                                ("added",
                                 JStr (_format_unit new_value new_unit))]);
                    any_errors := any_errors st |}
          end
    | None =>
        (* Add new item *)
        item_name <- subscript new_item "name" ;;
        Ok {| current_items :=
                Inventory.set normalized_name
                  (JDict [("name", item_name);
                          ("amount", JStr (_format_unit new_value new_unit))])
                  (current_items st);
              updated_items :=
                Inventory.push (updated_items st)
                  (JDict [("name", item_name);
                          ("amount", JStr (_format_unit new_value new_unit));
                          ("added", JStr (_format_unit new_value new_unit))]);
              any_errors := any_errors st |}
    end.

(** The handler of line 921. *)
Definition update_unparsed (new_item : json) (st : additions)
  : result additions :=
  item_name <- subscript new_item "name" ;;
  amount <- subscript new_item "amount" ;;
  Ok (fail_with st
        (JDict [("name", item_name); ("amount", amount);
                ("error", JStr "Invalid amount format")])).

(** One iteration of the loop over [new_items] (lines 856-928). *)
Definition update_item (st : additions) (new_item : json)
  : result additions :=
  item_name <- subscript new_item "name" ;;
  normalized_name <- normalize_name item_name ;;
  except_ValueError (update_try normalized_name new_item st)
                    (update_unparsed new_item st).

(** Lines 842-928: the state when the loop is done. *)
Definition update_run (classification : json) (user : dict json)
  : result additions :=
  current_items <- index_entries user ;;
  (* Process new items *)
  new_items <- py_get classification "items" (JList []) ;;
  items <- visited new_items ;;
  for_each update_item items (Additions current_items [] false).

(** Lines 955-959. *)
Definition updated_entry_line (item : json) : result string :=
  with_error <- py_in "error" item ;;
  if with_error then
    item_name <- subscript item "name" ;;
    amount <- subscript item "amount" ;;
    error <- subscript item "error" ;;
    Ok (Msg.bullet ++ shown item_name ++ Msg.open_paren ++ shown amount
          ++ Msg.close_paren_dash ++ shown error ++ nl)
  else
    item_name <- subscript item "name" ;;
    amount <- subscript item "amount" ;;
    added <- subscript item "added" ;;
    Ok (Msg.bullet ++ shown item_name ++ Msg.open_paren ++ shown amount
          ++ Msg.close_paren_plus ++ shown added ++ Msg.close_bracket).

(** Lines 947-964. *)
Definition updated_reply (st : additions) : result string :=
  match updated_items st with
  | [] => Ok Msg.no_items_added
  | _ =>
      body <- lines_of updated_entry_line (updated_items st) ;;
      Ok ((if any_errors st then Msg.update_warning else Msg.update_header)
            ++ Msg.items_heading ++ body
            ++ (if any_errors st then ""
                else Msg.total_in_inventory
                       ++ str_of_nat (List.length (current_items st))))
  end.

(** The [update_inventory] branch (lines 840-975). *)
Definition update_branch (classification : json) (user : dict json) : turn :=
  match update_run classification user with
  | Raise _ => gave_up Msg.update_failed user None
  | Ok st =>
      (* Only update database if there are no errors *)
      let updated_inventory := values (current_items st) in
      match (if any_errors st then Ok tt
             else persist user updated_inventory) with
      | Raise _ => gave_up Msg.update_failed user None
      | Ok _ =>
          let stored :=
            if any_errors st then None else Some updated_inventory in
          (* Format response *)
          match updated_reply st with
          | Raise _ => gave_up Msg.update_failed user stored
          | Ok response =>
              {| t_response := response;
                 t_history := history_of user;
                 t_written := stored;
                 t_reports := updated_items st |}
          end
      end
  end.

(** Line 597 and the tests of lines 599, 719 and 840: the branch an
    inventory action takes; [None] for the actions handled elsewhere. *)
Definition inventory_turn (classification : json) (user : dict json)
  : result (option turn) :=
  action <- subscript classification "action" ;;
  if is_str "remove_inventory" action then
    Ok (Some (remove_branch classification user))
  else if is_str "get_inventory" action then Ok None
  else if is_str "update_inventory" action then
    Ok (Some (update_branch classification user))
  else Ok None.

End Branch.

(** ** Entries and items made of texts *)

Definition of_item (it : Inventory.item) : json :=
  JDict [("name", JStr (Inventory.name it));
         ("amount", JStr (Inventory.amount it))].

Definition optional (key : string) (v : option string)
  : list (string * json) :=
  match v with Some s => [(key, JStr s)] | None => [] end.

(** The record of a report: the keys it has, in the order the branches
    write them. *)
Definition of_report (r : Inventory.report) : json :=
  JDict (("name", JStr (Inventory.r_name r))
           :: optional "amount" (Inventory.r_amount r)
           ++ optional "added" (Inventory.r_added r)
           ++ optional "error" (Inventory.r_error r))%list.

(** The mapping, the loop state and the outcome of [Inventory], as the
    values the branches handle. *)
Definition of_items (d : dict Inventory.item) : dict json :=
  map (fun kv => (fst kv, of_item (snd kv))) d.

Definition of_state (st : Inventory.update_state) : additions :=
  {| current_items := of_items (Inventory.u_items st);
     updated_items := map of_report (Inventory.u_reports st);
     any_errors := Inventory.has_errors st |}.

Definition of_outcome (history : json) (o : Inventory.outcome) : turn :=
  {| t_response := Inventory.response o;
     t_history := history;
     t_written := option_map (map of_item) (Inventory.written o);
     t_reports := map of_report (Inventory.reports o) |}.

(** A record the removal reply can show: an error, or an amount. *)
Definition removal_record (r : Inventory.report) : bool :=
  match Inventory.r_error r, Inventory.r_amount r with
  | None, None => false
  | _, _ => true
  end.

(** A record the addition reply can show: an amount with an error, or
    with what was added. *)
Definition addition_record (r : Inventory.report) : bool :=
  match Inventory.r_amount r with
  | Some _ =>
      match Inventory.r_error r, Inventory.r_added r with
      | None, None => false
      | _, _ => true
      end
  | None => false
  end.

(** A dict with a name. *)
Definition named (j : json) : bool :=
  match j with JDict d => has_key "name" d | _ => false end.

(** A dict the removal reply can show: a name with an error or an
    amount. *)
Definition removal_shown (j : json) : bool :=
  match j with
  | JDict d => has_key "name" d && (has_key "error" d || has_key "amount" d)
  | _ => false
  end.

(** A dict the addition reply can show: a name and an amount, with an
    error or with what was added. *)
Definition addition_shown (j : json) : bool :=
  match j with
  | JDict d =>
      has_key "name" d && has_key "amount" d
      && (has_key "error" d || has_key "added" d)
  | _ => false
  end.

(** A record that refuses the request: an error other than the one of
    the amount-parsing handler (line 671). *)
Definition refusal_shown (j : json) : bool :=
  match subscript j "error" with
  | Ok (JStr error) => negb (String.eqb error "Invalid amount format")
  | _ => false
  end.

(** The entries the index loop visits (lines 602 and 605). *)
Definition stored_entries (user : dict json) : result (list json) :=
  match py_get (Webhook.get_or "kitchen_inventory" (JDict []) user)
          "ingredients" (JList []) with
  | Ok current_inventory => visited current_inventory
  | Raise e => Raise e
  end.

(** A user document: an id, the stored ingredients, and whatever else the
    document holds under other keys. *)
Definition document (user_id : json) (ingredients : json)
    (others : dict json) : dict json :=
  (("user_id", user_id)
     :: ("kitchen_inventory", JDict [("ingredients", ingredients)])
     :: others)%list.

(** A classification with its items. *)
Definition request_for (action : string) (items : list json) : json :=
  JDict [("action", JStr action); ("items", JList items)].

(** A store that answers every call. *)
Definition answering (update_one : json -> list json -> result unit) : Prop :=
  forall user_id l, update_one user_id l = Ok tt.

(** The call was given up: the fixed reply, no record, nothing stored. *)
Definition given_up (text : string) (t : turn) : Prop :=
  t_response t = text /\ t_written t = None /\ t_reports t = [].

(** ** A kitchen for the worked examples *)

Definition pantry : list Inventory.item :=
  [Inventory.Item "rice" "1 kg"; Inventory.Item "Egg" "6";
   Inventory.Item "milk" "2 l"].

Definition pantry_user : dict json :=
  document (JStr "USER_20240101123456_7890") (JList (map of_item pantry)) [].

(** The store answers; no completion answers for a name that is not a
    text; nothing but texts is shown. *)
Definition store_answers : json -> list json -> result unit :=
  fun _ _ => Ok tt.
Definition no_answer : json -> option string := fun _ => None.
Definition not_shown : json -> string := fun _ => "".

(** All of the rice, and two eggs with the amount as a number. *)
Definition spoiled_request : json :=
  request_for "remove_inventory"
    [of_item (Inventory.Item "rice" "all");
     JDict [("name", JStr "egg"); ("amount", JInt 2)]].

End Branches.

(* ================================================================== *)
(** * The reconciler in the words of the specification

    Sections 3, 4.3 and 7: a snapshot of the inventory in, a fresh
    mapping and one outcome per item out, with no exception and no flag.
    The theorems compare the branches with it. *)
(* ================================================================== *)

Module Policy.
Import PyStr PyFloat PyExc Units Inventory.

Inductive mode : Type := Add | Remove.

(** The ways an item can fail (section 7). *)
Inductive failure : Type :=
| UnknownUnit
| IncompatibleUnits
| InvalidAmountFormat
| ItemNotFound
| OverRemoval.

(** The outcome of one item: applied, with the amount the entry is left
    with ([None] when the entry is gone) and the amount added or taken;
    or failed, with the amount and the message shown to the user. *)
Inductive verdict : Type :=
| Applied (finalAmount : option string) (delta : string)
| Failed (reason : failure) (amount : option string) (message : string).

Definition applied (v : verdict) : bool :=
  match v with Applied _ _ => true | Failed _ _ _ => false end.

(** [parseAmount] *)
Definition parseAmount (text : string) : option (float * string) :=
  match _parse_amount_unit text with
  | Ok quantity => Some quantity
  | Raise _ => None
  end.

(** [validate] accepts the unit. *)
Definition known (unit : string) : bool := fst (_validate_unit unit).

(** A value of [fromUnit] read in [toUnit]: as it is when the two unit
    texts are the same, converted otherwise. *)
Definition convert (value : float) (fromUnit toUnit : string)
  : option float :=
  if String.eqb fromUnit toUnit then Some value
  else _convert_unit value fromUnit toUnit.

(** Add mode: the amount of the delta item against the amount stored
    under its key, if any. *)
Definition add_verdict (stored : option string) (amount : string) : verdict :=
  match parseAmount amount with
  | None => Failed InvalidAmountFormat (Some amount) "Invalid amount format"
  | Some (value, unit) =>
      if negb (known unit) then
        Failed UnknownUnit (Some amount) (snd (_validate_unit unit))
      else
        match stored with
        | None =>
            Applied (Some (_format_unit value unit)) (_format_unit value unit)
        | Some current =>
            match parseAmount current with
            | None =>
                Failed InvalidAmountFormat (Some amount)
                  "Invalid amount format"
            | Some (stock, stock_unit) =>
                if negb (known stock_unit) then
                  Failed UnknownUnit (Some current)
                    ("Current amount has "
                       ++ snd (_validate_unit stock_unit))
                else
                  match convert value unit stock_unit with
                  | None =>
                      Failed IncompatibleUnits (Some amount)
                        ("Cannot convert between " ++ unit ++ " and "
                           ++ stock_unit)
                  | Some delta =>
                      Applied
                        (Some (_format_unit (stock + delta) stock_unit))
                        (_format_unit delta stock_unit)
                  end
            end
        end
  end.

(** Remove mode. *)
Definition remove_verdict (stored : option string) (amount : string)
  : verdict :=
  match stored with
  | None => Failed ItemNotFound None "Item not found in inventory"
  | Some current =>
      if String.eqb (lower amount) "all" then Applied None current
      else
        match parseAmount current, parseAmount amount with
        | Some (stock, stock_unit), Some (requested, unit) =>
            match convert requested unit stock_unit with
            | None =>
                Failed IncompatibleUnits (Some current)
                  ("Cannot convert between " ++ unit ++ " and "
                     ++ stock_unit)
            | Some requested =>
                if (requested <? stock)%float then
                  Applied
                    (Some (_format_unit (stock - requested) stock_unit))
                    (_format_unit requested stock_unit)
                else if (stock =? requested)%float then Applied None current
                else
                  Failed OverRemoval (Some current)
                    "Requested amount exceeds available amount"
            end
        | _, _ =>
            Failed InvalidAmountFormat (Some current) "Invalid amount format"
        end
  end.

Definition verdict_of (m : mode) : option string -> string -> verdict :=
  match m with Add => add_verdict | Remove => remove_verdict end.

(** The entry a verdict leaves under the key: an applied item leaves the
    final amount under the stored name (the name of the item when the key
    is new) or nothing; a failed item leaves what was there, except that
    Remove drops an entry when an amount cannot be read. *)
Definition entry_after (m : mode) (item_name : string) (stored : option item)
    (v : verdict) : option item :=
  match v with
  | Applied (Some final) _ =>
      Some (Item (match stored with
                  | Some current => name current
                  | None => item_name
                  end) final)
  | Applied None _ => None
  | Failed InvalidAmountFormat _ _ =>
      match m with Add => stored | Remove => None end
  | Failed _ _ _ => stored
  end.

(** The record of a verdict: under the name of the item in Add mode,
    under the stored name in Remove mode when there is one. *)
Definition record_of (m : mode) (item_name : string) (stored : option item)
    (v : verdict) : report :=
  let shown_name :=
    match m, stored with
    | Remove, Some current => name current
    | _, _ => item_name
    end in
  match v with
  | Applied final delta =>
      match m with
      | Add => Report shown_name final (Some delta) None
      | Remove => Report shown_name (Some delta) None None
      end
  | Failed _ amount message => Report shown_name amount None (Some message)
  end.

(** [d] with the entry under [k] replaced by [e]. *)
Definition put (k : string) (e : option item) (d : dict item) : dict item :=
  match e with
  | Some it => set k it d
  | None => del k d
  end.

(** One item of the batch: its verdict, its record, the mapping after. *)
Definition reconcile_item (m : mode) (normalize : string -> string)
    (st : dict item * list (verdict * report)) (it : item)
  : dict item * list (verdict * report) :=
  let (current, outcomes) := st in
  let key := normalize (name it) in
  let stored := get key current in
  let v := verdict_of m (option_map amount stored) (amount it) in
  (put key (entry_after m (name it) stored v) current,
   (outcomes ++ [(v, record_of m (name it) stored v)])%list).

(** [reconcile]: the batch against the mapping built from the stored
    list, item after item. *)
Definition reconcile (m : mode) (normalize : string -> string)
    (currentInventory deltaItems : list item)
  : dict item * list (verdict * report) :=
  fold_left (reconcile_item m normalize) deltaItems
            (index_inventory normalize currentInventory, []).

Definition verdicts (outcomes : list (verdict * report)) : list verdict :=
  map fst outcomes.
Definition records (outcomes : list (verdict * report)) : list report :=
  map snd outcomes.

(** The list handed to the store: in Add mode only when every item was
    applied, in Remove mode whatever the verdicts. *)
Definition committed (m : mode) (normalize : string -> string)
    (currentInventory deltaItems : list item) : option (list item) :=
  let (newInventory, outcomes) :=
    reconcile m normalize currentInventory deltaItems in
  match m with
  | Add =>
      if forallb applied (verdicts outcomes)
      then Some (values newInventory) else None
  | Remove => Some (values newInventory)
  end.

End Policy.

(* ================================================================== *)
(** * Facts about binary64 comparison and subtraction *)
(* ================================================================== *)

Module FloatFacts.
Import Notions.
Local Open Scope Z_scope.

Lemma SFcompare_antisym (x y : spec_float) (c : comparison) :
  SFcompare x y = Some c -> SFcompare y x = Some (CompOpp c).
Proof.
  destruct x as [sx | sx | | sx mx ex], y as [sy | sy | | sy my ey];
    simpl; try discriminate; intros H; injection H as <-;
    try (destruct sx; reflexivity); try (destruct sy; reflexivity);
    try (destruct sx, sy; reflexivity).
  destruct sx, sy; try reflexivity;
    rewrite (Z.compare_antisym ex ey);
    destruct (ex ?= ey) eqn:E; simpl; try reflexivity;
    rewrite ?Pos.compare_cont_antisym; simpl;
    rewrite ?CompOpp_involutive; reflexivity.
Qed.

(** [x < y] excludes [y < x] and [x == y]. *)
Lemma ltb_asym (x y : float) :
  (x <? y)%float = true -> (y <? x)%float = false /\ (x =? y)%float = false /\ (y =? x)%float = false.
Proof.
  rewrite !ltb_spec, !eqb_spec. unfold SFltb, SFeqb.
  destruct (SFcompare (Prim2SF x) (Prim2SF y)) as [c |] eqn:E; try discriminate.
  rewrite (SFcompare_antisym _ _ _ E).
  destruct c; simpl; try discriminate. auto.
Qed.

Lemma eqb_not_ltb (x y : float) :
  (x =? y)%float = true -> (y <? x)%float = false /\ (x <? y)%float = false.
Proof.
  rewrite !ltb_spec, !eqb_spec. unfold SFltb, SFeqb.
  destruct (SFcompare (Prim2SF x) (Prim2SF y)) as [c |] eqn:E; try discriminate.
  rewrite (SFcompare_antisym _ _ _ E).
  destruct c; simpl; try discriminate. auto.
Qed.

(** Shifting right keeps a mantissa non-negative. *)
Lemma shr_1_nonneg mrs : 0 <= shr_m mrs -> 0 <= shr_m (shr_1 mrs).
Proof.
  destruct mrs as [m r s]; simpl. destruct m as [| p | p]; simpl; try lia;
    destruct p; simpl; lia.
Qed.

Lemma iter_shr_1_nonneg p : forall mrs,
  0 <= shr_m mrs -> 0 <= shr_m (iter_pos shr_1 p mrs).
Proof.
  induction p as [p IH | p IH |]; intros mrs H; simpl.
  - apply IH, IH, shr_1_nonneg, H.
  - apply IH, IH, H.
  - apply shr_1_nonneg, H.
Qed.

Lemma shr_fexp_nonneg m e l :
  0 <= m -> 0 <= shr_m (fst (shr_fexp prec emax m e l)).
Proof.
  intros H. unfold shr_fexp, shr.
  assert (H0 : 0 <= shr_m (shr_record_of_loc m l))
    by (destruct l as [| []]; simpl; exact H).
  destruct (fexp prec emax (Zdigits2 m + e) - e); simpl; auto.
  apply iter_shr_1_nonneg, H0.
Qed.

Lemma binary_round_aux_nonneg m e l :
  0 <= m -> nonneg (binary_round_aux prec emax false m e l).
Proof.
  intros H. unfold binary_round_aux.
  pose proof (shr_fexp_nonneg m e l H) as H1.
  destruct (shr_fexp prec emax m e l) as [mrs' e'] eqn:E1. simpl in H1.
  set (m' := round_nearest_even (shr_m mrs') (loc_of_shr_record mrs')).
  assert (H2 : 0 <= m').
  { unfold m', round_nearest_even.
    destruct (loc_of_shr_record mrs') as [| []]; try lia.
    destruct (Z.even (shr_m mrs')); lia. }
  pose proof (shr_fexp_nonneg m' e' loc_Exact H2) as H3.
  destruct (shr_fexp prec emax m' e' loc_Exact) as [mrs'' e''] eqn:E2.
  simpl in H3. destruct (shr_m mrs'') as [| p | p]; try lia.
  - reflexivity.
  - destruct (e'' <=? emax - prec); reflexivity.
Qed.

Lemma binary_normalize_nonneg m e :
  0 <= m -> nonneg (binary_normalize prec emax m e false).
Proof.
  intros H. destruct m as [| p | p]; try lia; simpl.
  - reflexivity.
  - unfold binary_round.
    destruct (shl_align p e (fexp prec emax (Z.pos (digits2_pos p) + e))) as [mz ez].
    apply binary_round_aux_nonneg. lia.
Qed.

Lemma shl_align_value m e e' :
  e' <= e -> Z.pos (fst (shl_align m e e')) = Z.pos m * 2 ^ (e - e').
Proof.
  intros H. unfold shl_align.
  destruct (e' - e) as [| d | d] eqn:E; cbn [fst].
  - replace (e - e') with 0 by lia. rewrite Z.pow_0_r. lia.
  - lia.
  - replace (e - e') with (Z.pos d) by lia.
    rewrite Pos.iter_swap_gen with (h := fun z => 2 * z) (f := Z.pos) by reflexivity.
    clear. induction d using Pos.peano_ind.
    + cbn [Pos.iter]. lia.
    + rewrite Pos.iter_succ, Pos2Z.inj_succ, Z.pow_succ_r by lia.
      rewrite IHd. lia.
Qed.

Lemma digits2_pos_bounds m :
  2 ^ (Z.pos (digits2_pos m) - 1) <= Z.pos m < 2 ^ Z.pos (digits2_pos m).
Proof.
  induction m as [m IH | m IH |]; simpl digits2_pos.
  - rewrite Pos2Z.inj_succ.
    replace (Z.succ (Z.pos (digits2_pos m)) - 1) with (Z.succ (Z.pos (digits2_pos m) - 1)) by lia.
    rewrite !Z.pow_succ_r by lia. lia.
  - rewrite Pos2Z.inj_succ.
    replace (Z.succ (Z.pos (digits2_pos m)) - 1) with (Z.succ (Z.pos (digits2_pos m) - 1)) by lia.
    rewrite !Z.pow_succ_r by lia. lia.
  - simpl. lia.
Qed.

(** Two canonical mantissas: the larger exponent carries the larger value. *)
Lemma canonical_lt m1 e1 m2 e2 :
  bounded prec emax m1 e1 = true -> bounded prec emax m2 e2 = true ->
  e1 < e2 -> Z.pos m1 < Z.pos m2 * 2 ^ (e2 - e1).
Proof.
  unfold bounded, canonical_mantissa, fexp, SpecFloat.emin.
  intros H1 H2 Hlt.
  apply andb_prop in H1 as [H1 _]. apply andb_prop in H2 as [H2 _].
  apply Z.eqb_eq in H1. apply Z.eqb_eq in H2.
  pose proof (digits2_pos_bounds m1) as B1.
  pose proof (digits2_pos_bounds m2) as B2.
  assert (D2 : Z.pos (digits2_pos m2) = prec) by lia.
  assert (D1 : Z.pos (digits2_pos m1) <= prec) by lia.
  rewrite D2 in B2.
  assert (Z.pos m1 < 2 ^ prec).
  { eapply Z.lt_le_trans; [apply B1 |]. apply Z.pow_le_mono_r; lia. }
  assert (2 ^ 1 <= 2 ^ (e2 - e1)) by (apply Z.pow_le_mono_r; lia).
  assert (2 ^ prec = 2 ^ (prec - 1) * 2 ^ 1).
  { rewrite <- Z.pow_add_r by (unfold prec; lia). f_equal; lia. }
  nia.
Qed.

Lemma SFsub_nonneg (x y : spec_float) :
  valid_binary x = true -> valid_binary y = true ->
  SFltb y x = true -> nonneg (SFsub prec emax x y).
Proof.
  intros Vx Vy. unfold SFltb.
  destruct x as [sx | sx | | sx mx ex], y as [sy | sy | | sy my ey];
    cbn [SFcompare SFsub]; try discriminate;
    try (destruct sx; try discriminate; try destruct sy; try discriminate;
         intros _; reflexivity);
    try (destruct sy; try discriminate; intros _; reflexivity).
  cbn [valid_binary] in Vx, Vy.
  intros H. apply binary_normalize_nonneg.
  rewrite !shl_align_value by lia.
  destruct sy, sx; cbn [cond_Zopp]; cbn in H; try discriminate.
  - (* both negative *)
    destruct (ey ?= ex) eqn:E; try discriminate.
    + apply Z.compare_eq in E. subst ey.
      rewrite Z.min_id, Z.sub_diag, Z.pow_0_r.
      destruct (Pos.compare_cont Eq my mx) eqn:C; try discriminate.
      assert (Z.pos mx < Z.pos my) by (apply Pos.compare_gt_iff; exact C). lia.
    + assert (E' : ex < ey) by (apply Z.compare_gt_iff; exact E).
      pose proof (canonical_lt mx ex my ey Vx Vy E').
      rewrite Z.min_l by lia. rewrite Z.sub_diag, Z.pow_0_r. lia.
  - (* y negative, x positive *)
    assert (0 <= 2 ^ (ex - Z.min ex ey)) by (apply Z.pow_nonneg; lia).
    assert (0 <= 2 ^ (ey - Z.min ex ey)) by (apply Z.pow_nonneg; lia).
    nia.
  - (* both positive *)
    destruct (ey ?= ex) eqn:E; try discriminate.
    + apply Z.compare_eq in E. subst ey.
      rewrite Z.min_id, Z.sub_diag, Z.pow_0_r.
      destruct (Pos.compare_cont Eq my mx) eqn:C; try discriminate.
      assert (Z.pos my < Z.pos mx) by (apply Pos.compare_lt_iff; exact C). lia.
    + assert (E' : ey < ex) by (apply Z.compare_lt_iff; exact E).
      pose proof (canonical_lt my ey mx ex Vy Vx E').
      rewrite Z.min_r by lia. rewrite Z.sub_diag, Z.pow_0_r. lia.
Qed.

(** A float strictly below another: their difference is not negative. *)
Lemma sub_nonneg (x y : float) :
  (y <? x)%float = true -> (0 <=? x - y)%float = true.
Proof.
  rewrite ltb_spec, leb_spec, sub_spec. intros H.
  apply (SFsub_nonneg _ _ (Prim2SF_valid x) (Prim2SF_valid y) H).
Qed.

End FloatFacts.

(* ================================================================== *)
(** * Facts about strings *)
(* ================================================================== *)

Module StrFacts.
Import PyStr Spec Notions.

Lemma append_nil_r (s : string) : s ++ "" = s.
Proof. induction s; simpl; congruence. Qed.

Lemma append_assoc (a b c : string) : (a ++ b) ++ c = a ++ b ++ c.
Proof. induction a; simpl; congruence. Qed.

Lemma len_app (a b : string) : len (a ++ b) = len a + len b.
Proof.
  induction a as [| c a IH]; simpl; [reflexivity |].
  destruct (is_continuation c); simpl; rewrite IH; reflexivity.
Qed.

Lemma len_slice_to (n : nat) (s : string) : len (slice_to n s) <= n.
Proof.
  revert n. induction s as [| c s IH]; intros n; simpl; [lia |].
  destruct (is_continuation c) eqn:E; simpl.
  - rewrite E. apply IH.
  - destruct n; simpl; [lia |]. rewrite E. specialize (IH n). lia.
Qed.

(** ** [prefix] and [contains] *)

Lemma prefix_iff (x y : string) :
  prefix x y = true <-> exists q, y = x ++ q.
Proof.
  revert y. induction x as [| c x IH]; intros y; simpl.
  - split; [intros _; exists y; reflexivity | intros _; destruct y; reflexivity].
  - destruct y as [| d y]; simpl.
    + split; [discriminate | intros [q H]; discriminate].
    + destruct (ascii_dec c d) as [-> | N].
      * rewrite IH. split; intros [q H]; exists q; congruence.
      * split; [discriminate | intros [q H]; congruence].
Qed.

Lemma contains_iff (x y : string) :
  contains x y = true <-> substring_of x y.
Proof.
  unfold substring_of. induction y as [| d y IH].
  - cbn [contains]. rewrite orb_false_r, prefix_iff. split.
    + intros [q H]. exists "", q. exact H.
    + intros [p [q H]]. destruct p; simpl in H; [exists q; exact H | discriminate].
  - cbn [contains]. rewrite orb_true_iff, prefix_iff, IH. split.
    + intros [[q H] | [p [q H]]].
      * exists "", q. exact H.
      * exists (String d p), q. simpl. congruence.
    + intros [p [q H]]. destruct p as [| c p]; simpl in H.
      * left. exists q. exact H.
      * right. exists p, q. congruence.
Qed.

(** ** [all_chars] *)

Lemma all_chars_app (p : ascii -> bool) (a b : string) :
  all_chars p (a ++ b) = all_chars p a && all_chars p b.
Proof.
  induction a as [| c a IH]; simpl; [reflexivity |].
  rewrite IH, andb_assoc. reflexivity.
Qed.

(** ** [rstrip_by] *)

Lemma last_char_cons (c : ascii) (s : string) :
  s <> "" -> last_char (String c s) = last_char s.
Proof. destruct s; [congruence | reflexivity]. Qed.

Lemma rstrip_by_spec (p : ascii -> bool) (s : string) :
  exists t, s = rstrip_by p s ++ t /\ all_chars p t = true
            /\ (forall c, last_char (rstrip_by p s) = Some c -> p c = false).
Proof.
  induction s as [| a s [t [E [A L]]]]; cbn [rstrip_by].
  - exists "". repeat split. discriminate.
  - destruct (rstrip_by p s) as [| b r] eqn:R.
    + destruct (p a) eqn:Pa.
      * exists (String a t). cbn [append all_chars]. rewrite Pa, A.
        split; [f_equal; exact E | split; [reflexivity | discriminate]].
      * exists t. split; [cbn [append]; f_equal; exact E |].
        split; [exact A |].
        intros c H. cbn in H. injection H as <-. exact Pa.
    + exists t. split; [cbn [append]; f_equal; exact E |].
      split; [exact A |].
      intros c H. apply L. rewrite last_char_cons in H by discriminate. exact H.
Qed.

Lemma rstrip_by_first (p : ascii -> bool) (c : ascii) (s : string) :
  p c = false -> first_char (rstrip_by p (String c s)) = Some c.
Proof.
  intros H. simpl. destruct (rstrip_by p s); [rewrite H |]; reflexivity.
Qed.

Lemma lstrip_first (s : string) (c : ascii) :
  first_char (lstrip s) = Some c -> is_space c = false.
Proof.
  induction s as [| a s IH]; simpl; [discriminate |].
  destruct (is_space a) eqn:E; [exact IH |].
  simpl. intros H. injection H as <-. exact E.
Qed.

(** A stripped string neither begins nor ends with white space. *)
Lemma strip_first (s : string) (c : ascii) :
  first_char (strip s) = Some c -> is_space c = false.
Proof.
  unfold strip. pose proof (lstrip_first s) as L.
  destruct (lstrip s) as [| a r]; simpl in *; [discriminate |].
  specialize (L a eq_refl).
  pose proof (rstrip_by_first is_space a r L) as F. simpl in F.
  intros H. congruence.
Qed.

Lemma strip_last (s : string) (c : ascii) :
  last_char (strip s) = Some c -> is_space c = false.
Proof.
  unfold strip. destruct (rstrip_by_spec is_space (lstrip s)) as [t [_ [_ L]]].
  apply L.
Qed.

Lemma last_char_app (a b : string) :
  b <> "" -> last_char (a ++ b) = last_char b.
Proof.
  intros H. induction a as [| c a IH]; simpl; [reflexivity |].
  destruct (a ++ b) eqn:E; [| exact IH].
  destruct a; simpl in E; congruence.
Qed.

End StrFacts.

(* ================================================================== *)
(** * Character classes, the regular expression and [split] *)
(* ================================================================== *)

Module CharFacts.
Import PyStr.

Ltac by_cases c := destruct c as [[] [] [] [] [] [] [] []]; vm_compute; try reflexivity; try discriminate; auto.

Lemma alpha_not_digit c : is_alpha c = true -> is_digit c = false.
Proof. by_cases c. Qed.
Lemma alpha_not_dot c : is_alpha c = true -> Ascii.eqb c "." = false.
Proof. by_cases c. Qed.
Lemma digit_not_space c : is_digit c = true -> is_space c = false.
Proof. by_cases c. Qed.
Lemma digit_not_sign c :
  is_digit c = true -> Ascii.eqb c "-" = false /\ Ascii.eqb c "+" = false.
Proof. by_cases c. Qed.
Lemma dot_not_digit : is_digit "." = false.
Proof. reflexivity. Qed.
Lemma lower_a c : lower_char c = "a"%char -> c = "a"%char \/ c = "A"%char.
Proof. by_cases c. Qed.
Lemma lower_l c : lower_char c = "l"%char -> c = "l"%char \/ c = "L"%char.
Proof. by_cases c. Qed.

End CharFacts.

Module ParseFacts.
Import PyStr PyFloat PyExc Units Spec Notions StrFacts CharFacts.

(** ** [span] *)

Lemma span_app (p : ascii -> bool) (a r : string) :
  all_chars p a = true -> stops p r -> span p (a ++ r) = (a, r).
Proof.
  intros A S. induction a as [| c a IH]; cbn [append].
  - destruct r as [| c r]; [reflexivity |]. cbn [span].
    rewrite (S c eq_refl). reflexivity.
  - cbn [all_chars] in A. apply andb_prop in A as [Pc A].
    cbn [span]. rewrite Pc, (IH A). reflexivity.
Qed.

Lemma span_spec (p : ascii -> bool) (s a r : string) :
  span p s = (a, r) -> s = a ++ r /\ all_chars p a = true /\ stops p r.
Proof.
  revert a r. induction s as [| c s IH]; intros a r; cbn [span].
  - intros H. injection H as <- <-. repeat split. intros c H. discriminate.
  - destruct (p c) eqn:Pc.
    + destruct (span p s) as [a' r'] eqn:E. intros H. injection H as <- <-.
      destruct (IH a' r' eq_refl) as [-> [A S]].
      cbn [append all_chars]. rewrite Pc, A. auto.
    + intros H. injection H as <- <-. repeat split.
      intros d H. injection H as <-. exact Pc.
Qed.

Lemma stops_nil (p : ascii -> bool) : stops p "".
Proof. intros c H. discriminate. Qed.

Lemma stops_cons (p : ascii -> bool) (c : ascii) (r : string) :
  p c = false -> stops p (String c r).
Proof. intros H d E. injection E as <-. exact H. Qed.

Lemma is_empty_false (s : string) : nonempty s <-> is_empty s = false.
Proof. unfold nonempty. destruct s; simpl; split; congruence. Qed.

(** An alphabetic run starts with a letter. *)
Lemma alphabetic_first (u : string) :
  alphabetic u -> exists c r, u = String c r /\ is_alpha c = true.
Proof.
  intros [N A]. destruct u as [| c r]; [congruence |].
  cbn [all_chars] in A. apply andb_prop in A as [A _]. eauto.
Qed.

(** ** The regular expression of strategy (b) *)

Lemma re_match_complete (t n u : string) :
  concat_form t n u -> re_match_amount t = Some (n, u).
Proof.
  intros [-> [N U]]. destruct (alphabetic_first u U) as [c [r [-> Ac]]].
  set (u := String c r) in *.
  assert (Su : span is_alpha u = (u, "")).
  { rewrite <- (append_nil_r u) at 1. apply span_app; [apply U | apply stops_nil]. }
  assert (Sd : stops is_digit u) by (apply stops_cons, alpha_not_digit, Ac).
  unfold re_match_amount. destruct N as [[Nn Dn] | [a [b [-> [[Na Da] [Nb Db]]]]]].
  - rewrite (span_app is_digit n u Dn Sd).
    apply is_empty_false in Nn. rewrite Nn.
    unfold u at 1. rewrite (alpha_not_dot c Ac). fold u.
    rewrite Su. reflexivity.
  - rewrite !append_assoc. cbn [append].
    rewrite (span_app is_digit a _ Da) by (apply stops_cons, dot_not_digit).
    apply is_empty_false in Na. rewrite Na.
    change (Ascii.eqb "." ".") with true. cbv iota.
    rewrite (span_app is_digit b u Db Sd).
    apply is_empty_false in Nb. rewrite Nb.
    rewrite Su. reflexivity.
Qed.

Lemma re_match_sound (t n u : string) :
  (forall c, last_char t = Some c -> is_space c = false) ->
  re_match_amount t = Some (n, u) -> concat_form t n u.
Proof.
  intros L. unfold re_match_amount.
  destruct (span is_digit t) as [whole r1] eqn:S1.
  destruct (span_spec _ _ _ _ S1) as [Et [Dw St1]].
  destruct (is_empty whole) eqn:Ew; [discriminate |].
  apply is_empty_false in Ew.
  assert (K : forall number r2,
             t = number ++ r2 -> unsigned_decimal number ->
             (let (unit, r3) := span is_alpha r2 in
              if negb (is_empty unit) && at_end r3 then Some (number, unit)
              else None) = Some (n, u) ->
             concat_form t n u).
  { intros number r2 E N.
    destruct (span is_alpha r2) as [unit r3] eqn:S3.
    destruct (span_spec _ _ _ _ S3) as [E2 [Au St3]].
    destruct (is_empty unit) eqn:Eu; [discriminate |]. cbn [negb andb].
    unfold at_end. destruct r3 as [| c3 r3].
    - cbn. intros H. injection H as <- <-.
      rewrite append_nil_r in E2. subst r2.
      split; [exact E |]. split; [exact N |].
      split; [apply is_empty_false, Eu | exact Au].
    - cbn [is_empty orb]. destruct (String.eqb (String c3 r3) nl) eqn:Q;
        [| discriminate].
      apply String.eqb_eq in Q. exfalso.
      assert (last_char t = Some (ascii_of_nat 10)).
      { rewrite E, E2, Q, <- append_assoc.
        rewrite last_char_app by (unfold nl; discriminate). reflexivity. }
      specialize (L _ H). vm_compute in L. discriminate. }
  destruct r1 as [| c r].
  - apply K; [exact Et | left; split; assumption].
  - destruct (Ascii.eqb c ".") eqn:Ec.
    + apply Ascii.eqb_eq in Ec. subst c.
      destruct (span is_digit r) as [frac r'] eqn:S2.
      destruct (span_spec _ _ _ _ S2) as [Er [Df St2]].
      destruct (is_empty frac) eqn:Ef.
      * apply K; [exact Et | left; split; assumption].
      * apply K.
        -- rewrite Et, Er, !append_assoc. reflexivity.
        -- right. exists whole, frac. repeat split; try assumption.
           apply is_empty_false, Ef.
    + apply K; [exact Et | left; split; assumption].
Qed.

(** ** [split] *)

Lemma split_blank (ws r : string) :
  all_chars is_space ws = true -> split (ws ++ r) = split r.
Proof.
  induction ws as [| c ws IH]; cbn [append all_chars]; [reflexivity |].
  intros H. apply andb_prop in H as [Hc H].
  cbn [split]. rewrite Hc. exact (IH H).
Qed.

Lemma split_token (w r : string) :
  token w -> stops nonspace r -> split (w ++ r) = w :: split r.
Proof.
  intros [N A] S. induction w as [| c w IH]; [congruence |].
  cbn [all_chars] in A. apply andb_prop in A as [Hc A].
  apply negb_true_iff in Hc.
  cbn [append split]. rewrite Hc.
  destruct w as [| d w].
  - cbn [append]. destruct r as [| d r]; [reflexivity |].
    specialize (S d eq_refl). unfold nonspace in S.
    apply negb_false_iff in S. rewrite S. reflexivity.
  - cbn [append]. pose proof A as A'.
    cbn [all_chars] in A'. apply andb_prop in A' as [Hd _].
    apply negb_true_iff in Hd. rewrite Hd.
    cbn [append] in IH. rewrite IH by (try discriminate; exact A).
    reflexivity.
Qed.

Lemma split_decompose (t : string) :
  match split t with
  | [] => all_chars is_space t = true
  | w :: ws =>
      exists pre rest,
        t = pre ++ w ++ rest /\ all_chars is_space pre = true /\ token w
        /\ stops nonspace rest /\ split rest = ws
  end.
Proof.
  induction t as [| c r IH]; [reflexivity |].
  cbn [split]. destruct (is_space c) eqn:Hc.
  - destruct (split r) as [| w ws].
    + cbn [all_chars]. rewrite Hc, IH. reflexivity.
    + destruct IH as [pre [rest [E [P [T [S R]]]]]].
      exists (String c pre), rest. cbn [append all_chars].
      rewrite Hc, P, E. auto.
  - assert (Tc : token (String c "")).
    { split; [discriminate |]. cbn. rewrite Hc. reflexivity. }
    destruct r as [| d r'].
    + exists "", "". repeat split; try discriminate; try apply Tc.
    + destruct (is_space d) eqn:Hd.
      * exists "", (String d r').
        split; [reflexivity |]. split; [reflexivity |]. split; [exact Tc |].
        split; [| reflexivity].
        apply stops_cons. unfold nonspace. rewrite Hd. reflexivity.
      * destruct (split (String d r')) as [| w ws].
        -- cbn [all_chars] in IH. rewrite Hd in IH. discriminate.
        -- destruct IH as [pre [rest [E [P [[Nw Aw] [S R]]]]]].
           destruct pre as [| p pre].
           ++ cbn [append] in E. exists "", rest.
              cbn [append]. rewrite E. repeat split; try discriminate; auto.
              cbn [all_chars]. rewrite Hc, Aw. reflexivity.
           ++ cbn [append all_chars] in E, P. injection E as <- _.
              rewrite Hd in P. discriminate.
Qed.

Lemma all_chars_last (p : ascii -> bool) (s : string) (c : ascii) :
  all_chars p s = true -> last_char s = Some c -> p c = true.
Proof.
  induction s as [| a s IH]; [discriminate |].
  cbn [all_chars]. intros H L. apply andb_prop in H as [Ha H].
  destruct s as [| b s].
  - cbn in L. injection L as <-. exact Ha.
  - apply IH; [exact H | exact L].
Qed.

Lemma last_char_some (s : string) : s <> "" -> exists c, last_char s = Some c.
Proof.
  induction s as [| a s IH]; [congruence |]. intros _.
  destruct s as [| b s]; [exists a; reflexivity |].
  destruct IH as [c Hc]; [discriminate |]. exists c. exact Hc.
Qed.

Lemma token_first (w : string) :
  token w -> exists c r, w = String c r /\ is_space c = false.
Proof.
  intros [N A]. destruct w as [| c r]; [congruence |].
  cbn [all_chars] in A. apply andb_prop in A as [A _].
  apply negb_true_iff in A. eauto.
Qed.

Lemma strip_stripped (s : string) : stripped (strip s).
Proof. split; [apply strip_first | apply strip_last]. Qed.

Lemma split_two_sound (t p0 p1 : string) :
  stripped t -> split t = [p0; p1] -> spaced_form t p0 p1.
Proof.
  intros [F L] H. pose proof (split_decompose t) as D. rewrite H in D.
  destruct D as [pre [rest [E [P [T0 [S R]]]]]].
  pose proof (split_decompose rest) as D. rewrite R in D.
  destruct D as [ws [rest' [E' [P' [T1 [S' R']]]]]].
  pose proof (split_decompose rest') as D. rewrite R' in D.
  assert (pre = "").
  { destruct pre as [| c pre]; [reflexivity |]. exfalso.
    cbn [all_chars] in P. apply andb_prop in P as [P _].
    rewrite E in F. specialize (F c eq_refl). congruence. }
  assert (rest' = "").
  { destruct rest' as [| c r]; [reflexivity |]. exfalso.
    assert (Lt : last_char t = last_char (String c r)).
    { rewrite E, E', <- !append_assoc. apply last_char_app. discriminate. }
    destruct (last_char (String c r)) as [z |] eqn:Z.
    - pose proof (all_chars_last _ _ _ D Z) as Sz.
      rewrite (L z Lt) in Sz. discriminate.
    - destruct (last_char_some (String c r)) as [z Hz]; [discriminate |].
      congruence. }
  subst pre rest'. rewrite append_nil_r in E'. cbn [append] in E.
  exists ws. split; [congruence |]. split; [exact T0 |]. split; [| exact T1].
  split; [| exact P'].
  intros ->. cbn [append] in E'.
  destruct (token_first p1 T1) as [c [r [-> Hc]]].
  rewrite E' in S. specialize (S c eq_refl). unfold nonspace in S.
  rewrite Hc in S. discriminate.
Qed.

Lemma blank_first (ws : string) :
  blank ws -> exists c r, ws = String c r /\ is_space c = true.
Proof.
  intros [N A]. destruct ws as [| c r]; [congruence |].
  cbn [all_chars] in A. apply andb_prop in A as [A _]. eauto.
Qed.

Lemma split_two_complete (t p0 p1 : string) :
  spaced_form t p0 p1 -> split t = [p0; p1].
Proof.
  intros [ws [-> [T0 [B T1]]]].
  rewrite split_token; [| exact T0 |].
  - rewrite split_blank by apply B.
    rewrite <- (append_nil_r p1) at 1.
    rewrite split_token; [reflexivity | exact T1 | apply stops_nil].
  - destruct (blank_first ws B) as [c [r [-> Hc]]]. cbn [append].
    apply stops_cons. unfold nonspace. rewrite Hc. reflexivity.
Qed.

End ParseFacts.

(* ================================================================== *)
(** * Numerals *)
(* ================================================================== *)

Module NumeralFacts.
Import PyStr PyFloat PyExc Units Spec Notions StrFacts CharFacts ParseFacts.

Lemma rstrip_by_id (p : ascii -> bool) (s : string) :
  all_chars (fun c => negb (p c)) s = true -> rstrip_by p s = s.
Proof.
  induction s as [| c s IH]; [reflexivity |]. cbn [all_chars rstrip_by].
  intros H. apply andb_prop in H as [Hc H]. apply negb_true_iff in Hc.
  rewrite (IH H). destruct s; [rewrite Hc |]; reflexivity.
Qed.

Lemma strip_token (w : string) : token w -> strip w = w.
Proof.
  intros T. destruct (token_first w T) as [c [r [-> Hc]]].
  unfold strip. cbn [lstrip]. rewrite Hc. apply rstrip_by_id, T.
Qed.

Lemma all_chars_impl (p q : ascii -> bool) (s : string) :
  (forall c, p c = true -> q c = true) ->
  all_chars p s = true -> all_chars q s = true.
Proof.
  intros I. induction s as [| c s IH]; [reflexivity |]. cbn [all_chars].
  intros H. apply andb_prop in H as [Hc H]. rewrite (I c Hc), (IH H).
  reflexivity.
Qed.

Lemma digit_nonspace c : is_digit c = true -> negb (is_space c) = true.
Proof. intros H. rewrite (digit_not_space c H). reflexivity. Qed.

Lemma unsigned_decimal_token (n : string) : unsigned_decimal n -> token n.
Proof.
  intros [[N D] | [a [b [-> [[Na Da] [Nb Db]]]]]].
  - split; [exact N |]. apply (all_chars_impl is_digit); [apply digit_nonspace | exact D].
  - split; [destruct a; [congruence | discriminate] |].
    rewrite !all_chars_app. cbn [all_chars].
    rewrite (all_chars_impl is_digit _ a digit_nonspace Da).
    rewrite (all_chars_impl is_digit _ b digit_nonspace Db).
    reflexivity.
Qed.

Lemma digit_tail_app (a r : string) :
  all_chars is_digit a = true -> digits_stop r -> digit_tail (a ++ r) = (a, r).
Proof.
  intros A S. induction a as [| c a IH]; cbn [append].
  - destruct r as [| c r]; [reflexivity |]. cbn [digit_tail].
    destruct (S c eq_refl) as [H1 H2]. rewrite H1, H2. reflexivity.
  - cbn [all_chars] in A. apply andb_prop in A as [Hc A].
    cbn [digit_tail]. rewrite Hc, (IH A). reflexivity.
Qed.

Lemma digitpart_app (a r : string) :
  digits1 a -> digits_stop r -> digitpart (a ++ r) = Some (a, r).
Proof.
  intros [N A] S. destruct a as [| c a]; [congruence |].
  cbn [all_chars] in A. apply andb_prop in A as [Hc A].
  cbn [append digitpart]. rewrite Hc, (digit_tail_app a r A S). reflexivity.
Qed.

Lemma digits_stop_nil : digits_stop "".
Proof. intros c H. discriminate. Qed.

Lemma digitpart_all (a : string) : digits1 a -> digitpart a = Some (a, "").
Proof.
  intros D. pose proof (digitpart_app a "" D digits_stop_nil) as H.
  rewrite append_nil_r in H. exact H.
Qed.

Lemma digits_stop_dot (r : string) : digits_stop (String "." r).
Proof. intros c H. injection H as <-. split; reflexivity. Qed.

Lemma digits1_first (a : string) :
  digits1 a -> exists c r, a = String c r /\ is_digit c = true.
Proof.
  intros [N A]. destruct a as [| c r]; [congruence |].
  cbn [all_chars] in A. apply andb_prop in A as [A _]. eauto.
Qed.

Lemma digit_not_word c : is_digit c = true ->
  Ascii.eqb (lower_char c) "i" = false /\ Ascii.eqb (lower_char c) "n" = false.
Proof. by_cases c. Qed.

(** What [float()] makes of digits and an optional fraction. *)
Lemma float_of_number (n ip fp : string) :
  (exists c r, n = String c r /\ is_digit c = true) ->
  token n ->
  number n = Some (ip, fp, "") ->
  float_of_string n =
    Some (of_decimal false (Z_of_digits 0 (ip ++ fp))
            (Zlen ip + Zlen fp) (0 - Zlen fp)%Z).
Proof.
  intros [c [r [-> Hc]]] T Hn. unfold float_of_string.
  rewrite (strip_token _ T). cbn [sign_opt].
  destruct (digit_not_sign c Hc) as [-> ->].
  cbn [lower]. destruct (digit_not_word c Hc) as [Hi Hn'].
  assert (W : forall w, (String.eqb (String (lower_char c) (lower r)) (String "i" w)) = false).
  { intros w. cbn [String.eqb]. rewrite Hi. reflexivity. }
  assert (W' : forall w, (String.eqb (String (lower_char c) (lower r)) (String "n" w)) = false).
  { intros w. cbn [String.eqb]. rewrite Hn'. reflexivity. }
  rewrite !W, W'. cbn [orb]. rewrite Hn. reflexivity.
Qed.

Lemma float_of_unsigned (n : string) :
  unsigned_decimal n -> exists v, float_of_string n = Some v.
Proof.
  intros U. pose proof (unsigned_decimal_token n U) as T.
  destruct U as [D | [a [b [-> [Da Db]]]]].
  - eexists. apply (float_of_number n n "").
    + apply digits1_first, D.
    + exact T.
    + unfold number. rewrite (digitpart_all n D). reflexivity.
  - eexists. apply (float_of_number _ a b).
    + destruct (digits1_first a Da) as [c [r [-> Hc]]]. cbn [append]. eauto.
    + exact T.
    + unfold number. cbn [append].
      rewrite (digitpart_app a _ Da (digits_stop_dot _)).
      change (Ascii.eqb "." ".") with true. cbv iota.
      rewrite (digitpart_all b Db). reflexivity.
Qed.

(** The keyword [all], in any case, is no amount. *)
Lemma all_is_no_amount (a : string) :
  lower a = "all" -> exists e, _parse_amount_unit a = Raise e.
Proof.
  destruct a as [| c1 [| c2 [| c3 [| c4 r]]]]; cbn [lower]; try discriminate.
  intros H. injection H as H1 H2 H3.
  destruct (lower_a _ H1) as [-> | ->], (lower_l _ H2) as [-> | ->],
    (lower_l _ H3) as [-> | ->]; vm_compute; eexists; reflexivity.
Qed.

End NumeralFacts.

(* ================================================================== *)
(** * Unit algebra: conversion, validation, parsing *)
(* ================================================================== *)

Module UnitTheorems.
Import PyStr PyFloat PyExc Units Spec Notions StrFacts CharFacts ParseFacts
  NumeralFacts.

(** C5.  For every value and every pair of aliases of the conversion
    table, [_convert_unit] returns nothing exactly when the dimension
    classes of the two aliases differ, and otherwise returns
    [value * factor(from) / factor(to)], computed in binary64 in that
    order. *)
Theorem convert_unit_same_class_only (value : float) (a b : string) :
  known_unit a -> known_unit b ->
  _convert_unit value a b =
    if dimension_eqb (dimension_of a) (dimension_of b)
    then Some (value * factor_to_base a / factor_to_base b)%float
    else None.
Proof.
  unfold known_unit. cbn [keys map fst _get_unit_conversions].
  intros Ha Hb.
  repeat (destruct Ha as [<- | Ha]; [| try contradiction]);
    repeat (destruct Hb as [<- | Hb]; [| try contradiction]);
    vm_compute; reflexivity.
Qed.

Lemma convert_unit_same_class_only_witness :
  _convert_unit 500 "g" "kg" = Some 0.5%float
  /\ _convert_unit 1 "kg" "ml" = None.
Proof.
  split.
  - rewrite (convert_unit_same_class_only 500 "g" "kg");
      [vm_compute; reflexivity | vm_compute; tauto | vm_compute; tauto].
  - rewrite (convert_unit_same_class_only 1 "kg" "ml");
      [vm_compute; reflexivity | vm_compute; tauto | vm_compute; tauto].
Defined.

(** ** [_validate_unit] *)

Lemma all_s_repeat (t : string) :
  all_chars (Ascii.eqb "s") t = true -> t = repeat_str "s" (String.length t).
Proof.
  induction t as [| c t IH]; [reflexivity |]. cbn [all_chars].
  intros H. apply andb_prop in H as [Hc H]. apply Ascii.eqb_eq in Hc. subst c.
  cbn. f_equal. exact (IH H).
Qed.

(** C6, as stated, fails: "kgss" loses both final letters and validates
    as "kg", which stripping a single suffix would not allow. *)
Lemma validate_unit_single_suffix_fails :
  ~ (forall u, fst (_validate_unit u) = validates_single_suffix u).
Proof.
  intros H. specialize (H "kgss"). vm_compute in H. discriminate.
Qed.

(** C6, amended.  [_validate_unit] lower-cases the text and drops every
    trailing "s" (the result [n] no longer ends in "s"), then looks [n]
    up in the alias table: found, it answers [(True, n)]; not found, it
    fails, and the aliases it suggests are exactly the table's aliases
    that contain [n] or are contained in it, listed in the message (or
    the fixed list of supported units when there is none). *)
Theorem validate_unit_strips_every_s (u : string) :
  let n := normalize_unit u in
  (exists k, lower u = n ++ repeat_str "s" k /\ last_char n <> Some "s"%char)
  /\ (has_key n _get_unit_conversions = true -> _validate_unit u = (true, n))
  /\ (has_key n _get_unit_conversions = false ->
        fst (_validate_unit u) = false
        /\ (forall a, In a (similar_units n) <->
                        known_unit a /\ (substring_of n a \/ substring_of a n))
        /\ snd (_validate_unit u) =
             match similar_units n with
             | [] => "Unsupported unit. Supported units are: g, kg, ml, l, piece"
             | l => "Did you mean: " ++ join ", " l ++ "?"
             end).
Proof.
  intros n. split; [| split].
  - unfold n, normalize_unit, rstrip_char.
    destruct (rstrip_by_spec (Ascii.eqb "s") (lower u)) as [t [E [A L]]].
    exists (String.length t). split.
    + rewrite <- (all_s_repeat t A). exact E.
    + intros H. specialize (L _ H). discriminate.
  - intros H. unfold _validate_unit. fold n. rewrite H. reflexivity.
  - intros H. unfold _validate_unit. fold n. rewrite H. split; [| split].
    + destruct (similar_units n); reflexivity.
    + intros a. unfold similar_units, known_unit.
      rewrite filter_In, orb_true_iff, !contains_iff. reflexivity.
    + destruct (similar_units n); reflexivity.
Qed.

Lemma validate_unit_strips_every_s_witness :
  _validate_unit "KGS" = (true, "kg")
  /\ fst (_validate_unit "ltr") = false
  /\ (In "l" (similar_units "ltr") <->
      known_unit "l" /\ (substring_of "ltr" "l" \/ substring_of "l" "ltr")).
Proof.
  split; [| split].
  - exact (proj1 (proj2 (validate_unit_strips_every_s "KGS")) eq_refl).
  - exact (proj1 (proj2 (proj2 (validate_unit_strips_every_s "ltr")) eq_refl)).
  - exact (proj1 (proj2 (proj2 (proj2 (validate_unit_strips_every_s "ltr"))
                           eq_refl)) "l").
Defined.

(** ** [_parse_amount_unit] *)

Lemma minus_five_no_unit (n u : string) :
  "-5" = n ++ u -> alphabetic u -> False.
Proof.
  intros E [N A].
  destruct n as [| c1 n]; cbn [append] in E.
  { subst u. vm_compute in A. discriminate. }
  injection E as <- E. destruct n as [| c2 n]; cbn [append] in E.
  { subst u. vm_compute in A. discriminate. }
  injection E as <- E. destruct n as [| c3 n]; cbn [append] in E.
  { subst u. apply N. reflexivity. }
  discriminate E.
Qed.

Lemma minus_five_no_blank (n ws u : string) :
  "-5" = n ++ ws ++ u -> blank ws -> False.
Proof.
  intros E B. destruct (blank_first ws B) as [c [r [-> Hc]]].
  destruct n as [| c1 n]; cbn [append] in E.
  { injection E as <- _. vm_compute in Hc. discriminate. }
  injection E as <- E. destruct n as [| c2 n]; cbn [append] in E.
  { injection E as <- _. vm_compute in Hc. discriminate. }
  injection E as <- E. destruct n as [| c3 n]; cbn [append] in E; discriminate E.
Qed.

(** C7, as stated, fails: with one notion of numeral for all three
    strategies the code cannot be matched, since "-5" is accepted (as
    pieces) while "-5kg" is rejected. *)
Lemma parse_amount_one_numeral_fails :
  ~ exists numeral : string -> Prop,
      forall s, parses s <-> accepted numeral s.
Proof.
  intros [numeral H].
  assert (N : numeral "-5").
  { assert (P : parses "-5") by (do 2 eexists; vm_compute; reflexivity).
    apply H in P.
    destruct P as [P | [[n [u [E [_ A]]]] | [n [u [[ws [E [_ [B _]]]] _]]]]].
    - exact P.
    - exfalso. exact (minus_five_no_unit n u E A).
    - exfalso. exact (minus_five_no_blank n ws u E B). }
  assert (A : accepted numeral "-5kg").
  { right. left. exists "-5", "kg". split; [reflexivity |].
    split; [exact N |]. split; [discriminate | reflexivity]. }
  apply H in A. destruct A as [v [u A]]. vm_compute in A. discriminate.
Qed.

Lemma parse_amount_unit_eq (s : string) :
  _parse_amount_unit s =
    match float_of_string (strip s) with
    | Some v => Ok (v, "piece")
    | None =>
        match re_match_amount (strip s) with
        | Some (g1, g2) => v <- float_ g1 ;; Ok (v, g2)
        | None =>
            match split (strip s) with
            | [p0; p1] =>
                match float_of_string p0 with
                | Some v => Ok (v, p1)
                | None =>
                    Raise (ValueError ("Invalid amount format: " ++ strip s))
                end
            | _ => Raise (ValueError ("Invalid amount format: " ++ strip s))
            end
        end
    end.
Proof.
  unfold _parse_amount_unit, float_.
  destruct (float_of_string (strip s)); [reflexivity |].
  destruct (re_match_amount (strip s)) as [[g1 g2] |]; [reflexivity |].
  destruct (split (strip s)) as [| p0 [| p1 [| p2 ps]]]; try reflexivity.
  destruct (float_of_string p0); reflexivity.
Qed.

(** C7, amended.  On the stripped text [t], in this order: (a) if
    [float()] accepts [t] the result is that value in "piece"; (b)
    otherwise, if [t] is an unsigned decimal (digits, optionally a point
    and digits) directly followed by letters, the result is that number
    and those letters; (c) otherwise, if [t] is two tokens separated by
    white space and [float()] accepts the first, the result is that value
    with the second token as unit; otherwise [ValueError] with the
    invalid-amount message. *)
Theorem parse_amount_three_strategies (s : string) :
  let t := strip s in
  (forall v, float_of_string t = Some v ->
             _parse_amount_unit s = Ok (v, "piece"))
  /\ (float_of_string t = None ->
      (forall n u, concat_form t n u ->
                   exists v, float_of_string n = Some v
                             /\ _parse_amount_unit s = Ok (v, u))
      /\ ((forall n u, ~ concat_form t n u) ->
          (forall p0 p1 v, spaced_form t p0 p1 ->
                           float_of_string p0 = Some v ->
                           _parse_amount_unit s = Ok (v, p1))
          /\ ((forall p0 p1, spaced_form t p0 p1 ->
                              float_of_string p0 = None) ->
              _parse_amount_unit s =
                Raise (ValueError ("Invalid amount format: " ++ t))))).
Proof.
  intros t. rewrite parse_amount_unit_eq. fold t. split.
  - intros v ->. reflexivity.
  - intros ->. pose proof (strip_stripped s) as St. fold t in St. split.
    + intros n u C. rewrite (re_match_complete t n u C).
      destruct (float_of_unsigned n) as [v Hv]; [apply C |].
      exists v. split; [exact Hv |]. unfold float_. rewrite Hv. reflexivity.
    + intros NC.
      destruct (re_match_amount t) as [[g1 g2] |] eqn:R.
      { exfalso. apply (NC g1 g2), re_match_sound; [apply St | exact R]. }
      split.
      * intros p0 p1 v Sp Hv. rewrite (split_two_complete t p0 p1 Sp).
        rewrite Hv. reflexivity.
      * intros NS.
        destruct (split t) as [| p0 [| p1 [| p2 ps]]] eqn:Es; try reflexivity.
        rewrite (NS p0 p1); [reflexivity |].
        apply split_two_sound; [exact St | exact Es].
Qed.

Lemma parse_amount_three_strategies_witness :
  _parse_amount_unit " 5 " = Ok (5%float, "piece")
  /\ (exists v, float_of_string "500" = Some v
                /\ _parse_amount_unit "500g" = Ok (v, "g"))
  /\ _parse_amount_unit "2   kg" = Ok (2%float, "kg").
Proof.
  split; [| split].
  - exact (proj1 (parse_amount_three_strategies " 5 ") 5%float eq_refl).
  - apply (proj1 (proj2 (parse_amount_three_strategies "500g") eq_refl) "500" "g").
    split; [reflexivity |]. split; [left |]; split; try discriminate; reflexivity.
  - refine (proj1 (proj2 (proj2 (parse_amount_three_strategies "2   kg") eq_refl)
                     _) "2" "kg" 2%float _ eq_refl).
    + intros n u C. apply re_match_complete in C. vm_compute in C. discriminate.
    + exists "   ". repeat split; try discriminate.
Defined.

End UnitTheorems.

(* ================================================================== *)
(** * Classification *)
(* ================================================================== *)

Module ClassifierTheorems.
Import PyStr PyExc Units Classifier Spec Notions.

Lemma check_items_spec (l : list json) :
  check_items l = if forallb item_ok l then Ok tt else Raise items_error.
Proof.
  induction l as [| item rest IH]; [reflexivity |].
  cbn [check_items forallb].
  destruct item as [| b | n | x | s | l' | f]; try reflexivity.
  cbn [is_dict negb py_in item_ok bind].
  destruct (has_key "name" f); cbn [negb bind raise_if andb]; [| reflexivity].
  destruct (has_key "amount" f); cbn [negb bind raise_if andb]; [| reflexivity].
  exact IH.
Qed.

Lemma mem_intents (a : string) : mem a valid_actions = mem a intents.
Proof.
  unfold mem, valid_actions, intents. cbn [existsb].
  destruct (String.eqb a "get_recipes"), (String.eqb a "general_conversation"),
    (String.eqb a "update_inventory"), (String.eqb a "get_inventory"),
    (String.eqb a "remove_inventory"); reflexivity.
Qed.

Lemma mem_inventory (a : string) :
  mem a ["update_inventory"; "remove_inventory"] = inventory_intent a.
Proof.
  unfold mem, inventory_intent. cbn [existsb]. rewrite orb_false_r. reflexivity.
Qed.

Lemma mem_In (a : string) (l : list string) : mem a l = true -> In a l.
Proof.
  unfold mem. rewrite existsb_exists. intros [x [I E]].
  apply String.eqb_eq in E. subst x. exact I.
Qed.

(** The validation layer lets through exactly the well-formed results. *)
Lemma validate_spec (j : json) :
  match validate j with
  | Ok j' => well_formed j = true /\ j' = j
  | Raise _ => well_formed j = false
  end.
Proof.
  unfold validate.
  destruct j as [| b | n | x | s | l | d]; try reflexivity.
  - (* a string or a list: membership may succeed, the subscript raises *)
    cbn [py_in bind]. destruct (contains "action" s); reflexivity.
  - cbn [py_in bind]. destruct (existsb (is_str "action") l); reflexivity.
  - cbn [py_in bind subscript well_formed]. unfold has_key.
    destruct (get "action" d) as [v |] eqn:Ea; cbn [negb raise_if bind];
      [| reflexivity].
    destruct v as [| b | n | x | a | l | d']; try reflexivity.
    cbn [among]. rewrite mem_intents, mem_inventory.
    destruct (mem a intents); cbn [negb raise_if bind andb]; [| reflexivity].
    destruct (inventory_intent a); [| split; reflexivity].
    destruct (get "items" d) as [v |] eqn:Ei; cbn [negb raise_if bind];
      [| reflexivity].
    destruct v as [| b | n | x | s | l | d']; try reflexivity.
    cbn [is_list negb raise_if bind iterate]. rewrite check_items_spec.
    destruct (forallb item_ok l); cbn [bind]; [split |]; reflexivity.
Qed.

(** C4.  Whatever the classification capability does, [classify_message]
    returns a classification and raises nothing: a capability failure, a
    reply that is not JSON, and every decoded reply that is not well
    formed (no [action], an action outside the five intents, an inventory
    intent without a list of items each carrying name and amount) come
    back as the [general_conversation] intent; a well-formed reply comes
    back unchanged.  The returned action is always one of the five. *)
Theorem classify_message_never_raises (c : completion) :
  classify_message c =
    match c with
    | Decoded j => if well_formed j then j else general_conversation
    | ApiError _ | NotJson _ => general_conversation
    end
  /\ exists a, action_of (classify_message c) = Some a /\ In a intents.
Proof.
  assert (G : exists a, action_of general_conversation = Some a /\ In a intents).
  { exists "general_conversation". split; [reflexivity | left; reflexivity]. }
  unfold classify_message. destruct c as [e | content | j]; cbn [classify_body try_except];
    try (split; [reflexivity | exact G]).
  pose proof (validate_spec j) as V.
  destruct (validate j) as [j' | e]; cbn [try_except].
  - destruct V as [W ->]. rewrite W. split; [reflexivity |].
    unfold well_formed in W. unfold action_of.
    destruct j as [| b | n | x | s | l | d]; try discriminate.
    destruct (get "action" d) as [[| b | n | x | a | l | d'] |]; try discriminate.
    apply andb_prop in W as [W _]. exists a. split; [reflexivity | apply mem_In, W].
  - rewrite V. split; [reflexivity | exact G].
Qed.

End ClassifierTheorems.

(* ================================================================== *)
(** * Insertion-ordered dictionaries *)
(* ================================================================== *)

Module DictFacts.
Import Units Inventory.

Section Dict.
Context {A : Type}.
Implicit Types (d : dict A) (k : string) (v : A).

Lemma get_del_same k d : get k (del k d) = None.
Proof.
  induction d as [| [k' v'] d IH]; [reflexivity |]. cbn [del].
  destruct (String.eqb k k') eqn:E; [exact IH |].
  cbn [get]. rewrite E. exact IH.
Qed.

Lemma get_del_other k k' d : k <> k' -> get k (del k' d) = get k d.
Proof.
  intros N. induction d as [| [k0 v0] d IH]; [reflexivity |]. cbn [del get].
  destruct (String.eqb k' k0) eqn:E.
  - apply String.eqb_eq in E. subst k0.
    apply String.eqb_neq in N. rewrite N. exact IH.
  - cbn [get]. rewrite IH. reflexivity.
Qed.

Lemma get_set_same k v d : get k (set k v d) = Some v.
Proof.
  induction d as [| [k' v'] d IH]; cbn [set get].
  - rewrite String.eqb_refl. reflexivity.
  - destruct (String.eqb k k') eqn:E; cbn [get].
    + rewrite String.eqb_refl. reflexivity.
    + rewrite E. exact IH.
Qed.

Lemma get_set_other k k' v d : k <> k' -> get k (set k' v d) = get k d.
Proof.
  intros N. apply String.eqb_neq in N.
  induction d as [| [k0 v0] d IH]; cbn [set get].
  - rewrite N. reflexivity.
  - destruct (String.eqb k' k0) eqn:E; cbn [get].
    + apply String.eqb_eq in E. subst k0. rewrite N. reflexivity.
    + rewrite IH. reflexivity.
Qed.

Lemma get_None_keys k d : get k d = None <-> ~ In k (keys d).
Proof.
  induction d as [| [k' v'] d IH]; cbn [get keys map fst In].
  - tauto.
  - destruct (String.eqb k k') eqn:E.
    + apply String.eqb_eq in E. subst k'. split; [discriminate | tauto].
    + apply String.eqb_neq in E. fold (keys d). rewrite IH.
      split; [intros H [C | C]; [congruence | tauto] | tauto].
Qed.

Lemma get_Some_In k v d : get k d = Some v -> In (k, v) d.
Proof.
  induction d as [| [k' v'] d IH]; cbn [get]; [discriminate |].
  destruct (String.eqb k k') eqn:E.
  - apply String.eqb_eq in E. subst k'. intros H. injection H as <-.
    left. reflexivity.
  - intros H. right. exact (IH H).
Qed.

Lemma set_fresh k v d : get k d = None -> set k v d = (d ++ [(k, v)])%list.
Proof.
  induction d as [| [k' v'] d IH]; cbn [get set]; [reflexivity |].
  destruct (String.eqb k k'); [discriminate |].
  intros H. rewrite (IH H). reflexivity.
Qed.

Lemma In_keys_set x k v d : In x (keys (set k v d)) -> x = k \/ In x (keys d).
Proof.
  induction d as [| [k' v'] d IH]; cbn [set keys map fst In].
  - intros [<- | []]. left. reflexivity.
  - destruct (String.eqb k k'); cbn [map fst In]; fold (keys d);
      fold (keys (set k v d)); intros [<- | H]; auto.
    destruct (IH H); auto.
Qed.

Lemma In_keys_del x k d : In x (keys (del k d)) -> In x (keys d).
Proof.
  induction d as [| [k' v'] d IH]; cbn [del keys map fst In]; [tauto |].
  destruct (String.eqb k k'); cbn [map fst In]; fold (keys d);
    fold (keys (del k d)); intros H; [right; auto |].
  destruct H; auto.
Qed.

Lemma NoDup_keys_set k v d : NoDup (keys d) -> NoDup (keys (set k v d)).
Proof.
  induction d as [| [k' v'] d IH]; cbn [set keys map fst].
  - intros _. constructor; [intros [] | constructor].
  - fold (keys d). intros H. inversion H as [| ? ? Hn Hd]; subst.
    destruct (String.eqb k k') eqn:E.
    + apply String.eqb_eq in E. subst k'. exact H.
    + apply String.eqb_neq in E. cbn [map fst]. fold (keys (set k v d)).
      constructor; [| exact (IH Hd)].
      intros C. destruct (In_keys_set _ _ _ _ C); [congruence | contradiction].
Qed.

Lemma NoDup_keys_del k d : NoDup (keys d) -> NoDup (keys (del k d)).
Proof.
  induction d as [| [k' v'] d IH]; cbn [del keys map fst]; [auto |].
  fold (keys d). intros H. inversion H as [| ? ? Hn Hd]; subst.
  destruct (String.eqb k k'); [exact (IH Hd) |].
  cbn [map fst]. fold (keys (del k d)). constructor; [| exact (IH Hd)].
  intros C. apply Hn. exact (In_keys_del _ _ _ C).
Qed.

Lemma Forall_set (P : string * A -> Prop) k v d :
  P (k, v) -> Forall P d -> Forall P (set k v d).
Proof.
  intros Pk. induction d as [| [k' v'] d IH]; cbn [set]; intros H.
  - constructor; [exact Pk | constructor].
  - inversion H; subst. destruct (String.eqb k k'); constructor; auto.
Qed.

Lemma Forall_del (P : string * A -> Prop) k d :
  Forall P d -> Forall P (del k d).
Proof.
  induction d as [| [k' v'] d IH]; cbn [del]; intros H; [constructor |].
  inversion H; subst. destruct (String.eqb k k'); [auto |].
  constructor; auto.
Qed.

End Dict.
End DictFacts.

(* ================================================================== *)
(** * The removal loop *)
(* ================================================================== *)

Module RemoveFacts.
Import PyStr PyFloat PyExc Units Inventory Spec Notions DictFacts NumeralFacts.

Section WithNormalizer.
Variable norm : string -> string.

Local Abbreviation consistent := (Notions.consistent norm).

Lemma consistent_set (d : dict item) (it : item) :
  consistent d -> consistent (set (norm (name it)) it d).
Proof.
  intros [N F]. split; [apply NoDup_keys_set, N | apply Forall_set; auto].
Qed.

Lemma consistent_del (d : dict item) (k : string) :
  consistent d -> consistent (del k d).
Proof.
  intros [N F]. split; [apply NoDup_keys_del, N | apply Forall_del, F].
Qed.

Lemma consistent_get (d : dict item) (k : string) (it : item) :
  consistent d -> get k d = Some it -> k = norm (name it).
Proof.
  intros [_ F] H. apply get_Some_In in H.
  rewrite Forall_forall in F. exact (F _ H).
Qed.

Lemma consistent_index_from (inv : list item) (d : dict item) :
  consistent d ->
  consistent (fold_left (fun acc it => set (norm (name it)) it acc) inv d).
Proof.
  revert d. induction inv as [| it inv IH]; intros d C; cbn [fold_left]; auto.
  apply IH, consistent_set, C.
Qed.

Lemma consistent_index (inv : list item) :
  consistent (index_inventory norm inv).
Proof.
  apply consistent_index_from. split; constructor.
Qed.

(** Re-indexing the values of a consistent mapping gives it back. *)
Lemma index_values_from (d acc : dict item) :
  consistent (acc ++ d)%list ->
  fold_left (fun a it => set (norm (name it)) it a) (values d) acc
  = (acc ++ d)%list.
Proof.
  revert acc. induction d as [| [k it] d IH]; intros acc C; cbn [values map snd fold_left].
  - rewrite app_nil_r. reflexivity.
  - fold (values d).
    assert (K : k = norm (name it)).
    { destruct C as [_ F]. rewrite Forall_forall in F.
      apply (F (k, it)). apply in_or_app. right. left. reflexivity. }
    assert (G : get k acc = None).
    { apply get_None_keys. destruct C as [N _]. unfold keys in N.
      rewrite map_app in N. cbn [map fst] in N.
      apply NoDup_remove_2 in N. intros I. apply N, in_or_app. left. exact I. }
    rewrite <- K, (set_fresh _ _ _ G). rewrite IH.
    + rewrite <- app_assoc. reflexivity.
    + rewrite <- app_assoc. exact C.
Qed.

Lemma index_values (d : dict item) :
  consistent d -> index_inventory norm (values d) = d.
Proof. intros C. exact (index_values_from d [] C). Qed.

(** ** One removal *)

Lemma remove_one_shape (d : dict item) (it : item) :
  exists d' r,
    (forall rs, remove_one norm (d, rs) it = (d', push rs r))
    /\ effect (norm (name it)) d d'.
Proof.
  unfold remove_one.
  destruct (get (norm (name it)) d) as [cur |] eqn:G;
    [| do 2 eexists; split; [reflexivity | constructor]].
  destruct (String.eqb (lower (amount it)) "all");
    [do 2 eexists; split; [reflexivity | constructor] |].
  unfold remove_partial.
  destruct (_parse_amount_unit (amount cur)) as [[cv cu] | e]; cbn [bind];
    [| do 2 eexists; split; [reflexivity | constructor]].
  destruct (_parse_amount_unit (amount it)) as [[rv ru] | e]; cbn [bind];
    [| do 2 eexists; split; [reflexivity | constructor]].
  destruct (if negb (String.eqb cu ru) then _convert_unit rv ru cu else Some rv)
    as [rv' |]; [| do 2 eexists; split; [reflexivity | constructor]].
  destruct (rv' <? cv)%float;
    [do 2 eexists; split; [reflexivity | econstructor; exact G] |].
  destruct (cv =? rv')%float;
    do 2 eexists; split; try reflexivity; constructor.
Qed.

Lemma effect_consistent (k : string) (d d' : dict item) :
  effect k d d' -> consistent d -> consistent d'.
Proof.
  intros [| | cur amt G] C; auto using consistent_del.
  rewrite (consistent_get d k cur C G) at 1.
  change (name cur) with (name (Item (name cur) amt)) at 1.
  apply consistent_set, C.
Qed.

Lemma effect_no_new_key (k k' : string) (d d' : dict item) :
  effect k d d' -> get k' d = None -> get k' d' = None.
Proof.
  intros [| | cur amt G] H; auto.
  - destruct (string_dec k' k) as [-> | N];
      [apply get_del_same | rewrite get_del_other; auto].
  - destruct (string_dec k' k) as [-> | N]; [congruence |].
    rewrite get_set_other; auto.
Qed.

(** ** The loop *)

Lemma remove_loop_shape (items : list item) : forall d,
  exists d' rs',
    (forall rs, remove_loop norm items (d, rs) = (d', (rs ++ rs')%list))
    /\ List.length rs' = List.length items
    /\ (consistent d -> consistent d')
    /\ (forall k, get k d = None -> get k d' = None).
Proof.
  induction items as [| it items IH]; intros d.
  - exists d, []. split; [| auto].
    intros rs. cbn. rewrite app_nil_r. reflexivity.
  - destruct (remove_one_shape d it) as [d1 [r [E1 F1]]].
    destruct (IH d1) as [d2 [rs2 [E2 [L2 [C2 N2]]]]].
    exists d2, (r :: rs2). split; [| split; [| split]].
    + intros rs. unfold remove_loop in *. cbn [fold_left].
      rewrite E1, E2. unfold push. rewrite <- app_assoc. reflexivity.
    + cbn. rewrite L2. reflexivity.
    + intros C. apply C2. eapply effect_consistent; eauto.
    + intros k H. apply N2. eapply effect_no_new_key; eauto.
Qed.


End WithNormalizer.
End RemoveFacts.

(* ================================================================== *)
(** * Removal, item by item *)
(* ================================================================== *)

Module RemoveTheorems.
Import PyStr PyFloat PyExc Units Inventory Spec Notions FloatFacts DictFacts
  NumeralFacts RemoveFacts.

Lemma parsed_is_not_all (a : string) (r : float * string) :
  _parse_amount_unit a = Ok r -> String.eqb (lower a) "all" = false.
Proof.
  intros H. destruct (String.eqb (lower a) "all") eqn:E; [| reflexivity].
  apply String.eqb_eq in E. destruct (all_is_no_amount a E) as [e R].
  congruence.
Qed.

Lemma effect_other_keys (k k' : string) (d d' : dict item) :
  effect k d d' -> k' <> k -> get k' d' = get k' d.
Proof.
  intros [| | cur amt G] N; auto using get_del_other, get_set_other.
Qed.

(** C3.  A Remove item found in the inventory, whose stored and requested
    amounts parse and whose requested amount converts to the stored unit
    (or has it already): if the stock exceeds the request the entry's
    amount becomes the formatted difference, which is not negative; if
    the two are equal the entry is deleted (no record for the key); if
    the request exceeds the stock the mapping is unchanged and the record
    carries the over-removal error.  Other keys are never touched. *)
Theorem remove_keeps_stock_nonnegative
    (norm : string -> string) (d : dict item) (rs : list report)
    (it cur : item) (cv rv rv' : float) (cu ru : string) :
  get (norm (name it)) d = Some cur ->
  _parse_amount_unit (amount cur) = Ok (cv, cu) ->
  _parse_amount_unit (amount it) = Ok (rv, ru) ->
  (if negb (String.eqb cu ru) then _convert_unit rv ru cu else Some rv)
    = Some rv' ->
  let k := norm (name it) in
  let d' := fst (remove_one norm (d, rs) it) in
  let rs' := snd (remove_one norm (d, rs) it) in
  ((rv' <? cv)%float = true ->
     get k d' = Some (Item (name cur) (_format_unit (cv - rv') cu))
     /\ (0 <=? cv - rv')%float = true)
  /\ ((cv =? rv')%float = true -> get k d' = None)
  /\ ((cv <? rv')%float = true ->
        d' = d
        /\ rs' = push rs
                   (Report (name cur) (Some (amount cur)) None
                      (Some "Requested amount exceeds available amount")))
  /\ (forall k', k' <> k -> get k' d' = get k' d).
Proof.
  intros G Pc Pr Cv k d' rs'.
  assert (Other : forall k', k' <> k -> get k' d' = get k' d).
  { intros k' N. destruct (remove_one_shape norm d it) as [d1 [r [E F]]].
    subst d'. rewrite E. cbn [fst]. exact (effect_other_keys _ _ _ _ F N). }
  assert (E : remove_one norm (d, rs) it =
              if (rv' <? cv)%float then
                (set k (Item (name cur) (_format_unit (cv - rv') cu)) d,
                 push rs (Report (name cur) (Some (_format_unit rv' cu))
                            None None))
              else if (cv =? rv')%float then
                (del k d,
                 push rs (Report (name cur) (Some (amount cur)) None None))
              else
                (d, push rs
                      (Report (name cur) (Some (amount cur)) None
                         (Some "Requested amount exceeds available amount")))).
  { unfold remove_one, k. rewrite G, (parsed_is_not_all _ _ Pr).
    unfold remove_partial. rewrite Pc, Pr. cbn [bind]. rewrite Cv.
    destruct (rv' <? cv)%float; [reflexivity |].
    destruct (cv =? rv')%float; reflexivity. }
  subst d' rs'. rewrite E.
  split; [| split; [| split]]; [| | | rewrite <- E; exact Other].
  - intros Lt. rewrite Lt. cbn [fst]. split.
    + apply get_set_same.
    + apply sub_nonneg, Lt.
  - intros Eq. destruct (eqb_not_ltb _ _ Eq) as [-> _]. rewrite Eq.
    cbn [fst]. apply get_del_same.
  - intros Gt. destruct (ltb_asym _ _ Gt) as [-> [-> _]]. cbn [fst snd]. auto.
Qed.

Lemma remove_keeps_stock_nonnegative_witness :
  let d := [("tomato", Item "tomato" "2 kg")] in
  let d' := fst (remove_one lower (d, []) (Item "Tomato" "500g")) in
  (0.5 <? 2)%float = true
  /\ get "tomato" d' = Some (Item "tomato" "1.5 kg")
  /\ (0 <=? 2 - 0.5)%float = true.
Proof.
  cbv zeta.
  pose proof (remove_keeps_stock_nonnegative lower
                [("tomato", Item "tomato" "2 kg")] []
                (Item "Tomato" "500g") (Item "tomato" "2 kg")
                2 500 0.5 "kg" "g" eq_refl eq_refl eq_refl eq_refl) as H.
  cbv zeta in H. destruct H as [H _].
  split; [reflexivity |]. exact (H eq_refl).
Defined.

(** ** Amounts that do not parse *)






End RemoveTheorems.

(* ================================================================== *)
(** * Dispatch and reply lengths *)
(* ================================================================== *)

Module DispatchTheorems.
Import PyStr PyFloat PyExc Units Inventory Dispatch Spec Notions StrFacts.

(** C1.  [remove_all] has no effect on [remove_inventory]: the reply and
    the stored list are the same for [true] and [false].  With an empty
    item list and [remove_all = true] a one-entry inventory is written
    back whole, with the reply that nothing was removed. *)
Theorem remove_all_is_never_read :
  (forall cap its u,
      process_classified_message cap (Classification "remove_inventory" its true) u
      = process_classified_message cap (Classification "remove_inventory" its false) u)
  /\ process_classified_message kitchen
       (Classification "remove_inventory" [] true)
       (User [Item "tomato" "2 kg"] "2024-01-01 00:00")
     = Ok {| response := Msg.no_items_removed;
             written := Some [Item "tomato" "2 kg"];
             reports := [] |}.
Proof. split; [intros; reflexivity | vm_compute; reflexivity]. Qed.

(** ** Lengths *)

Lemma len_concat (l : list string) :
  len (String.concat "" l) = list_sum (map len l).
Proof.
  induction l as [| x l IH]; [reflexivity |].
  cbn [String.concat map list_sum]. destruct l as [| y l].
  - cbn. lia.
  - rewrite len_app. cbn [append]. rewrite IH. reflexivity.
Qed.

Lemma len_repeat_a (n : nat) : len (repeat_str "a" n) = n.
Proof. induction n as [| n IH]; [reflexivity |]. cbn. rewrite IH. reflexivity. Qed.

Lemma cut_reply_len (text : string) : len (cut_reply text) <= 1500.
Proof.
  unfold cut_reply. destruct (1500 <? len text)%nat eqn:E.
  - rewrite len_app. pose proof (len_slice_to 1497 text).
    change (len Msg.ellipsis) with 3. lia.
  - apply Nat.ltb_ge in E. exact E.
Qed.

Lemma cut_reply_idem (text : string) : cut_reply (cut_reply text) = cut_reply text.
Proof.
  unfold cut_reply at 1. pose proof (cut_reply_len text) as L.
  apply Nat.ltb_ge in L. rewrite L. reflexivity.
Qed.

Lemma recipes_to_show_spec (recipes : list recipe) : forall total,
  exists rest,
    map recipe_text recipes = (recipes_to_show total recipes ++ rest)%list
    /\ (total <= 1400 ->
        total + len (String.concat "" (recipes_to_show total recipes)) <= 1400)
    /\ (forall r rest', rest = r :: rest' ->
          1400 < total + len (String.concat "" (recipes_to_show total recipes))
                 + len r).
Proof.
  induction recipes as [| r rs IH]; intros total.
  - exists []. cbn. split; [reflexivity |]. split; [lia | discriminate].
  - cbn [recipes_to_show map].
    destruct (1400 <? total + len (recipe_text r))%nat eqn:E.
    + exists (recipe_text r :: map recipe_text rs). cbn [app].
      split; [reflexivity |]. split; [cbn [String.concat len]; lia |].
      intros r' rest' H. injection H as <- _.
      apply Nat.ltb_lt in E. cbn [String.concat len]. lia.
    + apply Nat.ltb_ge in E.
      destruct (IH (total + len (recipe_text r))) as [rest [M [B N]]].
      exists rest. rewrite !len_concat in *. cbn [app map list_sum].
      split; [rewrite M; reflexivity |].
      unfold list_sum in *. cbn [fold_right].
      split; [intros _; specialize (B E); lia |].
      intros r' rest' H. specialize (N r' rest' H). lia.
Qed.

(** ** Reply lengths, intent by intent *)

(** C8, as stated, fails: no length bounds every reply, since an
    inventory listing spells out each name in full. *)
Lemma inventory_listing_is_unbounded :
  ~ exists C, forall cap c u o,
      process_classified_message cap c u = Ok o -> len (response o) <= C.
Proof.
  intros [C H].
  specialize (H kitchen (Classification "get_inventory" [] false)
                (User [Item (repeat_str "a" C) "1"] "")
                _ eq_refl).
  cbn [response reply try_except bind kitchen inventory_analysis
       normalize_item_name categories_of ingredients last_updated] in H.
  unfold format_inventory, group_inventory, filter_groups, sorted_items in H.
  cbn [fold_left add_to_group fold_right insert_sorted map group_lines
       String.concat name amount] in H.
  rewrite !len_app, len_repeat_a in H.
  assert (B : len Msg.bullet = 2) by reflexivity.
  lia.
Qed.

Lemma len_one_digit (n : nat) : n < 10 -> len (str_of_nat n) = 1.
Proof.
  intros H. do 10 (destruct n as [| n]; [reflexivity |]). lia.
Qed.

Lemma more_note_len (shown all : nat) :
  all < 10 -> len (more_note shown all) <= 47.
Proof.
  intros H. unfold more_note. destruct (shown <? all)%nat; [| cbn; lia].
  rewrite !len_app, len_one_digit by lia.
  change (len Msg.and_more) with 8. change (len Msg.more_recipe) with 12.
  change (len Msg.ask_for_more) with 25.
  destruct (1 <? all - shown)%nat;
    [change (len "s") with 1 | change (len "") with 0]; lia.
Qed.

(** C8, amended.  A general-conversation reply has at most 1500
    characters: a longer text is cut to its first 1497 characters and
    "..." is appended.  A recipe reply is the header, then the longest
    prefix of the recipes for which header and recipes stay within 1400
    characters (the next recipe would pass 1400), then the note counting
    the recipes left out: it stays within 1400 plus the note, which is
    within 1500 when fewer than ten recipes were offered. *)
Theorem reply_limits_by_intent
    (cap : capabilities) (c : classification) (u : user) (o : outcome) :
  process_classified_message cap c u = Ok o ->
  (action c = "general_conversation" ->
     len (response o) <= 1500
     /\ exists text,
          chat_completion cap = Ok text
          /\ response o = if (1500 <? len text)%nat
                          then slice_to 1497 text ++ Msg.ellipsis
                          else text)
  /\ (action c = "get_recipes" ->
      exists shown rest,
        let note := more_note (List.length shown)
                      (List.length (recommended_recipes cap)) in
        map recipe_text (recommended_recipes cap) = (shown ++ rest)%list
        /\ response o = Msg.recipe_header ++ String.concat "" shown ++ note
        /\ len (Msg.recipe_header ++ String.concat "" shown) <= 1400
        /\ (forall r rest', rest = r :: rest' ->
              1400 < len (Msg.recipe_header ++ String.concat "" shown)
                     + len r)
        /\ len (response o) <= 1400 + len note
        /\ (List.length (recommended_recipes cap) < 10 ->
            len (response o) <= 1500)).
Proof.
  intros H. unfold process_classified_message in H. split; intros A.
  - rewrite A in H.
    change (String.eqb "general_conversation" "remove_inventory") with false in H.
    change (String.eqb "general_conversation" "get_inventory") with false in H.
    change (String.eqb "general_conversation" "update_inventory") with false in H.
    change (String.eqb "general_conversation" "get_recipes") with false in H.
    cbv iota in H. unfold generate_general_response in H.
    destruct (chat_completion cap) as [text | e]; cbn [bind] in H;
      [| discriminate].
    injection H as <-. cbn [response reply]. rewrite cut_reply_idem.
    split; [apply cut_reply_len |]. exists text. split; reflexivity.
  - rewrite A in H.
    change (String.eqb "get_recipes" "remove_inventory") with false in H.
    change (String.eqb "get_recipes" "get_inventory") with false in H.
    change (String.eqb "get_recipes" "update_inventory") with false in H.
    change (String.eqb "get_recipes" "get_recipes") with true in H.
    cbv iota in H. injection H as <-. cbn [response reply].
    unfold format_recipes.
    destruct (recipes_to_show_spec (recommended_recipes cap)
                (len Msg.recipe_header)) as [rest [M [B N]]].
    assert (L : len Msg.recipe_header <= 1400) by (vm_compute; lia).
    specialize (B L).
    eexists. exists rest. cbv zeta.
    split; [exact M |]. split; [reflexivity |].
    rewrite !len_app. split; [exact B |]. split; [exact N |].
    split; [lia |].
    intros Few.
    pose proof (more_note_len
                  (List.length
                     (recipes_to_show (len Msg.recipe_header)
                        (recommended_recipes cap)))
                  _ Few).
    lia.
Qed.

Lemma reply_limits_by_intent_witness :
  process_classified_message talkative
    (Classification "general_conversation" [] false) (User [] "")
  = Ok (reply (repeat_str "a" 1497 ++ Msg.ellipsis))
  /\ len (repeat_str "a" 1497 ++ Msg.ellipsis) <= 1500
  /\ process_classified_message talkative
       (Classification "get_recipes" [] false) (User [] "")
     = Ok (reply (Msg.recipe_header ++ recipe_text stew ++ recipe_text stew
                    ++ Msg.and_more ++ "1" ++ Msg.more_recipe
                    ++ Msg.ask_for_more))
  /\ len (Msg.recipe_header ++ recipe_text stew ++ recipe_text stew
            ++ Msg.and_more ++ "1" ++ Msg.more_recipe ++ Msg.ask_for_more)
     <= 1500.
Proof.
  assert (G : process_classified_message talkative
                (Classification "general_conversation" [] false) (User [] "")
              = Ok (reply (repeat_str "a" 1497 ++ Msg.ellipsis)))
    by (vm_compute; reflexivity).
  assert (R : process_classified_message talkative
                (Classification "get_recipes" [] false) (User [] "")
              = Ok (reply (Msg.recipe_header ++ recipe_text stew
                             ++ recipe_text stew ++ Msg.and_more ++ "1"
                             ++ Msg.more_recipe ++ Msg.ask_for_more)))
    by (vm_compute; reflexivity).
  split; [exact G |]. split; [| split; [exact R |]].
  - exact (proj1 (proj1 (reply_limits_by_intent _ _ _ _ G) eq_refl)).
  - destruct (proj2 (reply_limits_by_intent _ _ _ _ R) eq_refl)
      as [shown [rest [_ [_ [_ [_ [_ Few]]]]]]].
    apply Few. cbn. lia.
Defined.

End DispatchTheorems.

Module AddTheorems.
Import PyStr PyFloat PyExc Units Inventory Spec Notions.

(** C10.  Whatever [float()] accepts is an amount in pieces: so are "-5",
    "inf" and "nan".  An Add delta with such an amount is summed like any
    other: a stock of 2 becomes "-3 piece" (which parses as -3), "inf
    piece" or "nan piece", and a new entry is stored as "-5 piece". *)
Theorem add_accepts_negative_and_non_finite :
  (forall s v, float_of_string (strip s) = Some v ->
               _parse_amount_unit s = Ok (v, "piece"))
  /\ _parse_amount_unit "-5" = Ok ((-5)%float, "piece")
  /\ _parse_amount_unit "inf" = Ok (infinity, "piece")
  /\ _parse_amount_unit "nan" = Ok (nan, "piece")
  /\ written (update_inventory lower [Item "egg" "2"] [Item "egg" "-5"])
     = Some [Item "egg" "-3 piece"]
  /\ _parse_amount_unit "-3 piece" = Ok ((-3)%float, "piece")
  /\ written (update_inventory lower [Item "egg" "2"] [Item "egg" "inf"])
     = Some [Item "egg" "inf piece"]
  /\ written (update_inventory lower [Item "egg" "2"] [Item "egg" "nan"])
     = Some [Item "egg" "nan piece"]
  /\ written (update_inventory lower [] [Item "egg" "-5"])
     = Some [Item "egg" "-5 piece"].
Proof.
  split.
  - intros s v H. rewrite UnitTheorems.parse_amount_unit_eq, H. reflexivity.
  - repeat split; vm_compute; reflexivity.
Qed.

End AddTheorems.

(* ================================================================== *)
(** * More on insertion-ordered dictionaries *)
(* ================================================================== *)

Module MoreDictFacts.
Import Units Inventory DictFacts.

Section Dict.
Context {A : Type}.
Implicit Types (d : dict A) (k : string) (v : A).

Lemma get_set_eqb k k' v d :
  get k (set k' v d) = if String.eqb k k' then Some v else get k d.
Proof.
  destruct (String.eqb k k') eqn:E.
  - apply String.eqb_eq in E. subst k'. apply get_set_same.
  - apply String.eqb_neq in E. apply get_set_other, E.
Qed.

Lemma has_key_set k k' v d :
  has_key k (set k' v d) = String.eqb k k' || has_key k d.
Proof.
  unfold has_key. rewrite get_set_eqb.
  destruct (String.eqb k k'); reflexivity.
Qed.

(** Storing what is already there changes nothing. *)
Lemma set_get_same k v d : get k d = Some v -> set k v d = d.
Proof.
  induction d as [| [k' v'] d IH]; cbn [get set]; [discriminate |].
  destruct (String.eqb k k') eqn:E.
  - apply String.eqb_eq in E. subst k'. intros H. injection H as ->.
    reflexivity.
  - intros H. rewrite (IH H). reflexivity.
Qed.

Lemma In_get_distinct k v d : NoDup (keys d) -> In (k, v) d -> get k d = Some v.
Proof.
  induction d as [| [k' v'] d IH]; cbn [keys map fst In get]; [tauto |].
  fold (keys d). intros N I. inversion N as [| ? ? Hn Hd]; subst.
  destruct I as [I | I].
  - injection I as -> ->. rewrite String.eqb_refl. reflexivity.
  - destruct (String.eqb k k') eqn:E; [| exact (IH Hd I)].
    apply String.eqb_eq in E. subst k'. exfalso. apply Hn.
    exact (in_map fst _ _ I).
Qed.

Lemma length_del k d : List.length (del k d) <= List.length d.
Proof.
  induction d as [| [k' v'] d IH]; cbn [del]; [lia |].
  destruct (String.eqb k k'); cbn [List.length]; lia.
Qed.

Lemma length_set_present k v d :
  get k d <> None -> List.length (set k v d) = List.length d.
Proof.
  induction d as [| [k' v'] d IH]; cbn [get set]; [congruence |].
  destruct (String.eqb k k'); [reflexivity |].
  intros H. cbn [List.length]. rewrite (IH H). reflexivity.
Qed.

Lemma In_values_set x k v d :
  In x (values (set k v d)) -> x = v \/ In x (values d).
Proof.
  induction d as [| [k' v'] d IH]; cbn [set values map snd In].
  - intros [<- | []]. left. reflexivity.
  - fold (values d). destruct (String.eqb k k'); cbn [map snd In].
    + fold (values d). intros [<- | H]; auto.
    + fold (values (set k v d)). intros [<- | H]; auto.
      destruct (IH H); auto.
Qed.

Lemma In_values_del x k d : In x (values (del k d)) -> In x (values d).
Proof.
  induction d as [| [k' v'] d IH]; cbn [del values map snd In]; [tauto |].
  fold (values d). destruct (String.eqb k k'); [right; auto |].
  cbn [map snd In]. fold (values (del k d)). intros [<- | H]; auto.
Qed.

Lemma get_In_values x k d : get k d = Some x -> In x (values d).
Proof.
  intros H. apply get_Some_In in H. exact (in_map snd _ _ H).
Qed.

Lemma length_set k v d : List.length (set k v d) <= S (List.length d).
Proof.
  induction d as [| [k' v'] d IH]; cbn [set List.length]; [lia |].
  destruct (String.eqb k k'); cbn [List.length]; lia.
Qed.

End Dict.
End MoreDictFacts.

(* ================================================================== *)
(** * Unit lookup and amount parsing: further properties *)
(* ================================================================== *)

Module UnitFacts.
Import PyStr PyFloat PyExc Units Spec Notions StrFacts CharFacts ParseFacts
  NumeralFacts DictFacts.

Lemma lower_char_idem (c : ascii) : lower_char (lower_char c) = lower_char c.
Proof. by_cases c. Qed.

Lemma lower_idem (s : string) : lower (lower s) = lower s.
Proof.
  induction s as [| c s IH]; cbn [lower]; [reflexivity |].
  rewrite lower_char_idem, IH. reflexivity.
Qed.

Lemma lower_rstrip_by (p : ascii -> bool) (s : string) :
  lower s = s -> lower (rstrip_by p s) = rstrip_by p s.
Proof.
  induction s as [| a s IH]; cbn [lower rstrip_by]; [reflexivity |].
  intros H. injection H as Ha Hs. specialize (IH Hs).
  destruct (rstrip_by p s) as [| b r].
  - destruct (p a); cbn [lower]; [reflexivity | rewrite Ha; reflexivity].
  - cbn [lower] in *. rewrite Ha, IH. reflexivity.
Qed.

Lemma rstrip_by_idem (p : ascii -> bool) (s : string) :
  rstrip_by p (rstrip_by p s) = rstrip_by p s.
Proof.
  induction s as [| a s IH]; cbn [rstrip_by]; [reflexivity |].
  destruct (rstrip_by p s) as [| b r] eqn:R.
  - destruct (p a) eqn:Pa; cbn [rstrip_by]; [reflexivity |].
    rewrite Pa. reflexivity.
  - cbn [rstrip_by] in *. rewrite IH. reflexivity.
Qed.

Lemma normalize_unit_idem (u : string) :
  normalize_unit (normalize_unit u) = normalize_unit u.
Proof.
  unfold normalize_unit, rstrip_char.
  rewrite (lower_rstrip_by _ (lower u) (lower_idem u)).
  apply rstrip_by_idem.
Qed.

Lemma no_plural_left (u : string) (c : ascii) :
  last_char (normalize_unit u) = Some c -> Ascii.eqb "s" c = false.
Proof.
  unfold normalize_unit, rstrip_char.
  destruct (rstrip_by_spec (Ascii.eqb "s") (lower u)) as [t [_ [_ L]]].
  apply L.
Qed.

(** ** White space around an amount *)

Lemma lstrip_blank (b : string) : all_chars is_space b = true -> lstrip b = "".
Proof.
  induction b as [| c b IH]; cbn [all_chars lstrip]; [reflexivity |].
  intros H. apply andb_prop in H as [-> H]. exact (IH H).
Qed.

Lemma rstrip_blank (p : ascii -> bool) (b : string) :
  all_chars p b = true -> rstrip_by p b = "".
Proof.
  induction b as [| c b IH]; cbn [all_chars rstrip_by]; [reflexivity |].
  intros H. apply andb_prop in H as [-> H]. rewrite (IH H). reflexivity.
Qed.

Lemma rstrip_app_blank (p : ascii -> bool) (s b : string) :
  all_chars p b = true -> rstrip_by p (s ++ b) = rstrip_by p s.
Proof.
  intros H. induction s as [| c s IH]; cbn [append rstrip_by].
  - apply rstrip_blank, H.
  - rewrite IH. reflexivity.
Qed.

Lemma strip_app_blank (s b : string) :
  all_chars is_space b = true -> strip (s ++ b) = strip s.
Proof.
  intros H. unfold strip. induction s as [| c s IH]; cbn [append lstrip].
  - rewrite (lstrip_blank b H). reflexivity.
  - destruct (is_space c); [exact IH |].
    apply (rstrip_app_blank is_space (String c s) b H).
Qed.

Lemma strip_blank_app (a s : string) :
  all_chars is_space a = true -> strip (a ++ s) = strip s.
Proof.
  unfold strip. induction a as [| c a IH]; cbn [append all_chars lstrip];
    [reflexivity |].
  intros H. apply andb_prop in H as [-> H]. exact (IH H).
Qed.

Lemma parse_amount_unit_strip (s t : string) :
  strip s = strip t -> _parse_amount_unit s = _parse_amount_unit t.
Proof. intros E. unfold _parse_amount_unit. rewrite E. reflexivity. Qed.

End UnitFacts.

Module UnitLookupTheorems.
Import PyStr PyFloat PyExc Units Spec Notions StrFacts CharFacts ParseFacts
  NumeralFacts DictFacts UnitFacts.
Import UnitTheorems.

(** X1.  For every pair of unit texts, [_convert_unit] answers exactly
    when [_validate_unit] accepts both and their canonical forms are of
    one dimension class; the answer is then
    [value * factor(from) / factor(to)] on the canonical forms. *)
Theorem convert_unit_agrees_with_validate (value : float) (a b : string) :
  _convert_unit value a b =
    match _validate_unit a, _validate_unit b with
    | (true, na), (true, nb) =>
        if dimension_eqb (dimension_of na) (dimension_of nb)
        then Some (value * factor_to_base na / factor_to_base nb)%float
        else None
    | _, _ => None
    end.
Proof.
  unfold _convert_unit, _validate_unit, has_key.
  pose proof (no_plural_left a) as La. pose proof (no_plural_left b) as Lb.
  remember (normalize_unit a) as na eqn:Ea.
  remember (normalize_unit b) as nb eqn:Eb.
  clear Ea Eb.
  destruct (get na _get_unit_conversions) as [fa |] eqn:Ga.
  2:{ destruct (get nb _get_unit_conversions);
        destruct (similar_units na); try reflexivity;
        destruct (similar_units nb); reflexivity. }
  destruct (get nb _get_unit_conversions) as [fb |] eqn:Gb;
    [| destruct (similar_units nb); reflexivity].
  apply get_Some_In in Ga. apply get_Some_In in Gb.
  cbn [_get_unit_conversions In] in Ga, Gb.
  repeat (destruct Ga as [Ga | Ga];
          [injection Ga as <- <-;
           try (exfalso; specialize (La "s"%char eq_refl); discriminate)
          | try contradiction]);
    repeat (destruct Gb as [Gb | Gb];
            [injection Gb as <- <-;
             try (exfalso; specialize (Lb "s"%char eq_refl); discriminate)
            | try contradiction]);
    vm_compute; reflexivity.
Qed.

(** X2.  The canonical unit [_validate_unit] returns is a fixed point:
    it validates to itself, and it converts as the text it came from. *)
Theorem validated_unit_is_canonical (u n : string) :
  _validate_unit u = (true, n) ->
  _validate_unit n = (true, n)
  /\ forall value w,
       _convert_unit value n w = _convert_unit value u w
       /\ _convert_unit value w n = _convert_unit value w u.
Proof.
  unfold _validate_unit, _convert_unit.
  destruct (has_key (normalize_unit u) _get_unit_conversions) eqn:K.
  2:{ destruct (similar_units (normalize_unit u)); discriminate. }
  intros H. injection H as <-.
  rewrite !normalize_unit_idem, K. auto.
Qed.

(** X3.  White space around an amount is ignored, and an amount of
    white space alone (or the empty text) is refused as invalid. *)
Theorem parse_amount_ignores_surrounding_space (a s b : string) :
  all_chars is_space a = true ->
  all_chars is_space b = true ->
  _parse_amount_unit (a ++ s ++ b) = _parse_amount_unit s
  /\ _parse_amount_unit (a ++ b)
     = Raise (ValueError "Invalid amount format: ").
Proof.
  intros A B. split.
  - apply parse_amount_unit_strip.
    rewrite (strip_blank_app a _ A). apply strip_app_blank, B.
  - rewrite (parse_amount_unit_strip (a ++ b) "");
      [reflexivity |].
    rewrite (strip_blank_app a _ A).
    rewrite <- (strip_app_blank "" b B). reflexivity.
Qed.

Lemma validated_unit_is_canonical_witness :
  _validate_unit "kg" = (true, "kg")
  /\ forall value w,
       _convert_unit value "kg" w = _convert_unit value "KGs" w
       /\ _convert_unit value w "kg" = _convert_unit value w "KGs".
Proof. apply (validated_unit_is_canonical "KGs" "kg"). reflexivity. Defined.

Lemma parse_amount_ignores_surrounding_space_witness :
  _parse_amount_unit ("  " ++ "2 kg" ++ " ") = _parse_amount_unit "2 kg"
  /\ _parse_amount_unit ("  " ++ " ")
     = Raise (ValueError "Invalid amount format: ").
Proof.
  apply (parse_amount_ignores_surrounding_space "  " "2 kg" " ");
    reflexivity.
Defined.

End UnitLookupTheorems.

(* ================================================================== *)
(** * Amounts written by [_format_unit] are read back *)
(* ================================================================== *)

Module WrittenFacts.
Import PyStr PyFloat PyExc Units Spec Notions StrFacts CharFacts ParseFacts
  NumeralFacts UnitFacts TurnNotions.
Import UnitTheorems.

(** ** Strings *)

Lemma rstrip_by_app_keep (p : ascii -> bool) (a u : string) :
  u <> "" -> rstrip_by p u = u -> rstrip_by p (a ++ u) = a ++ u.
Proof.
  intros N R. induction a as [| c a IH]; cbn [append rstrip_by]; [exact R |].
  rewrite IH. destruct (a ++ u) eqn:E; [| reflexivity].
  destruct a; cbn in E; [congruence | discriminate].
Qed.

Lemma token_nonempty (w : string) : token w -> w <> "".
Proof. intros [N _]. exact N. Qed.

Lemma strip_two_tokens (w u : string) :
  token w -> token u -> strip (w ++ " " ++ u) = w ++ " " ++ u.
Proof.
  intros Tw Tu. destruct (token_first w Tw) as [c [r [-> Hc]]].
  unfold strip. cbn [append lstrip]. rewrite Hc.
  assert (E : String c (r ++ String " " u) = (String c r ++ " ") ++ u).
  { cbn [append]. rewrite append_assoc. reflexivity. }
  rewrite E. apply rstrip_by_app_keep; [apply token_nonempty, Tu |].
  apply rstrip_by_id, Tu.
Qed.

Lemma all_chars_repeat (p : ascii -> bool) (c : ascii) (n : nat) :
  p c = true -> all_chars p (repeat_str (String c "") n) = true.
Proof.
  intros H. induction n as [| n IH]; [reflexivity |].
  cbn [repeat_str append all_chars]. rewrite H, IH. reflexivity.
Qed.

Lemma all_chars_substring (p : ascii -> bool) (s : string) : forall i j,
  all_chars p s = true -> all_chars p (substring i j s) = true.
Proof.
  induction s as [| c s IH]; intros i j H.
  - destruct i, j; reflexivity.
  - cbn [all_chars] in H. apply andb_prop in H as [Hc Hs].
    destruct i as [| i]; [destruct j as [| j] |]; cbn [substring all_chars].
    + reflexivity.
    + rewrite Hc, (IH 0 j Hs). reflexivity.
    + exact (IH i j Hs).
Qed.

Lemma substring_nonempty (s : string) : forall i j,
  i < String.length s -> 0 < j -> substring i j s <> "".
Proof.
  induction s as [| c s IH]; intros i j Li Lj; cbn [String.length] in Li;
    [lia |].
  destruct i as [| i]; [destruct j as [| j]; [lia |] |]; cbn [substring].
  - discriminate.
  - apply IH; lia.
Qed.

(** ** Digits *)

Lemma digit_char_digit (d : Z) :
  (0 <= d < 10)%Z -> is_digit (digit_char d) = true.
Proof.
  intros H.
  assert (C : (d = 0 \/ d = 1 \/ d = 2 \/ d = 3 \/ d = 4 \/ d = 5 \/ d = 6
               \/ d = 7 \/ d = 8 \/ d = 9)%Z) by lia.
  repeat (destruct C as [-> | C]; [reflexivity |]). subst d. reflexivity.
Qed.

Lemma digits_of_digits (fuel : nat) : forall z acc,
  all_chars is_digit acc = true ->
  all_chars is_digit (digits_of fuel z acc) = true.
Proof.
  induction fuel as [| f IH]; intros z acc A; cbn [digits_of]; [exact A |].
  assert (A' : all_chars is_digit (String (digit_char (z mod 10)) acc) = true).
  { cbn [all_chars]. rewrite A, digit_char_digit; [reflexivity |].
    apply Z.mod_pos_bound. lia. }
  destruct (z <? 10)%Z; [exact A' | exact (IH _ _ A')].
Qed.

Lemma digits_of_nonempty (fuel : nat) : forall z acc,
  acc <> "" -> digits_of fuel z acc <> "".
Proof.
  induction fuel as [| f IH]; intros z acc A; cbn [digits_of]; [exact A |].
  destruct (z <? 10)%Z; [discriminate | apply IH; discriminate].
Qed.

Lemma digits_of_digits1 (fuel : nat) (z : Z) :
  digits1 (digits_of (S fuel) z "").
Proof.
  split; [| apply digits_of_digits; reflexivity].
  cbn [digits_of]. destruct (z <? 10)%Z;
    [discriminate | apply digits_of_nonempty; discriminate].
Qed.

Lemma str_of_int_nonneg (z : Z) : (0 <= z)%Z -> digits1 (str_of_int z).
Proof.
  intros H. unfold str_of_int.
  destruct (z <? 0)%Z eqn:E; [apply Z.ltb_lt in E; lia |].
  apply digits_of_digits1.
Qed.

Lemma str_of_int_neg (z : Z) :
  (z < 0)%Z -> exists ds, str_of_int z = "-" ++ ds /\ digits1 ds.
Proof.
  intros H. unfold str_of_int. apply Z.ltb_lt in H. rewrite H.
  eexists. split; [reflexivity | apply digits_of_digits1].
Qed.

Lemma strip_zeros_digits1 (s : string) :
  all_chars is_digit s = true -> digits1 (strip_zeros s).
Proof.
  intros A. unfold strip_zeros.
  destruct (rstrip_by_spec (Ascii.eqb "0") s) as [t [E _]].
  destruct (rstrip_by (Ascii.eqb "0") s) as [| c r] eqn:R.
  - split; [discriminate | reflexivity].
  - split; [discriminate |]. rewrite E, all_chars_app in A.
    apply andb_prop in A as [A _]. exact A.
Qed.

(** ** What [float()] makes of a written numeral, alone or before a
       space *)

Lemma spaced_digits_stop (r : string) : spaced r -> digits_stop r.
Proof.
  intros [-> | [u ->]] c H; [discriminate |].
  injection H as <-. split; reflexivity.
Qed.

Lemma exponent_first (x r : string) :
  exponent_part x -> spaced r ->
  digits_stop (x ++ r)
  /\ forall c, first_char (x ++ r) = Some c -> Ascii.eqb c "." = false.
Proof.
  intros [-> | [sg [ds [-> _]]]] S.
  - split; [apply spaced_digits_stop, S |].
    destruct S as [-> | [u ->]]; intros c H; [discriminate |].
    injection H as <-. reflexivity.
  - split; intros c H; injection H as <-; [split |]; reflexivity.
Qed.

Lemma number_tail (n t : string) :
  unsigned_decimal n -> digits_stop t ->
  (forall c, first_char t = Some c -> Ascii.eqb c "." = false) ->
  exists ip fp, number (n ++ t) = Some (ip, fp, t).
Proof.
  intros [D | [a [b [-> [Da Db]]]]] S P.
  - exists n, "". unfold number. rewrite (digitpart_app n t D S).
    destruct t as [| c t]; [reflexivity |].
    rewrite (P c eq_refl). reflexivity.
  - exists a, b. unfold number. rewrite !append_assoc. cbn [append].
    rewrite (digitpart_app a _ Da (digits_stop_dot _)).
    change (Ascii.eqb "." ".") with true. cbv iota.
    rewrite (digitpart_app b t Db S). reflexivity.
Qed.

Lemma exponent_tail (x r : string) :
  exponent_part x -> spaced r -> exists z, exponent (x ++ r) = Some (z, r).
Proof.
  intros [-> | [sg [ds [-> [Sg D]]]]] S.
  - exists 0%Z. destruct S as [-> | [u ->]]; reflexivity.
  - pose proof (digitpart_app ds r D (spaced_digits_stop r S)) as P.
    destruct Sg as [-> | ->]; eexists; cbn [append exponent];
      change (Ascii.eqb "e" "e") with true; cbn [orb sign_opt];
      [change (Ascii.eqb "-" "-") with true
      | change (Ascii.eqb "+" "-") with false;
        change (Ascii.eqb "+" "+") with true];
      cbv iota; rewrite P; reflexivity.
Qed.

Lemma unsigned_first (n : string) :
  unsigned_decimal n -> exists c r, n = String c r /\ is_digit c = true.
Proof.
  intros [D | [a [b [-> [Da _]]]]]; [apply digits1_first, D |].
  destruct (digits1_first a Da) as [c [r [-> Hc]]]. cbn [append]. eauto.
Qed.

(** The body of [float()] once the sign is off and the text is known
    to begin with a digit. *)
Lemma float_body (neg : bool) (n x r : string) :
  unsigned_decimal n -> exponent_part x -> spaced r ->
  let body := n ++ x ++ r in
  exists v,
    (if String.eqb (lower body) "inf" || String.eqb (lower body) "infinity"
     then Some (signed_inf neg)
     else if String.eqb (lower body) "nan" then Some nan
     else
       match number body with
       | Some (ip, fp, t) =>
           match exponent t with
           | Some (e, "") =>
               Some (of_decimal neg (Z_of_digits 0 (ip ++ fp))
                       (Zlen ip + Zlen fp) (e - Zlen fp))
           | _ => None
           end
       | None => None
       end)
    = match r with "" => Some v | _ => None end.
Proof.
  intros U X S. cbn zeta.
  destruct (unsigned_first n U) as [c [n' [En Hc]]].
  destruct (digit_not_word c Hc) as [Hi Hn].
  assert (W : String.eqb (lower (n ++ x ++ r)) "inf" = false
              /\ String.eqb (lower (n ++ x ++ r)) "infinity" = false
              /\ String.eqb (lower (n ++ x ++ r)) "nan" = false).
  { rewrite En. cbn [append lower String.eqb]. rewrite Hi, Hn. auto. }
  destruct W as [-> [-> ->]]. cbn [orb].
  destruct (exponent_first x r X S) as [Sx Px].
  destruct (number_tail n (x ++ r) U Sx Px) as [ip [fp ->]].
  destruct (exponent_tail x r X S) as [z Ez].
  destruct S as [-> | [u ->]];
    [eexists | exists 0%float]; rewrite Ez; reflexivity.
Qed.

Lemma plain_token (s : string) : plain_numeral s -> token s.
Proof.
  intros [sg [n [x [-> [Sg [U X]]]]]].
  pose proof (unsigned_decimal_token n U) as [Nn An].
  split.
  - destruct Sg as [-> | ->]; [| discriminate].
    destruct n; [congruence | discriminate].
  - rewrite !all_chars_app, An.
    assert (Ax : all_chars (fun c => negb (is_space c)) x = true).
    { destruct X as [-> | [sg' [ds [-> [Sg' [_ D]]]]]]; [reflexivity |].
      cbn [append all_chars]. rewrite !all_chars_app.
      rewrite (all_chars_impl is_digit _ ds digit_nonspace D).
      destruct Sg' as [-> | ->]; reflexivity. }
    rewrite Ax. destruct Sg as [-> | ->]; reflexivity.
Qed.

Lemma written_token (s : string) : written_numeral s -> token s.
Proof.
  intros [P | [-> | [-> | ->]]]; [apply plain_token, P | | |];
    split; (discriminate || reflexivity).
Qed.

Lemma sign_of_plain (sg n t : string) :
  (sg = "" \/ sg = "-") -> unsigned_decimal n ->
  sign_opt (sg ++ n ++ t) = (if String.eqb sg "-" then true else false, n ++ t).
Proof.
  intros Sg U. destruct (unsigned_first n U) as [c [n' [-> Hc]]].
  destruct Sg as [-> | ->]; [| reflexivity].
  cbn [append sign_opt String.eqb]. destruct (digit_not_sign c Hc) as [-> ->].
  reflexivity.
Qed.

(** [float()] accepts every written numeral. *)
Lemma float_of_written (s : string) :
  written_numeral s -> exists v, float_of_string s = Some v.
Proof.
  intros [P | [-> | [-> | ->]]]; try (eexists; reflexivity).
  pose proof (plain_token s P) as T.
  destruct P as [sg [n [x [-> [Sg [U X]]]]]].
  unfold float_of_string. rewrite (strip_token _ T).
  rewrite (sign_of_plain sg n x Sg U).
  destruct (float_body (if String.eqb sg "-" then true else false) n x ""
              U X (or_introl eq_refl)) as [v E].
  cbn zeta in E. rewrite append_nil_r in E. exists v. exact E.
Qed.

(** [float()] refuses a written numeral followed by a space and a
    unit. *)
Lemma float_of_written_unit (s u : string) :
  written_numeral s -> token u -> float_of_string (s ++ " " ++ u) = None.
Proof.
  intros Ws Tu. unfold float_of_string.
  rewrite (strip_two_tokens s u (written_token s Ws) Tu).
  destruct Ws as [P | [-> | [-> | ->]]]; try reflexivity.
  destruct P as [sg [n [x [-> [Sg [U X]]]]]].
  rewrite !append_assoc. rewrite (sign_of_plain sg n _ Sg U).
  destruct (float_body (if String.eqb sg "-" then true else false) n x
              (" " ++ u) U X (or_intror (ex_intro _ u eq_refl))) as [v E].
  cbn zeta in E. exact E.
Qed.

(** The regular expression refuses a text with a space in it. *)
Lemma re_match_spaced (s u : string) :
  token u -> re_match_amount (s ++ " " ++ u) = None.
Proof.
  intros Tu.
  destruct (re_match_amount (s ++ " " ++ u)) as [[n a] |] eqn:R;
    [| reflexivity].
  exfalso. apply re_match_sound in R.
  - destruct R as [E [Un [_ Al]]].
    assert (A : all_chars (fun c => negb (is_space c)) (s ++ " " ++ u) = true).
    { rewrite E, all_chars_app.
      destruct (unsigned_decimal_token n Un) as [_ ->].
      revert Al. apply all_chars_impl. intros c. by_cases c. }
    rewrite !all_chars_app in A. cbn [all_chars] in A.
    change (negb (is_space " ")) with false in A.
    rewrite andb_false_r in A. discriminate.
  - intros c. rewrite <- append_assoc.
    rewrite last_char_app by (apply token_nonempty, Tu).
    destruct Tu as [Nu Au]. intros L.
    apply negb_true_iff.
    exact (all_chars_last (fun c => negb (is_space c)) u c Au L).
Qed.

(** ** What [str] and [repr] write *)

Lemma plain_of_digits (sg ds : string) :
  (sg = "" \/ sg = "-") -> digits1 ds -> plain_numeral (sg ++ ds).
Proof.
  intros Sg D. exists sg, ds, "". rewrite append_nil_r.
  split; [reflexivity | split; [exact Sg | split; [left; exact D | left; reflexivity]]].
Qed.

Lemma str_of_int_written (z : Z) : plain_numeral (str_of_int z).
Proof.
  destruct (Z_lt_le_dec z 0) as [N | P].
  - destruct (str_of_int_neg z N) as [ds [-> D]].
    apply plain_of_digits; auto.
  - apply (plain_of_digits "" _ (or_introl eq_refl)), str_of_int_nonneg, P.
Qed.

Lemma digits1_app (a b : string) :
  all_chars is_digit a = true -> digits1 b -> digits1 (a ++ b).
Proof.
  intros A [N B]. split.
  - destruct a; cbn [append]; [exact N | discriminate].
  - rewrite all_chars_app, A, B. reflexivity.
Qed.

Lemma digits1_app_l (a b : string) :
  digits1 a -> all_chars is_digit b = true -> digits1 (a ++ b).
Proof.
  intros [N A] B. split.
  - destruct a; [congruence | discriminate].
  - rewrite all_chars_app, A, B. reflexivity.
Qed.

Lemma layout_written (ds : string) (k : Z) :
  digits1 ds -> exists n x,
    layout ds k = n ++ x /\ unsigned_decimal n /\ exponent_part x.
Proof.
  intros D. unfold layout.
  destruct ((k <=? -4)%Z || (16 <? k)%Z).
  { (* scientific *)
    set (xs := str_of_int (Z.abs (k - 1))).
    assert (Dx : digits1 xs) by (apply str_of_int_nonneg, Z.abs_nonneg).
    assert (De : digits1 (if (Z.abs (k - 1) <? 10)%Z then "0" ++ xs else xs)).
    { destruct (Z.abs (k - 1) <? 10)%Z; [| exact Dx].
      apply (digits1_app "0"); [reflexivity | exact Dx]. }
    assert (X : exponent_part
                  ("e" ++ (if (k - 1 <? 0)%Z then "-" else "+")
                       ++ (if (Z.abs (k - 1) <? 10)%Z then "0" ++ xs else xs))).
    { right. eexists _, _. split; [reflexivity |].
      split; [destruct (k - 1 <? 0)%Z; auto | exact De]. }
    destruct D as [N A]. destruct ds as [| d r]; [congruence |].
    cbn [all_chars] in A. apply andb_prop in A as [Hd Hr].
    destruct r as [| d' r'].
    - eexists _, _. split; [reflexivity | split; [| exact X]].
      left. split; [discriminate |]. cbn [all_chars]. rewrite Hd. reflexivity.
    - exists (String d "" ++ "." ++ String d' r'). eexists.
      split; [cbn [append]; reflexivity | split; [| exact X]].
      right. exists (String d ""), (String d' r').
      split; [reflexivity | split].
      + split; [discriminate |]. cbn [all_chars]. rewrite Hd. reflexivity.
      + split; [discriminate | exact Hr]. }
  destruct (k <=? 0)%Z eqn:K0.
  { exists ("0" ++ "." ++ repeat_str "0" (Z.to_nat (- k)) ++ ds), "".
    split; [rewrite append_nil_r; reflexivity | split; [| left; reflexivity]].
    right. exists "0", (repeat_str "0" (Z.to_nat (- k)) ++ ds).
    split; [reflexivity | split].
    - split; [discriminate | reflexivity].
    - apply digits1_app; [apply all_chars_repeat; reflexivity | exact D]. }
  destruct (Zlen ds <=? k)%Z eqn:Kn.
  { exists ((ds ++ repeat_str "0" (Z.to_nat (k - Zlen ds))) ++ "." ++ "0"), "".
    split; [rewrite append_nil_r, !append_assoc; reflexivity
           | split; [| left; reflexivity]].
    right. eexists _, _. split; [reflexivity | split].
    - apply digits1_app_l; [exact D | apply all_chars_repeat; reflexivity].
    - split; [discriminate | reflexivity]. }
  apply Z.leb_gt in K0, Kn. unfold Zlen in *.
  exists (substring 0 (Z.to_nat k) ds ++ "."
            ++ substring (Z.to_nat k) (Z.to_nat (Z.of_nat (String.length ds) - k)) ds), "".
  split; [rewrite append_nil_r; reflexivity | split; [| left; reflexivity]].
  right. eexists _, _. split; [reflexivity |].
  destruct D as [N A]. split; split;
    try (apply all_chars_substring, A); apply substring_nonempty; lia.
Qed.

Lemma scale_pos (num den k : Z) :
  (0 < num)%Z -> (0 < den)%Z ->
  (0 < fst (scale num den k))%Z /\ (0 < snd (scale num den k))%Z.
Proof.
  intros Hn Hd. unfold scale. destruct (0 <=? k)%Z eqn:E; cbn [fst snd].
  - apply Z.leb_le in E. split; [| exact Hd].
    apply Z.mul_pos_pos; [exact Hn | apply Z.pow_pos_nonneg; lia].
  - apply Z.leb_gt in E. split; [exact Hn |].
    apply Z.mul_pos_pos; [exact Hd | apply Z.pow_pos_nonneg; lia].
Qed.

Lemma candidate_nonneg (x : float) (num den k n c : Z) :
  (0 < num)%Z -> (0 < den)%Z ->
  candidate x num den k n = Some c -> (0 <= c)%Z.
Proof.
  intros Hn Hd. unfold candidate.
  destruct (scale_pos num den (n - k) Hn Hd) as [Pa Pb].
  destruct (scale num den (n - k)) as [a b]. cbn [fst snd] in *.
  assert (L : (0 <= a / b)%Z) by (apply Z.div_pos; lia).
  destruct (2 * (a mod b) ?= b)%Z;
    repeat match goal with
           | |- context [if ?c then _ else _] => destruct c
           end;
    intros H; try discriminate; injection H as <-; lia.
Qed.

Lemma shortest_nonneg (x : float) (num den k : Z) (fuel : nat) : forall n,
  (0 < num)%Z -> (0 < den)%Z ->
  (0 <= fst (shortest x num den k n fuel))%Z.
Proof.
  induction fuel as [| f IH]; intros n Hn Hd; cbn [shortest];
    destruct (candidate x num den k n) as [c |] eqn:C;
    try (cbn [fst]; exact (candidate_nonneg _ _ _ _ _ _ Hn Hd C)).
  - cbn [fst]. destruct (scale_pos num den (n - k) Hn Hd).
    apply Z.div_pos; lia.
  - apply IH; assumption.
Qed.

Lemma exact_ratio_pos (m : positive) (e : Z) :
  (0 < fst (exact_ratio m e))%Z /\ (0 < snd (exact_ratio m e))%Z.
Proof.
  unfold exact_ratio. destruct (0 <=? e)%Z eqn:E; cbn [fst snd].
  - apply Z.leb_le in E. split; [| lia].
    apply Z.mul_pos_pos; [lia | apply Z.pow_pos_nonneg; lia].
  - apply Z.leb_gt in E. split; [lia | apply Z.pow_pos_nonneg; lia].
Qed.

Lemma repr_written (x : float) : written_numeral (repr x).
Proof.
  unfold repr. destruct (Prim2SF x) as [s | s | | s m e].
  - left. destruct s.
    + exists "-", ("0" ++ "." ++ "0"), "". split; [reflexivity |].
      split; [auto | split; [| left; reflexivity]].
      right. exists "0", "0". repeat split; discriminate.
    + exists "", ("0" ++ "." ++ "0"), "". split; [reflexivity |].
      split; [auto | split; [| left; reflexivity]].
      right. exists "0", "0". repeat split; discriminate.
  - destruct s; [right; right; left | right; left]; reflexivity.
  - right. right. right. reflexivity.
  - left. destruct (exact_ratio_pos m e) as [Pn Pd].
    destruct (exact_ratio m e) as [num den]. cbn [fst snd] in *.
    pose proof (shortest_nonneg x num den (decimal_point num den) 17 1 Pn Pd)
      as Pc.
    destruct (shortest x num den (decimal_point num den) 1 17) as [c n].
    cbn [fst] in Pc.
    destruct (layout_written (strip_zeros (str_of_int c))
                (if (ndigits c =? n)%Z then decimal_point num den
                 else (decimal_point num den + 1)%Z)) as [nn [xx [-> [U X]]]].
    { apply strip_zeros_digits1. apply str_of_int_nonneg, Pc. }
    exists (if s then "-" else ""), nn, xx.
    split; [reflexivity | split; [destruct s; auto | auto]].
Qed.

Lemma format_unit_written (value : float) (unit : string) :
  exists body, _format_unit value unit = body ++ " " ++ unit
               /\ written_numeral body.
Proof.
  unfold _format_unit. eexists. split; [reflexivity |].
  destruct (is_integer value); [left; apply str_of_int_written |].
  apply repr_written.
Qed.

(** An amount [_format_unit] wrote is read back by [_parse_amount_unit],
    with the unit it was written with. *)
Lemma format_unit_parses (value : float) (unit : string) :
  token unit ->
  exists v, _parse_amount_unit (_format_unit value unit) = Ok (v, unit).
Proof.
  intros T. destruct (format_unit_written value unit) as [body [-> W]].
  pose proof (written_token body W) as Tb.
  rewrite parse_amount_unit_eq, (strip_two_tokens body unit Tb T).
  rewrite (float_of_written_unit body unit W T), (re_match_spaced body unit T).
  rewrite (split_two_complete (body ++ " " ++ unit) body unit).
  - destruct (float_of_written body W) as [v ->]. exists v. reflexivity.
  - exists " ". split; [reflexivity | split; [exact Tb | split; [| exact T]]].
    split; [discriminate | reflexivity].
Qed.

(** The unit [_parse_amount_unit] returns is a token. *)
Lemma parse_unit_token (s : string) (v : float) (u : string) :
  _parse_amount_unit s = Ok (v, u) -> token u.
Proof.
  rewrite parse_amount_unit_eq.
  destruct (float_of_string (strip s)).
  - intros H. injection H as _ <-. split; [discriminate | reflexivity].
  - destruct (re_match_amount (strip s)) as [[g1 g2] |] eqn:R.
    + apply re_match_sound in R; [| apply strip_last].
      destruct R as [_ [_ [N A]]].
      unfold float_. destruct (float_of_string g1); cbn [bind];
        [| discriminate].
      intros H. injection H as _ <-. split; [exact N |].
      revert A. apply all_chars_impl. intros c. by_cases c.
    + destruct (split (strip s)) as [| p0 [| p1 [| p2 ps]]] eqn:S;
        try discriminate.
      destruct (float_of_string p0); [| discriminate].
      intros H. injection H as _ <-.
      apply split_two_sound in S; [| apply strip_stripped].
      destruct S as [ws [_ [_ [_ T]]]]. exact T.
Qed.

End WrittenFacts.

(* ================================================================== *)
(** * The stored list across an Add or a Remove *)
(* ================================================================== *)

Module LedgerFacts.
Import PyStr PyFloat PyExc Units Inventory Spec Notions DictFacts RemoveFacts
  InventoryNotions MoreDictFacts.

Section WithNormalizer.
Variable norm : string -> string.

Local Abbreviation consistent := (Notions.consistent norm).
Local Abbreviation normalized := (InventoryNotions.normalized norm).

Lemma keys_normalized (d : dict item) :
  consistent d -> keys d = normalized (values d).
Proof.
  intros [_ F]. induction d as [| [k it] d IH]; [reflexivity |].
  inversion F as [| ? ? H F']; subst. cbn in H. subst k.
  cbn. f_equal. exact (IH F').
Qed.

Lemma values_distinct (d : dict item) :
  consistent d -> NoDup (normalized (values d)).
Proof. intros C. rewrite <- keys_normalized; [apply C | exact C]. Qed.

(** Indexing a list without duplicate normalized names keys it in place. *)
Lemma index_from_distinct (inv : list item) : forall acc : dict item,
  NoDup (keys acc ++ normalized inv) ->
  fold_left (fun a it => set (norm (name it)) it a) inv acc
  = (acc ++ map (fun it => (norm (name it), it)) inv)%list.
Proof.
  induction inv as [| it inv IH]; intros acc N; cbn [fold_left map].
  - rewrite app_nil_r. reflexivity.
  - assert (G : get (norm (name it)) acc = None).
    { apply get_None_keys. intros I. cbn in N.
      apply NoDup_remove_2 in N. apply N, in_or_app. left. exact I. }
    rewrite (set_fresh _ _ _ G), IH.
    + rewrite <- app_assoc. reflexivity.
    + unfold keys. rewrite map_app, <- app_assoc. exact N.
Qed.

Lemma index_distinct (inv : list item) :
  NoDup (normalized inv) ->
  index_inventory norm inv = map (fun it => (norm (name it), it)) inv.
Proof. intros N. exact (index_from_distinct inv [] N). Qed.

Lemma values_index_distinct (inv : list item) :
  NoDup (normalized inv) -> values (index_inventory norm inv) = inv.
Proof.
  intros N. rewrite (index_distinct inv N). unfold values.
  rewrite map_map. cbn. apply map_id.
Qed.

Lemma In_values (d : dict item) (k : string) (it : item) :
  get k d = Some it -> In it (values d).
Proof.
  intros G. apply get_Some_In in G.
  exact (in_map snd _ _ G).
Qed.

Lemma In_values_get (d : dict item) (it : item) :
  consistent d -> In it (values d) -> get (norm (name it)) d = Some it.
Proof.
  intros [N F]. induction d as [| [k v] d IH]; cbn [values map snd In get];
    [tauto |].
  inversion F as [| ? ? H F']; subst. cbn in H. subst k.
  inversion N as [| ? ? Hn Hd]; subst. fold (keys d) in *.
  intros [-> | I]; [rewrite String.eqb_refl; reflexivity |].
  destruct (String.eqb (norm (name it)) (norm (name v))) eqn:E;
    [| exact (IH Hd F' I)].
  apply String.eqb_eq in E. exfalso. apply Hn. rewrite <- E.
  specialize (IH Hd F' I). apply get_Some_In in IH.
  exact (in_map fst _ _ IH).
Qed.

(** ** One addition *)

Lemma update_one_shape (st : update_state) (it : item) :
  exists r,
    u_reports (update_one norm st it) = push (u_reports st) r
    /\ has_errors (update_one norm st it) = has_errors st || has_error r
    /\ addition (name it) (norm (name it)) (u_items st)
         (u_items (update_one norm st it))
    /\ (has_error r = false ->
        get (norm (name it)) (u_items (update_one norm st it)) <> None).
Proof.
  assert (T : forall b, b || true = true) by apply orb_true_r.
  assert (F : forall b, b || false = b) by apply orb_false_r.
  pose proof (get_set_same (A := item)) as S.
  unfold update_one, update_body.
  destruct (_parse_amount_unit (amount it)) as [[nv nu] | x]; cbn [bind];
    [| eexists; split; [reflexivity |]; cbn; rewrite ?T;
       repeat split; [constructor | discriminate]].
  destruct (_validate_unit nu) as [[] msg]; cbn [negb];
    [| eexists; split; [reflexivity |]; cbn; rewrite ?T;
       repeat split; [constructor | discriminate]].
  destruct (get (norm (name it)) (u_items st)) as [cur |] eqn:G.
  2:{ eexists; split; [reflexivity |]; cbn; rewrite ?F. repeat split.
      - apply Appended. exact G.
      - intros _. rewrite S. discriminate. }
  destruct (_parse_amount_unit (amount cur)) as [[cv cu] | x]; cbn [bind];
    [| eexists; split; [reflexivity |]; cbn; rewrite ?T;
       repeat split; [constructor | discriminate]].
  destruct (_validate_unit cu) as [[] msg']; cbn [negb];
    [| eexists; split; [reflexivity |]; cbn; rewrite ?T;
       repeat split; [constructor | discriminate]].
  destruct (negb (String.eqb cu nu));
    [destruct (_convert_unit nv nu cu) |].
  - eexists; split; [reflexivity |]; cbn; rewrite ?F. repeat split.
    + eapply Summed. exact G.
    + intros _. rewrite S. discriminate.
  - eexists; split; [reflexivity |]; cbn; rewrite ?T.
    repeat split; [constructor | discriminate].
  - eexists; split; [reflexivity |]; cbn; rewrite ?F. repeat split.
    + eapply Summed. exact G.
    + intros _. rewrite S. discriminate.
Qed.

Lemma addition_consistent (nm k : string) (d d' : dict item) :
  k = norm nm -> addition nm k d d' -> consistent d -> consistent d'.
Proof.
  intros K [| cur amt G | amt G] C; auto.
  - rewrite (consistent_get norm d k cur C G) at 1.
    change (name cur) with (name (Item (name cur) amt)) at 1.
    apply consistent_set, C.
  - subst k. change nm with (name (Item nm amt)) at 1.
    apply consistent_set, C.
Qed.

Lemma addition_other (nm k k' : string) (d d' : dict item) :
  addition nm k d d' -> k' <> k -> get k' d' = get k' d.
Proof.
  intros [| cur amt G | amt G] N; auto using get_set_other.
Qed.

Lemma addition_keeps (nm k k' : string) (d d' : dict item) :
  addition nm k d d' -> get k' d <> None -> get k' d' <> None.
Proof.
  intros A H. destruct (string_dec k' k) as [-> | N].
  - destruct A; auto; rewrite get_set_same; discriminate.
  - rewrite (addition_other _ _ _ _ _ A N). exact H.
Qed.

Lemma skeleton_set_present (k : string) (cur : item) (amt : string)
    (d : dict item) :
  get k d = Some cur ->
  skeleton (set k (Item (name cur) amt) d) = skeleton d.
Proof.
  induction d as [| [k' v'] d IH]; cbn [get set]; [discriminate |].
  destruct (String.eqb k k') eqn:E.
  - apply String.eqb_eq in E. subst k'. intros H. injection H as <-.
    reflexivity.
  - intros H. cbn [skeleton map]. fold (skeleton (set k (Item (name cur) amt) d)).
    fold (skeleton d). rewrite (IH H). reflexivity.
Qed.

Lemma addition_skeleton (nm k : string) (d d' : dict item) :
  addition nm k d d' ->
  skeleton d' = skeleton d \/ skeleton d' = (skeleton d ++ [(k, nm)])%list.
Proof.
  intros [| cur amt G | amt G]; auto using skeleton_set_present.
  right. rewrite (set_fresh _ _ _ G). unfold skeleton.
  rewrite map_app. reflexivity.
Qed.

Lemma names_skeleton (d : dict item) :
  map name (values d) = map snd (skeleton d).
Proof.
  unfold values, skeleton. rewrite !map_map. reflexivity.
Qed.

(** ** The addition loop *)

Lemma update_loop_shape (items : list item) : forall st,
  let st' := update_loop norm items st in
  (consistent (u_items st) -> consistent (u_items st'))
  /\ (forall k, ~ In k (normalized items) ->
        get k (u_items st') = get k (u_items st))
  /\ (forall k, get k (u_items st) <> None -> get k (u_items st') <> None)
  /\ (exists tail,
        skeleton (u_items st') = (skeleton (u_items st) ++ tail)%list
        /\ incl (map snd tail) (map name items))
  /\ (has_errors st' = false ->
        has_errors st = false
        /\ forall it, In it items -> get (norm (name it)) (u_items st') <> None).
Proof.
  induction items as [| it items IH]; intros st; cbn zeta.
  - cbn. split; [auto | split; [auto | split; [auto | split]]].
    + exists []. rewrite app_nil_r. split; [reflexivity | intros x []].
    + intros H. split; [exact H | intros it []].
  - unfold update_loop. cbn [fold_left].
    fold (update_loop norm items (update_one norm st it)).
    destruct (update_one_shape st it) as [r [_ [E [A P]]]].
    specialize (IH (update_one norm st it)). cbn zeta in IH.
    set (fin := update_loop norm items _) in *.
    destruct IH as [C [O [K [[tail [S I]] H]]]].
    split; [| split; [| split; [| split]]].
    + intros C0. apply C. eapply addition_consistent; eauto.
    + intros k N. rewrite O.
      * eapply addition_other; [exact A |]. intros ->. apply N. left. reflexivity.
      * intros I'. apply N. right. exact I'.
    + intros k G. apply K. eapply addition_keeps; eauto.
    + destruct (addition_skeleton _ _ _ _ A) as [S1 | S1]; rewrite S, S1.
      * exists tail. split; [reflexivity |].
        intros x Hx. right. exact (I x Hx).
      * exists ((norm (name it), name it) :: tail). rewrite <- app_assoc.
        split; [reflexivity |].
        intros x [<- | Hx]; [left; reflexivity | right; exact (I x Hx)].
    + intros Hf. destruct (H Hf) as [H1 H2]. rewrite E in H1.
      apply orb_false_iff in H1. destruct H1 as [H1 Hr].
      split; [exact H1 |].
      intros it' [<- | I']; [apply K, P, Hr | exact (H2 it' I')].
Qed.

(** ** The removal loop *)

Lemma effect_other (k k' : string) (d d' : dict item) :
  effect k d d' -> k' <> k -> get k' d' = get k' d.
Proof.
  intros [| | cur amt G] N; auto using get_del_other, get_set_other.
Qed.

Lemma skeleton_del (k : string) (d : dict item) (p : string * string) :
  In p (skeleton (del k d)) -> In p (skeleton d).
Proof.
  induction d as [| [k' v'] d IH]; cbn [del]; [auto |].
  destruct (String.eqb k k'); cbn [skeleton map In];
    fold (skeleton d); fold (skeleton (del k d)); intuition.
Qed.

Lemma effect_shrinks (k : string) (d d' : dict item) :
  effect k d d' ->
  List.length d' <= List.length d
  /\ incl (skeleton d') (skeleton d).
Proof.
  intros [| | cur amt G].
  - split; [lia | apply incl_refl].
  - split; [apply length_del | intros p; apply skeleton_del].
  - rewrite length_set_present by congruence.
    rewrite (skeleton_set_present _ _ _ _ G).
    split; [lia | apply incl_refl].
Qed.

Lemma remove_loop_shrinks (items : list item) : forall (d : dict item) rs,
  let d' := fst (remove_loop norm items (d, rs)) in
  List.length d' <= List.length d
  /\ incl (skeleton d') (skeleton d)
  /\ (forall k, ~ In k (normalized items) -> get k d' = get k d).
Proof.
  induction items as [| it items IH]; intros d rs; cbn zeta.
  - cbn. repeat split; auto using incl_refl.
  - unfold remove_loop. cbn [fold_left].
    destruct (remove_one_shape norm d it) as [d1 [r [E F]]].
    rewrite E. fold (remove_loop norm items (d1, push rs r)).
    specialize (IH d1 (push rs r)). cbn zeta in IH.
    destruct IH as [L [S O]].
    destruct (effect_shrinks _ _ _ F) as [L1 S1].
    split; [lia | split].
    + eapply incl_tran; eauto.
    + intros k N. rewrite O.
      * eapply effect_other; [exact F |]. intros ->. apply N. left. reflexivity.
      * intros I. apply N. right. exact I.
Qed.

Lemma length_index_from (inv : list item) : forall acc : dict item,
  List.length (fold_left (fun a it => set (norm (name it)) it a) inv acc)
  <= List.length acc + List.length inv.
Proof.
  induction inv as [| it inv IH]; intros acc; cbn [fold_left List.length];
    [lia |].
  specialize (IH (set (norm (name it)) it acc)).
  assert (List.length (set (norm (name it)) it acc) <= S (List.length acc)).
  { destruct (get (norm (name it)) acc) eqn:G.
    - rewrite length_set_present by congruence. lia.
    - rewrite (set_fresh _ _ _ G), length_app. cbn. lia. }
  lia.
Qed.

Lemma index_members (inv : list item) : forall acc : dict item,
  incl (values (fold_left (fun a it => set (norm (name it)) it a) inv acc))
       (values acc ++ inv).
Proof.
  induction inv as [| it inv IH]; intros acc; cbn [fold_left].
  - rewrite app_nil_r. apply incl_refl.
  - intros x Hx. apply IH in Hx. apply in_app_or in Hx.
    destruct Hx as [Hx | Hx]; [| apply in_or_app; right; right; exact Hx].
    assert (M : forall d : dict item,
               In x (values (set (norm (name it)) it d)) ->
               x = it \/ In x (values d)).
    { clear. induction d as [| [k' v'] d IH]; cbn [set values map snd In].
      - intros [<- | []]. left. reflexivity.
      - destruct (String.eqb _ k'); cbn [map snd In]; fold (values d);
          fold (values (set (norm (name it)) it d)); intros [<- | H]; auto.
        destruct (IH H); auto. }
    destruct (M acc Hx) as [-> | H]; apply in_or_app;
      [right; left; reflexivity | left; exact H].
Qed.

(** ** Refusals *)

Lemma remove_one_refusal (d : dict item) (it : item) :
  exists d' r,
    (forall rs, remove_one norm (d, rs) it = (d', push rs r))
    /\ (refused r = true -> d' = d).
Proof.
  unfold remove_one.
  destruct (get (norm (name it)) d) as [cur |] eqn:G;
    [| do 2 eexists; split; [reflexivity | reflexivity]].
  destruct (String.eqb (lower (amount it)) "all");
    [do 2 eexists; split; [reflexivity | discriminate] |].
  unfold remove_partial.
  destruct (_parse_amount_unit (amount cur)) as [[cv cu] | e]; cbn [bind];
    [| do 2 eexists; split; [reflexivity | discriminate]].
  destruct (_parse_amount_unit (amount it)) as [[rv ru] | e]; cbn [bind];
    [| do 2 eexists; split; [reflexivity | discriminate]].
  destruct (if negb (String.eqb cu ru) then _convert_unit rv ru cu else Some rv)
    as [rv' |]; [| do 2 eexists; split; [reflexivity | reflexivity]].
  destruct (rv' <? cv)%float;
    [do 2 eexists; split; [reflexivity | discriminate] |].
  destruct (cv =? rv')%float;
    do 2 eexists; split; try reflexivity; discriminate.
Qed.

Lemma remove_loop_refusals (items : list item) : forall (d : dict item),
  exists d' rs',
    (forall rs, remove_loop norm items (d, rs) = (d', (rs ++ rs')%list))
    /\ (forallb refused rs' = true -> d' = d).
Proof.
  induction items as [| it items IH]; intros d.
  - exists d, []. split; [| auto].
    intros rs. cbn. rewrite app_nil_r. reflexivity.
  - destruct (remove_one_refusal d it) as [d1 [r [E1 F1]]].
    destruct (IH d1) as [d2 [rs2 [E2 F2]]].
    exists d2, (r :: rs2). split.
    + intros rs. unfold remove_loop in *. cbn [fold_left].
      rewrite E1, E2. unfold push. rewrite <- app_assoc. reflexivity.
    + cbn [forallb]. intros H. apply andb_true_iff in H.
      destruct H as [H1 H2]. rewrite (F2 H2). exact (F1 H1).
Qed.

End WithNormalizer.
End LedgerFacts.

Module LedgerTheorems.
Import PyStr PyFloat PyExc Units Inventory Spec Notions DictFacts RemoveFacts
  InventoryNotions LedgerFacts.

Section WithNormalizer.
Variable norm : string -> string.

Local Abbreviation normalized := (InventoryNotions.normalized norm).

(** X4.  Whatever either handler hands to the store has pairwise distinct
    normalized names: the list is rebuilt from the mapping keyed by
    normalized name, so duplicates of the stored list are merged on the
    first call. *)
Theorem written_names_are_distinct (inv batch : list item) (flag : bool) :
  (forall l, written (remove_inventory norm inv batch flag) = Some l ->
             NoDup (normalized l))
  /\ (forall l, written (update_inventory norm inv batch) = Some l ->
                NoDup (normalized l)).
Proof.
  split; intros l.
  - unfold remove_inventory.
    destruct (remove_loop_shape norm batch (index_inventory norm inv))
      as [d' [rs' [E [_ [C _]]]]].
    rewrite (E []). cbn [written]. intros H. injection H as <-.
    apply values_distinct, C, consistent_index.
  - unfold update_inventory. cbn [written].
    destruct (update_loop_shape norm batch
                (UpdateState (index_inventory norm inv) [] false)) as [C _].
    destruct (has_errors _); [discriminate |].
    intros H. injection H as <-.
    apply values_distinct, C, consistent_index.
Qed.

(** X5.  A successful Add keeps every stored entry in its place under its
    stored name and appends the new entries after them, each under the
    name of an item of the batch: nothing is dropped or reordered. *)
Theorem add_appends_after_stored_entries (inv batch l : list item) :
  NoDup (normalized inv) ->
  written (update_inventory norm inv batch) = Some l ->
  exists added,
    map name l = (map name inv ++ added)%list
    /\ incl added (map name batch).
Proof.
  intros N. unfold update_inventory. cbn [written].
  destruct (update_loop_shape norm batch
              (UpdateState (index_inventory norm inv) [] false))
    as [_ [_ [_ [[tail [S I]] _]]]].
  cbn [u_items] in S.
  destruct (has_errors _); [discriminate |].
  intros H. injection H as <-.
  exists (map snd tail). split; [| exact I].
  rewrite names_skeleton, S, map_app, <- names_skeleton.
  rewrite (values_index_distinct norm inv N). reflexivity.
Qed.

(** X6.  On an inventory whose entries have pairwise distinct normalized
    names, an entry whose normalized name matches no item of the batch is
    in the stored list after the call exactly as it was, by Add and by
    Remove alike. *)
Theorem unrelated_entries_are_kept (inv batch : list item) (flag : bool)
    (it : item) :
  NoDup (normalized inv) ->
  In it inv ->
  ~ In (norm (name it)) (normalized batch) ->
  In it (stored_after inv (remove_inventory norm inv batch flag))
  /\ In it (stored_after inv (update_inventory norm inv batch)).
Proof.
  intros N I U.
  assert (G : get (norm (name it)) (index_inventory norm inv) = Some it).
  { apply In_values_get; [apply consistent_index |].
    rewrite (values_index_distinct norm inv N). exact I. }
  split.
  - unfold remove_inventory, stored_after.
    pose proof (remove_loop_shrinks norm batch (index_inventory norm inv) [])
      as [_ [_ O]].
    destruct (remove_loop norm batch (index_inventory norm inv, []))
      as [d' rs]. cbn [fst written] in *.
    apply (In_values d' (norm (name it))). rewrite (O _ U). exact G.
  - unfold update_inventory, stored_after. cbn [written].
    destruct (update_loop_shape norm batch
                (UpdateState (index_inventory norm inv) [] false))
      as [_ [O _]].
    cbn [u_items] in O.
    destruct (has_errors _); [exact I |].
    apply (In_values _ (norm (name it))). rewrite (O _ U). exact G.
Qed.

(** X7.  After a successful Add every item of the batch is in the stored
    list, under its normalized name. *)
Theorem add_stores_every_item (inv batch l : list item) :
  written (update_inventory norm inv batch) = Some l ->
  forall it, In it batch ->
    exists e, In e l /\ norm (name e) = norm (name it).
Proof.
  unfold update_inventory. cbn [written].
  destruct (update_loop_shape norm batch
              (UpdateState (index_inventory norm inv) [] false))
    as [C [_ [_ [_ P]]]].
  cbn [u_items] in *.
  destruct (has_errors _); [discriminate |].
  intros H it I. injection H as <-.
  destruct (P eq_refl) as [_ Q]. specialize (Q it I).
  destruct (get (norm (name it)) _) as [e |] eqn:G; [| congruence].
  exists e. split; [exact (In_values _ _ _ G) |].
  symmetry. eapply consistent_get; [| exact G].
  apply C, consistent_index.
Qed.

Lemma remove_all_clears_key (d : dict item) (rs : list report) (it : item) :
  lower (amount it) = "all" ->
  get (norm (name it)) (fst (remove_one norm (d, rs) it)) = None.
Proof.
  intros A. unfold remove_one.
  destruct (get (norm (name it)) d) eqn:G; [| exact G].
  rewrite A. cbn [String.eqb Ascii.eqb Bool.eqb fst]. apply get_del_same.
Qed.

Lemma remove_loop_clears (items : list item) : forall (d : dict item) rs k,
  Forall (fun it => lower (amount it) = "all") items ->
  In k (normalized items) ->
  get k (fst (remove_loop norm items (d, rs))) = None.
Proof.
  induction items as [| it items IH]; intros d rs k A I; [destruct I |].
  inversion A as [| ? ? A1 A2]; subst.
  unfold remove_loop. cbn [fold_left].
  pose proof (remove_all_clears_key d rs it A1) as G.
  destruct (remove_one norm (d, rs) it) as [d1 rs1]. cbn [fst] in G.
  fold (remove_loop norm items (d1, rs1)).
  destruct (string_dec k (norm (name it))) as [-> | Nk].
  - destruct (remove_loop_shape norm items d1) as [d2 [rs2 [E [_ [_ K]]]]].
    rewrite (E rs1). cbn [fst]. exact (K _ G).
  - destruct I as [I | I]; [congruence |]. exact (IH d1 rs1 k A2 I).
Qed.

(** X10.  Asking for "all" (in any letter case) of every stored name
    empties the inventory. *)
Theorem removing_all_of_each_empties (inv batch : list item) (flag : bool) :
  Forall (fun it => lower (amount it) = "all") batch ->
  incl (normalized inv) (normalized batch) ->
  written (remove_inventory norm inv batch flag) = Some [].
Proof.
  intros A I. unfold remove_inventory.
  pose proof (fun k => remove_loop_clears batch (index_inventory norm inv) [] k A)
    as K.
  destruct (remove_loop_shape norm batch (index_inventory norm inv))
    as [d' [rs' [E [_ [C N]]]]].
  rewrite (E []) in *. cbn [fst written] in *.
  destruct d' as [| [k v] d']; [reflexivity |]. exfalso.
  assert (G : get k ((k, v) :: d') = None).
  { destruct (get k (index_inventory norm inv)) as [e |] eqn:G;
      [| exact (N _ G)].
    apply K, I.
    rewrite (consistent_get norm _ _ _ (consistent_index norm inv) G).
    apply (in_map (fun it => norm (name it))).
    pose proof (index_members norm inv [] e) as M. cbn in M. apply M.
    exact (In_values _ _ _ G). }
  cbn [get] in G. rewrite String.eqb_refl in G. discriminate.
Qed.

End WithNormalizer.

Lemma add_appends_after_stored_entries_witness :
  exists added,
    map name [Item "Rice" "3 kg"; Item "salt" "1 kg"; Item "Egg" "6 piece"]
    = (map name [Item "Rice" "2 kg"; Item "salt" "1 kg"] ++ added)%list
    /\ incl added (map name [Item "rice" "1 kg"; Item "Egg" "6"]).
Proof.
  apply (add_appends_after_stored_entries lower
           [Item "Rice" "2 kg"; Item "salt" "1 kg"]
           [Item "rice" "1 kg"; Item "Egg" "6"]).
  - repeat constructor; cbn; intuition discriminate.
  - vm_compute. reflexivity.
Defined.

Lemma unrelated_entries_are_kept_witness :
  In (Item "salt" "1 kg")
     (stored_after [Item "Rice" "2 kg"; Item "salt" "1 kg"]
        (remove_inventory lower [Item "Rice" "2 kg"; Item "salt" "1 kg"]
           [Item "rice" "1 kg"] false))
  /\ In (Item "salt" "1 kg")
       (stored_after [Item "Rice" "2 kg"; Item "salt" "1 kg"]
          (update_inventory lower [Item "Rice" "2 kg"; Item "salt" "1 kg"]
             [Item "rice" "1 kg"])).
Proof.
  apply (unrelated_entries_are_kept lower).
  - repeat constructor; cbn; intuition discriminate.
  - right. left. reflexivity.
  - cbn. intuition discriminate.
Defined.

Lemma add_stores_every_item_witness :
  exists e,
    In e [Item "Rice" "3 kg"; Item "Egg" "6 piece"]
    /\ lower (name e) = lower "Egg".
Proof.
  apply (add_stores_every_item lower [Item "Rice" "2 kg"]
           [Item "rice" "1 kg"; Item "Egg" "6"]
           [Item "Rice" "3 kg"; Item "Egg" "6 piece"])
    with (it := Item "Egg" "6").
  - vm_compute. reflexivity.
  - right. left. reflexivity.
Defined.

Lemma removing_all_of_each_empties_witness :
  written (remove_inventory lower [Item "Rice" "2 kg"; Item "milk" "1 l"]
             [Item "MILK" "All"; Item "rice" "ALL"; Item "eggs" "all"] true)
  = Some [].
Proof.
  apply (removing_all_of_each_empties lower).
  - repeat constructor.
  - intros k. cbn. intuition.
Defined.

End LedgerTheorems.

Module WrittenTheorems.
Import PyStr PyFloat PyExc Units Inventory Spec Notions DictFacts RemoveFacts
  InventoryNotions WrittenFacts.

Section WithNormalizer.
Variable norm : string -> string.

Local Abbreviation readable := (Forall (fun kv : string * item => parseable (snd kv))).

Lemma formatted_parseable (nm : string) (value : float) (s : string)
    (v : float) (u : string) :
  _parse_amount_unit s = Ok (v, u) ->
  parseable (Item nm (_format_unit value u)).
Proof.
  intros P. destruct (format_unit_parses value u (parse_unit_token s v u P))
    as [v' E].
  exists v', u. exact E.
Qed.

Lemma index_readable (inv : list item) :
  Forall parseable inv -> readable (index_inventory norm inv).
Proof.
  unfold index_inventory.
  assert (G : forall acc : dict item,
             readable acc -> Forall parseable inv ->
             readable (fold_left
                         (fun a it => set (norm (name it)) it a) inv acc)).
  { induction inv as [| it inv IH]; intros acc A F; cbn [fold_left]; auto.
    inversion F; subst. apply IH; [apply Forall_set |]; auto. }
  apply G. constructor.
Qed.

Lemma values_readable (d : dict item) :
  readable d -> Forall parseable (values d).
Proof. intros F. unfold values. apply Forall_map. exact F. Qed.

Lemma remove_one_readable (d : dict item) (rs : list report) (it : item) :
  readable d -> readable (fst (remove_one norm (d, rs) it)).
Proof.
  intros F. unfold remove_one.
  destruct (get (norm (name it)) d) as [cur |] eqn:G; [| exact F].
  destruct (String.eqb (lower (amount it)) "all");
    [apply Forall_del, F |].
  unfold remove_partial.
  destruct (_parse_amount_unit (amount cur)) as [[cv cu] | e] eqn:Pc;
    cbn [bind]; [| apply Forall_del, F].
  destruct (_parse_amount_unit (amount it)) as [[rv ru] | e]; cbn [bind];
    [| apply Forall_del, F].
  destruct (if negb (String.eqb cu ru) then _convert_unit rv ru cu else Some rv)
    as [rv' |]; [| exact F].
  destruct (rv' <? cv)%float.
  - cbn [fst]. apply Forall_set; [| exact F].
    exact (formatted_parseable _ _ _ _ _ Pc).
  - destruct (cv =? rv')%float; [apply Forall_del, F | exact F].
Qed.

Lemma remove_loop_readable (items : list item) :
  forall (d : dict item) (rs : list report),
  readable d -> readable (fst (remove_loop norm items (d, rs))).
Proof.
  induction items as [| it items IH]; intros d rs F; [exact F |].
  unfold remove_loop. cbn [fold_left].
  pose proof (remove_one_readable d rs it F) as F1. revert F1.
  destruct (remove_one norm (d, rs) it) as [d1 rs1].
  exact (IH d1 rs1).
Qed.

Lemma update_one_readable (st : update_state) (it : item) :
  readable (u_items st) -> readable (u_items (update_one norm st it)).
Proof.
  intros F. unfold update_one, update_body.
  destruct (_parse_amount_unit (amount it)) as [[nv nu] | x] eqn:Pn;
    cbn [bind]; [| exact F].
  destruct (_validate_unit nu) as [[] msg]; cbn [negb]; [| exact F].
  destruct (get (norm (name it)) (u_items st)) as [cur |].
  2:{ cbn [u_items]. apply Forall_set; [| exact F].
      exact (formatted_parseable _ _ _ _ _ Pn). }
  destruct (_parse_amount_unit (amount cur)) as [[cv cu] | x] eqn:Pc;
    cbn [bind]; [| exact F].
  destruct (_validate_unit cu) as [[] msg']; cbn [negb]; [| exact F].
  destruct (negb (String.eqb cu nu));
    [destruct (_convert_unit nv nu cu) |]; cbn [u_items fail_item];
    try exact F;
    (apply Forall_set; [| exact F]);
    exact (formatted_parseable _ _ _ _ _ Pc).
Qed.

Lemma update_loop_readable (items : list item) : forall st,
  readable (u_items st) -> readable (u_items (update_loop norm items st)).
Proof.
  induction items as [| it items IH]; intros st F; [exact F |].
  unfold update_loop. cbn [fold_left].
  exact (IH _ (update_one_readable st it F)).
Qed.

(** X11.  A unit [_parse_amount_unit] returns is never empty and holds no
    white space, and it survives being written: whatever value
    [_format_unit] writes with it is read back with that same unit. *)
Theorem parsed_unit_survives_formatting (s : string) (v : float)
    (u : string) :
  _parse_amount_unit s = Ok (v, u) ->
  token u
  /\ forall value, exists v',
       _parse_amount_unit (_format_unit value u) = Ok (v', u).
Proof.
  intros P. pose proof (parse_unit_token s v u P) as T.
  split; [exact T |]. intros value. exact (format_unit_parses value u T).
Qed.

(** X12.  Readable amounts stay readable: if every stored amount is
    accepted by [_parse_amount_unit], so is every amount stored after a
    Remove or an Add, whatever the batch.  The handlers never write an
    amount they could not read again (which Remove would answer by
    deleting the entry). *)
Theorem stored_amounts_stay_readable (inv batch : list item) (flag : bool) :
  Forall parseable inv ->
  Forall parseable (stored_after inv (remove_inventory norm inv batch flag))
  /\ Forall parseable (stored_after inv (update_inventory norm inv batch)).
Proof.
  intros F. pose proof (index_readable inv F) as I. split.
  - unfold remove_inventory, stored_after.
    pose proof (remove_loop_readable batch _ [] I) as R. revert R.
    destruct (remove_loop norm batch (index_inventory norm inv, []))
      as [d' rs]. cbn [fst written]. apply values_readable.
  - unfold update_inventory, stored_after. cbn [written].
    pose proof (update_loop_readable batch
                  (UpdateState (index_inventory norm inv) [] false) I) as R.
    destruct (has_errors _); [exact F | apply values_readable, R].
Qed.

(** ** The unit of a stored entry *)

Lemma measured_formatted (nm cu : string) (cur : item) (cv value : float)
    (cu' : string) :
  measured_in nm cu cur ->
  _parse_amount_unit (amount cur) = Ok (cv, cu') ->
  measured_in nm cu (Item (name cur) (_format_unit value cu')).
Proof.
  intros [N [v P]] P'. rewrite P in P'. injection P' as _ <-.
  split; [exact N |].
  exact (format_unit_parses value cu (parse_unit_token _ _ _ P)).
Qed.

Lemma remove_one_unit (k nm cu : string) (d : dict item) (rs : list report)
    (it : item) :
  (forall e, get k d = Some e -> measured_in nm cu e) ->
  forall e, get k (fst (remove_one norm (d, rs) it)) = Some e ->
            measured_in nm cu e.
Proof.
  intros H.
  assert (D : forall k0 e, get k (del k0 d) = Some e -> measured_in nm cu e).
  { intros k0 e. destruct (string_dec k k0) as [<- | N].
    - rewrite get_del_same. discriminate.
    - rewrite get_del_other by exact N. apply H. }
  unfold remove_one.
  destruct (get (norm (name it)) d) as [cur |] eqn:G; [| exact H].
  destruct (String.eqb (lower (amount it)) "all"); [apply D |].
  unfold remove_partial.
  destruct (_parse_amount_unit (amount cur)) as [[cv cu'] | x] eqn:Pc;
    cbn [bind]; [| apply D].
  destruct (_parse_amount_unit (amount it)) as [[rv ru] | x]; cbn [bind];
    [| apply D].
  destruct (if negb (String.eqb cu' ru) then _convert_unit rv ru cu'
            else Some rv) as [rv' |]; [| exact H].
  destruct (rv' <? cv)%float.
  - cbn [fst]. intros e. destruct (string_dec k (norm (name it))) as [-> | N].
    + rewrite get_set_same. intros E. injection E as <-.
      exact (measured_formatted _ _ _ _ _ _ (H _ G) Pc).
    + rewrite get_set_other by exact N. apply H.
  - destruct (cv =? rv')%float; [apply D | exact H].
Qed.

Lemma remove_loop_unit (k nm cu : string) (items : list item) :
  forall (d : dict item) (rs : list report),
  (forall e, get k d = Some e -> measured_in nm cu e) ->
  forall e, get k (fst (remove_loop norm items (d, rs))) = Some e ->
            measured_in nm cu e.
Proof.
  induction items as [| it items IH]; intros d rs H; [exact H |].
  unfold remove_loop. cbn [fold_left].
  pose proof (remove_one_unit k nm cu d rs it H) as H1. revert H1.
  destruct (remove_one norm (d, rs) it) as [d1 rs1].
  exact (IH d1 rs1).
Qed.

Lemma update_one_unit (k nm cu : string) (st : update_state) (it : item) :
  (exists e, get k (u_items st) = Some e /\ measured_in nm cu e) ->
  exists e, get k (u_items (update_one norm st it)) = Some e
            /\ measured_in nm cu e.
Proof.
  intros H. unfold update_one, update_body.
  destruct (_parse_amount_unit (amount it)) as [[nv nu] | x] eqn:Pn;
    cbn [bind]; [| exact H].
  destruct (_validate_unit nu) as [[] msg]; cbn [negb]; [| exact H].
  assert (S : forall cur cv cu' value,
             get (norm (name it)) (u_items st) = Some cur ->
             _parse_amount_unit (amount cur) = Ok (cv, cu') ->
             exists e,
               get k (set (norm (name it))
                        (Item (name cur) (_format_unit value cu'))
                        (u_items st)) = Some e
               /\ measured_in nm cu e).
  { intros cur cv cu' value G Pc. destruct H as [e [Ge Me]].
    destruct (string_dec k (norm (name it))) as [-> | N].
    - rewrite get_set_same. eexists. split; [reflexivity |].
      rewrite Ge in G. injection G as ->.
      exact (measured_formatted _ _ _ _ _ _ Me Pc).
    - rewrite get_set_other by exact N. eauto. }
  destruct (get (norm (name it)) (u_items st)) as [cur |] eqn:G.
  2:{ cbn [u_items]. destruct H as [e [Ge Me]].
      destruct (string_dec k (norm (name it))) as [-> | N]; [congruence |].
      rewrite get_set_other by exact N. eauto. }
  destruct (_parse_amount_unit (amount cur)) as [[cv cu'] | x] eqn:Pc;
    cbn [bind]; [| exact H].
  destruct (_validate_unit cu') as [[] msg']; cbn [negb]; [| exact H].
  destruct (negb (String.eqb cu' nu));
    [destruct (_convert_unit nv nu cu') |]; cbn [u_items fail_item];
    try exact H; exact (S _ _ _ _ eq_refl Pc).
Qed.

Lemma update_loop_unit (k nm cu : string) (items : list item) : forall st,
  (exists e, get k (u_items st) = Some e /\ measured_in nm cu e) ->
  exists e, get k (u_items (update_loop norm items st)) = Some e
            /\ measured_in nm cu e.
Proof.
  induction items as [| it items IH]; intros st H; [exact H |].
  unfold update_loop. cbn [fold_left].
  exact (IH _ (update_one_unit k nm cu st it H)).
Qed.

(** X13.  On an inventory whose entries have pairwise distinct
    normalized names, the name and the unit of a stored entry never
    change: after a Remove, an entry filed under the same normalized name
    (if one is left) still carries the stored name and an amount read in
    the stored unit; after an Add there is such an entry, the added
    amount having been converted into the stored unit. *)
Theorem stored_name_and_unit_never_change (inv batch : list item)
    (flag : bool) (cur : item) (cv : float) (cu : string) :
  NoDup (InventoryNotions.normalized norm inv) ->
  In cur inv ->
  _parse_amount_unit (amount cur) = Ok (cv, cu) ->
  (forall e,
     In e (stored_after inv (remove_inventory norm inv batch flag)) ->
     norm (name e) = norm (name cur) ->
     measured_in (name cur) cu e)
  /\ exists e,
       In e (stored_after inv (update_inventory norm inv batch))
       /\ norm (name e) = norm (name cur)
       /\ measured_in (name cur) cu e.
Proof.
  intros N I P.
  assert (M : measured_in (name cur) cu cur) by (split; eauto).
  assert (G : get (norm (name cur)) (index_inventory norm inv) = Some cur).
  { apply LedgerFacts.In_values_get; [apply consistent_index |].
    rewrite (LedgerFacts.values_index_distinct norm inv N). exact I. }
  split.
  - unfold remove_inventory, stored_after.
    pose proof (remove_loop_unit (norm (name cur)) (name cur) cu batch
                  (index_inventory norm inv) []) as R.
    destruct (remove_loop_shape norm batch (index_inventory norm inv))
      as [d' [rs' [E [_ [C _]]]]].
    rewrite (E []) in *. cbn [fst written] in *.
    intros e Ie Ne. apply R.
    + intros e0 G0. rewrite G in G0. injection G0 as <-. exact M.
    + rewrite <- Ne. apply LedgerFacts.In_values_get; [| exact Ie].
      apply C, consistent_index.
  - unfold update_inventory, stored_after. cbn [written].
    destruct (update_loop_unit (norm (name cur)) (name cur) cu batch
                (UpdateState (index_inventory norm inv) [] false))
      as [e [Ge Me]]; [exists cur; auto |].
    destruct (has_errors _); [exists cur; auto |].
    exists e. split; [exact (LedgerFacts.In_values _ _ _ Ge) |].
    split; [| exact Me].
    destruct (LedgerFacts.update_loop_shape norm batch
                (UpdateState (index_inventory norm inv) [] false)) as [C _].
    symmetry. eapply consistent_get; [| exact Ge].
    apply C, consistent_index.
Qed.

End WithNormalizer.

Lemma stored_name_and_unit_never_change_witness :
  (forall e,
     In e (stored_after [Item "Rice" "2 kg"]
             (remove_inventory lower [Item "Rice" "2 kg"]
                [Item "rice" "500 g"] false)) ->
     lower (name e) = lower "Rice" ->
     measured_in "Rice" "kg" e)
  /\ exists e,
       In e (stored_after [Item "Rice" "2 kg"]
               (update_inventory lower [Item "Rice" "2 kg"]
                  [Item "rice" "500 g"]))
       /\ lower (name e) = lower "Rice"
       /\ measured_in "Rice" "kg" e.
Proof.
  apply (stored_name_and_unit_never_change lower [Item "Rice" "2 kg"]
           [Item "rice" "500 g"] false (Item "Rice" "2 kg") 2%float "kg").
  - repeat constructor. intros [].
  - left. reflexivity.
  - vm_compute. reflexivity.
Defined.

Lemma parsed_unit_survives_formatting_witness :
  token "kg"
  /\ forall value, exists v',
       _parse_amount_unit (_format_unit value "kg") = Ok (v', "kg").
Proof.
  apply (parsed_unit_survives_formatting "2 kg" 2%float "kg").
  vm_compute. reflexivity.
Defined.

Lemma stored_amounts_stay_readable_witness :
  Forall parseable
    (stored_after [Item "Rice" "2 kg"]
       (remove_inventory lower [Item "Rice" "2 kg"] [Item "rice" "500 g"]
          false))
  /\ Forall parseable
       (stored_after [Item "Rice" "2 kg"]
          (update_inventory lower [Item "Rice" "2 kg"] [Item "rice" "500 g"])).
Proof.
  apply (stored_amounts_stay_readable lower).
  constructor; [| constructor].
  exists 2%float, "kg". vm_compute. reflexivity.
Defined.

End WrittenTheorems.

(* ================================================================== *)
(** * The inventory listing: grouping, filtering and sorting *)
(* ================================================================== *)

Module ListingFacts.
Import PyStr PyExc Units Inventory Dispatch Notions DictFacts MoreDictFacts
  InventoryNotions.

Section Groups.
Context {A : Type}.
Implicit Types (d : dict A) (k : string) (v : A).

Lemma In_insert_sorted (x kv : string * A) d :
  In x (insert_sorted kv d) <-> x = kv \/ In x d.
Proof.
  induction d as [| kv' d IH]; cbn [insert_sorted In]; [intuition |].
  destruct (String.leb (fst kv) (fst kv')); cbn [In]; [intuition |].
  rewrite IH. intuition.
Qed.

Lemma In_sorted_items (x : string * A) d : In x (sorted_items d) <-> In x d.
Proof.
  induction d as [| kv d IH]; cbn [sorted_items fold_right In]; [tauto |].
  fold (sorted_items d). rewrite In_insert_sorted, IH. intuition.
Qed.

Lemma length_insert_sorted (kv : string * A) d :
  List.length (insert_sorted kv d) = S (List.length d).
Proof.
  induction d as [| kv' d IH]; cbn [insert_sorted List.length]; [reflexivity |].
  destruct (String.leb (fst kv) (fst kv')); cbn [List.length];
    [reflexivity | rewrite IH; reflexivity].
Qed.

Lemma length_sorted_items d : List.length (sorted_items d) = List.length d.
Proof.
  induction d as [| kv d IH]; cbn [sorted_items fold_right List.length];
    [reflexivity |].
  fold (sorted_items d). rewrite length_insert_sorted, IH. reflexivity.
Qed.

Lemma insert_sorted_sorted (kv : string * A) d :
  Sorted by_key d -> Sorted by_key (insert_sorted kv d).
Proof.
  induction d as [| kv' d IH]; cbn [insert_sorted]; intros S.
  - repeat constructor.
  - destruct (String.leb (fst kv) (fst kv')) eqn:E.
    + constructor; [exact S | constructor; exact E].
    + inversion S as [| ? ? S' H]; subst.
      constructor; [exact (IH S') |].
      assert (L : by_key kv' kv).
      { destruct (String.leb_total (fst kv) (fst kv')); [congruence | auto]. }
      destruct d as [| kv2 d]; cbn [insert_sorted].
      * constructor. exact L.
      * destruct (String.leb (fst kv) (fst kv2)); constructor;
          [exact L | inversion H; auto].
Qed.

Lemma sorted_items_sorted d : Sorted by_key (sorted_items d).
Proof.
  induction d as [| kv d IH]; cbn [sorted_items fold_right]; [constructor |].
  apply insert_sorted_sorted, IH.
Qed.

Lemma NoDup_keys_insert (kv : string * A) d :
  NoDup (keys (kv :: d)) -> NoDup (keys (insert_sorted kv d)).
Proof.
  induction d as [| kv' d IH]; cbn [insert_sorted]; [auto |].
  destruct (String.leb (fst kv) (fst kv')); [auto |].
  cbn [keys map]. fold (keys d). fold (keys (insert_sorted kv d)).
  intros N. inversion N as [| ? ? H1 N1]; subst.
  inversion N1 as [| ? ? H2 N2]; subst.
  constructor.
  - intros I. unfold keys in I. apply in_map_iff in I.
    destruct I as [x [E I]]. apply In_insert_sorted in I.
    destruct I as [-> | I]; [apply H1; left; auto |].
    apply H2. rewrite <- E. exact (in_map fst _ _ I).
  - apply IH. cbn [keys map]. constructor; [| exact N2].
    intros I. apply H1. right. exact I.
Qed.

Lemma NoDup_keys_sorted d : NoDup (keys d) -> NoDup (keys (sorted_items d)).
Proof.
  induction d as [| kv d IH]; [auto |].
  change (sorted_items (kv :: d)) with (insert_sorted kv (sorted_items d)).
  change (keys (kv :: d)) with (fst kv :: keys d).
  intros N. inversion N as [| ? ? H1 N1]; subst.
  apply NoDup_keys_insert.
  change (NoDup (fst kv :: keys (sorted_items d))).
  constructor; [| exact (IH N1)].
  intros I. apply H1. unfold keys in *. apply in_map_iff in I.
  destruct I as [x [E I]]. apply (proj1 (In_sorted_items _ _)) in I.
  rewrite <- E. exact (in_map fst _ _ I).
Qed.

End Groups.

Section WithNormalizer.
Variable norm : string -> string.
Variable categories_of : string -> list string.

Local Abbreviation members := (InventoryNotions.members norm).

Lemma get_add_to_group (k k' : string) (it : item) (g : dict (list item)) :
  get k (add_to_group k' it g) =
    if String.eqb k k'
    then Some (match get k g with Some l => push l it | None => [it] end)
    else get k g.
Proof.
  induction g as [| [k0 l0] g IH]; cbn [add_to_group get].
  - destruct (String.eqb k k'); reflexivity.
  - destruct (String.eqb k' k0) eqn:E0; cbn [get].
    + apply String.eqb_eq in E0. subst k0.
      destruct (String.eqb k k') eqn:E; reflexivity.
    + rewrite IH. destruct (String.eqb k k') eqn:E; [| reflexivity].
      apply String.eqb_eq in E. subst k'. rewrite E0. reflexivity.
Qed.

Lemma In_keys_add (x k : string) (it : item) (g : dict (list item)) :
  In x (keys (add_to_group k it g)) -> x = k \/ In x (keys g).
Proof.
  induction g as [| [k' l'] g IH]; cbn [add_to_group keys map fst In].
  - intros [<- | []]. left. reflexivity.
  - destruct (String.eqb k k'); cbn [map fst In]; fold (keys g);
      fold (keys (add_to_group k it g)); intros [<- | H]; auto.
    destruct (IH H); auto.
Qed.

Lemma NoDup_keys_add (k : string) (it : item) (g : dict (list item)) :
  NoDup (keys g) -> NoDup (keys (add_to_group k it g)).
Proof.
  induction g as [| [k' l'] g IH]; cbn [add_to_group keys map fst].
  - intros _. constructor; [intros [] | constructor].
  - fold (keys g). intros H. inversion H as [| ? ? Hn Hd]; subst.
    destruct (String.eqb k k') eqn:E.
    + apply String.eqb_eq in E. subst k'. exact H.
    + apply String.eqb_neq in E. cbn [map fst].
      fold (keys (add_to_group k it g)).
      constructor; [| exact (IH Hd)].
      intros C. destruct (In_keys_add _ _ _ _ C); [congruence | contradiction].
Qed.

Lemma get_group_from (inv : list item) : forall (g : dict (list item)) k,
  get k (fold_left (fun g it => add_to_group (norm (name it)) it g) inv g) =
    match get k g, members k inv with
    | Some l, m => Some (l ++ m)%list
    | None, [] => None
    | None, m => Some m
    end.
Proof.
  induction inv as [| it inv IH]; intros g k; cbn [fold_left].
  - cbn. destruct (get k g); [rewrite app_nil_r |]; reflexivity.
  - rewrite IH, get_add_to_group. unfold InventoryNotions.members.
    cbn [filter]. rewrite (String.eqb_sym (norm (name it)) k).
    destruct (String.eqb k (norm (name it))).
    + destruct (get k g); unfold push; [rewrite <- app_assoc |]; reflexivity.
    + reflexivity.
Qed.

Lemma get_group (inv : list item) (k : string) :
  get k (group_inventory norm inv) =
    match members k inv with [] => None | m => Some m end.
Proof. unfold group_inventory. rewrite get_group_from. reflexivity. Qed.

Lemma NoDup_keys_group (inv : list item) :
  NoDup (keys (group_inventory norm inv)).
Proof.
  unfold group_inventory.
  assert (G : forall g : dict (list item),
             NoDup (keys g) ->
             NoDup (keys (fold_left
                            (fun g it => add_to_group (norm (name it)) it g)
                            inv g))).
  { induction inv as [| it inv IH]; intros g N; cbn [fold_left]; auto.
    apply IH, NoDup_keys_add, N. }
  apply G. constructor.
Qed.

(** What [filter_groups] keeps is filed in the groups, under distinct keys. *)
Lemma filter_groups_sound (a : analysis) (g : dict (list item)) :
  NoDup (keys g) ->
  NoDup (keys (filter_groups norm categories_of a g))
  /\ forall k l, get k (filter_groups norm categories_of a g) = Some l ->
                 get k g = Some l.
Proof.
  intros N.
  pose (P := fun f : dict (list item) =>
               NoDup (keys f)
               /\ forall k l, get k f = Some l -> get k g = Some l).
  assert (P0 : P []) by (split; [constructor | discriminate]).
  assert (PS : forall f k v, P f -> get k g = Some v -> P (set k v f)).
  { intros f k v [Nf Hf] G. split; [apply NoDup_keys_set, Nf |].
    intros k' l. destruct (string_dec k' k) as [-> | D].
    - rewrite get_set_same. congruence.
    - rewrite get_set_other by exact D. apply Hf. }
  destruct a as [| items | categories |]; cbn [filter_groups].
  - split; auto.
  - change (P (fold_left
                 (fun filtered it =>
                    match get (norm it) g with
                    | Some x => set (norm it) x filtered
                    | None => filtered
                    end) items [])).
    generalize (@nil (string * list item)) P0.
    induction items as [| it items IH]; intros f Pf; cbn [fold_left]; auto.
    apply IH. destruct (get (norm it) g) eqn:G; auto.
  - change (P (fold_left
                 (fun filtered kv =>
                    if existsb (fun cat => mem cat categories)
                               (categories_of (fst kv))
                    then set (fst kv) (snd kv) filtered
                    else filtered) g [])).
    assert (I : incl g g) by apply incl_refl.
    revert I. generalize (@nil (string * list item)) P0.
    generalize g at 1 3.
    induction g0 as [| [k v] g0 IH]; intros f Pf I; cbn [fold_left]; auto.
    apply IH; [| intros x Hx; apply I; right; exact Hx].
    destruct (existsb _ _); auto.
    apply PS; auto. cbn [fst snd].
    apply In_get_distinct; [exact N | apply I; left; reflexivity].
  - exact P0.
Qed.

Lemma has_key_add (k k' : string) (it : item) (g : dict (list item)) :
  has_key k (add_to_group k' it g) = String.eqb k k' || has_key k g.
Proof.
  unfold has_key. rewrite get_add_to_group.
  destruct (String.eqb k k'); reflexivity.
Qed.

Lemma has_key_group (inv : list item) (k : string) :
  has_key k (group_inventory norm inv) = stocked norm k inv.
Proof.
  unfold has_key, stocked. rewrite get_group. unfold InventoryNotions.members.
  induction inv as [| it inv IH]; cbn [filter existsb]; [reflexivity |].
  destruct (String.eqb (norm (name it)) k); [reflexivity | exact IH].
Qed.

Lemma has_key_specific (g : dict (list item)) (k : string)
    (items : list string) : forall f : dict (list item),
  has_key k
    (fold_left
       (fun filtered it =>
          match get (norm it) g with
          | Some x => set (norm it) x filtered
          | None => filtered
          end) items f)
  = has_key k f || (mem k (map norm items) && has_key k g).
Proof.
  induction items as [| it items IH]; intros f; cbn [fold_left map].
  - cbn. rewrite orb_false_r. reflexivity.
  - rewrite IH.
    change (mem k (norm it :: map norm items))
      with (String.eqb k (norm it) || mem k (map norm items)).
    destruct (String.eqb k (norm it)) eqn:E.
    + apply String.eqb_eq in E. subst k.
      destruct (get (norm it) g) eqn:G.
      * assert (Hg : has_key (norm it) g = true)
          by (unfold has_key; rewrite G; reflexivity).
        rewrite has_key_set, String.eqb_refl, Hg. cbn [orb andb].
        rewrite orb_true_r. reflexivity.
      * assert (Hg : has_key (norm it) g = false)
          by (unfold has_key; rewrite G; reflexivity).
        rewrite Hg, !andb_false_r. reflexivity.
    + cbn [orb]. destruct (get (norm it) g); [| reflexivity].
      rewrite has_key_set, E. reflexivity.
Qed.

Lemma has_key_category (categories : list string) (k : string)
    (g0 : dict (list item)) : forall f : dict (list item),
  has_key k
    (fold_left
       (fun filtered kv =>
          if existsb (fun cat => mem cat categories) (categories_of (fst kv))
          then set (fst kv) (snd kv) filtered
          else filtered) g0 f)
  = has_key k f
    || (has_key k g0
        && existsb (fun cat => mem cat categories) (categories_of k)).
Proof.
  induction g0 as [| [k0 v0] g0 IH]; intros f; cbn [fold_left fst snd].
  - cbn. rewrite orb_false_r. reflexivity.
  - rewrite IH.
    assert (C : has_key k ((k0, v0) :: g0) = String.eqb k k0 || has_key k g0).
    { unfold has_key. cbn [get]. destruct (String.eqb k k0); reflexivity. }
    rewrite C. destruct (String.eqb k k0) eqn:E.
    + apply String.eqb_eq in E. subst k0.
      destruct (existsb (fun cat => mem cat categories) (categories_of k)).
      * rewrite has_key_set, String.eqb_refl. cbn [orb andb].
        rewrite orb_true_r. reflexivity.
      * rewrite !andb_false_r. reflexivity.
    + cbn [orb].
      destruct (existsb (fun cat => mem cat categories) (categories_of k0));
        [| reflexivity].
      rewrite has_key_set, E. reflexivity.
Qed.

End WithNormalizer.
End ListingFacts.

Module ListingTheorems.
Import PyStr PyExc Units Inventory Dispatch Notions DictFacts MoreDictFacts
  InventoryNotions ListingFacts TurnNotions.

(** X14.  The groups a listing shows are in ascending order of their
    normalized names, no name twice; each group holds exactly the stored
    items with that normalized name, in stored order, and is never empty;
    no more groups are shown than exist; and when everything is asked for,
    every stored item is in the group of its normalized name. *)
Theorem listing_groups_partition_the_inventory
    (norm : string -> string) (categories_of : string -> list string)
    (inv : list item) (a : analysis) :
  let groups := group_inventory norm inv in
  let filtered := filter_groups norm categories_of a groups in
  let shown := sorted_items filtered in
  Sorted by_key shown
  /\ NoDup (keys shown)
  /\ (forall k l, In (k, l) shown -> l <> [] /\ l = members norm k inv)
  /\ List.length shown = List.length filtered
  /\ List.length filtered <= List.length groups
  /\ (a = All ->
      forall it, In it inv ->
        exists l, In (norm (name it), l) shown /\ In it l).
Proof.
  cbn zeta.
  pose proof (NoDup_keys_group norm inv) as Ng.
  destruct (filter_groups_sound norm categories_of a _ Ng) as [Nf Hf].
  split; [apply sorted_items_sorted |].
  split; [apply NoDup_keys_sorted, Nf |].
  split; [| split; [apply length_sorted_items | split]].
  - intros k l I. apply (proj1 (In_sorted_items _ _)) in I.
    apply (In_get_distinct _ _ _ Nf), Hf in I.
    rewrite get_group in I.
    destruct (members norm k inv) eqn:M; [discriminate |].
    injection I as <-. split; [discriminate | reflexivity].
  - rewrite <- (length_map fst (filter_groups _ _ _ _)),
      <- (length_map fst (group_inventory _ _)).
    apply NoDup_incl_length; [exact Nf |].
    intros k I. apply in_map_iff in I.
    destruct I as [[k' l] [<- I]]. cbn [fst].
    apply (In_get_distinct _ _ _ Nf), Hf in I.
    destruct (get_None_keys k' (group_inventory norm inv)) as [_ G].
    destruct (in_dec string_dec k' (keys (group_inventory norm inv)))
      as [Y | Nn]; [exact Y |].
    rewrite (G Nn) in I. discriminate.
  - intros -> it I. cbn [filter_groups].
    exists (members norm (norm (name it)) inv). split.
    + apply (proj2 (In_sorted_items _ _)), get_Some_In. rewrite get_group.
      assert (M : In it (members norm (norm (name it)) inv)).
      { apply filter_In. split; [exact I | apply String.eqb_refl]. }
      destruct (members norm (norm (name it)) inv); [destruct M | reflexivity].
    + apply filter_In. split; [exact I | apply String.eqb_refl].
Qed.

(** X15.  Which groups a listing shows: exactly those that hold a
    stored item and that the analysis asks for - all of them, those whose
    normalized name is among the normalized requested names, or those one
    of whose categories is among the requested ones; an analysis of any
    other type shows none. *)
Theorem listing_shows_the_groups_asked_for
    (norm : string -> string) (categories_of : string -> list string)
    (inv : list item) (a : analysis) (k : string) :
  has_key k (sorted_items
               (filter_groups norm categories_of a (group_inventory norm inv)))
  = stocked norm k inv && wanted norm categories_of a k.
Proof.
  assert (S : forall d : dict (list item),
             has_key k (sorted_items d) = has_key k d).
  { intros d. unfold has_key.
    destruct (get k d) as [l |] eqn:G.
    - apply get_Some_In, (proj2 (In_sorted_items _ _)) in G.
      destruct (get k (sorted_items d)) eqn:G'; [reflexivity |].
      apply get_None_keys in G'. exfalso. apply G'.
      exact (in_map fst _ _ G).
    - destruct (get k (sorted_items d)) as [l |] eqn:G'; [| reflexivity].
      apply get_Some_In, (proj1 (In_sorted_items _ _)) in G'.
      apply get_None_keys in G. exfalso. apply G.
      exact (in_map fst _ _ G'). }
  rewrite S. destruct a as [| items | categories |];
    cbn [filter_groups TurnNotions.wanted].
  - rewrite has_key_group, andb_true_r. reflexivity.
  - rewrite has_key_specific, has_key_group. cbn [has_key get orb].
    apply andb_comm.
  - rewrite has_key_category, has_key_group. reflexivity.
  - rewrite andb_false_r. reflexivity.
Qed.

End ListingTheorems.

(* ================================================================== *)
(** * The classifier on its own output *)
(* ================================================================== *)

Module TurnTheorems.
Import PyStr PyExc Units Inventory Classifier Dispatch Spec Notions
  ClassifierTheorems.

(** X18.  What [classify_message] returns always passes the validation
    layer again: classifying its own output changes nothing, so the
    fallback classification is itself well formed. *)
Theorem classify_message_is_idempotent (c : completion) :
  well_formed (classify_message c) = true
  /\ classify_message (Decoded (classify_message c)) = classify_message c.
Proof.
  assert (W : well_formed (classify_message c) = true).
  { unfold classify_message.
    destruct c as [e | content | j]; cbn [classify_body try_except];
      try reflexivity.
    pose proof (validate_spec j) as V.
    destruct (validate j) as [j' | e]; cbn [try_except]; [| reflexivity].
    destruct V as [V ->]. exact V. }
  split; [exact W |].
  unfold classify_message at 1. cbn [classify_body].
  pose proof (validate_spec (classify_message c)) as V.
  destruct (validate (classify_message c)) as [j' | e]; cbn [try_except].
  - destruct V as [_ ->]. reflexivity.
  - congruence.
Qed.

End TurnTheorems.

(* ================================================================== *)
(** * Recipe recommendations *)
(* ================================================================== *)

Module RecipeFacts.
Import PyStr PyExc Units Inventory Classifier Conversation Recipes Notions
  StrFacts DictFacts MoreDictFacts.

Lemma all_in_dict (fields : list string) (d : dict json) :
  all_in fields (JDict d) = Ok (forallb (fun field => has_key field d) fields).
Proof.
  induction fields as [| f fields IH]; [reflexivity |].
  cbn [all_in py_in bind forallb].
  destruct (has_key f d); [exact IH | reflexivity].
Qed.

Lemma shorten_within (limit keep : nat) (x y : json) :
  keep + 3 <= limit ->
  shorten limit keep x = Ok y -> within limit y = true.
Proof.
  intros K. unfold shorten, within.
  destruct (py_len x) as [n |] eqn:L; cbn [bind]; [| discriminate].
  destruct (limit <? n)%nat eqn:E.
  - destruct x; try discriminate. cbn [cut_to]. intros H. injection H as <-.
    cbn [py_len]. rewrite len_app. pose proof (len_slice_to keep s).
    change (len "...") with 3. apply Nat.leb_le. lia.
  - intros H. injection H as <-. rewrite L.
    apply Nat.ltb_ge in E. apply Nat.leb_le. exact E.
Qed.

Lemma shorten_id (limit keep : nat) (x : json) :
  within limit x = true -> shorten limit keep x = Ok x.
Proof.
  unfold shorten, within. destruct (py_len x) as [n |]; [| discriminate].
  cbn [bind]. intros H. apply Nat.leb_le in H.
  destruct (limit <? n)%nat eqn:E; [| reflexivity].
  apply Nat.ltb_lt in E. lia.
Qed.

Lemma shorten_steps_within (l l' : list json) :
  shorten_steps l = Ok l' -> forallb (within 150) l' = true.
Proof.
  revert l'. induction l as [| x l IH]; intros l'; cbn [shorten_steps].
  - intros H. injection H as <-. reflexivity.
  - destruct (shorten 150 147 x) as [y |] eqn:S; cbn [bind]; [| discriminate].
    destruct (shorten_steps l) as [r |]; cbn [bind]; [| discriminate].
    intros H. injection H as <-. cbn [forallb].
    rewrite (shorten_within 150 147 x y) by (lia || exact S).
    exact (IH r eq_refl).
Qed.

Lemma shorten_steps_id (l : list json) :
  forallb (within 150) l = true -> shorten_steps l = Ok l.
Proof.
  induction l as [| x l IH]; cbn [forallb shorten_steps]; [reflexivity |].
  intros H. apply andb_prop in H as [Hx Hl].
  rewrite (shorten_id _ _ _ Hx). cbn [bind]. rewrite (IH Hl). reflexivity.
Qed.

Lemma check_recipe_ok (recipe r : json) :
  check_recipe recipe = Ok r -> recipe_ok r = true.
Proof.
  unfold check_recipe.
  destruct recipe as [| b | n | x | s | l | d];
    try (destruct (all_in required_fields _) as [[] |];
         cbn; discriminate).
  rewrite all_in_dict.
  destruct (forallb (fun field => has_key field d) required_fields) eqn:F;
    cbn [bind raise_if negb]; [| discriminate].
  cbn [subscript].
  destruct (get "ingredients" d) as [i |] eqn:Gi; cbn [bind]; [| discriminate].
  destruct i as [| ? | ? | ? | ? | ? | f]; cbn [is_dict negb bind raise_if];
    try discriminate.
  cbn [py_in bind].
  destruct (has_key "available" f) eqn:Ha; cbn [negb bind raise_if];
    [| discriminate].
  destruct (has_key "needed" f) eqn:Hn; cbn [negb bind raise_if];
    [| discriminate].
  destruct (get "steps" d) as [st |] eqn:Gs; cbn [bind]; [| discriminate].
  destruct st as [| ? | ? | ? | ? | steps | ?];
    cbn [is_list negb bind raise_if]; try discriminate.
  destruct (get "description" d) as [ds |] eqn:Gd; cbn [bind];
    [| discriminate].
  pose proof (shorten_within 100 97 ds) as W. unfold shorten in W.
  destruct (py_len ds) as [n |] eqn:L; cbn [bind] in *; [| discriminate].
  assert (R : forall d1 : dict json,
             get "ingredients" d1 = Some (JDict f) ->
             get "steps" d1 = Some (JList steps) ->
             (exists ds', get "description" d1 = Some ds'
                          /\ within 100 ds' = true) ->
             forallb (fun field => has_key field d1) required_fields = true ->
             (steps <- subscript (JDict d1) "steps" ;;
              l <- iterate steps ;;
              l' <- shorten_steps l ;;
              store (JDict d1) "steps" (JList l')) = Ok r ->
             recipe_ok r = true).
  { intros d1 G1 G2 [ds' [G3 W3]] F1. cbn [subscript]. rewrite G2.
    cbn [bind iterate].
    destruct (shorten_steps steps) as [l' |] eqn:S; cbn [bind store];
      [| discriminate].
    intros H. injection H as <-. unfold recipe_ok, field_is.
    rewrite !get_set_eqb. cbn [String.eqb Ascii.eqb Bool.eqb].
    rewrite G1, G3, W3, Ha, Hn, (shorten_steps_within _ _ S).
    cbn [forallb required_fields] in *. rewrite !has_key_set.
    cbn [String.eqb Ascii.eqb Bool.eqb orb].
    repeat (apply andb_prop in F1 as [?H F1]).
    repeat match goal with H : has_key _ d1 = true |- _ => rewrite H end.
    reflexivity. }
  destruct (100 <? n)%nat eqn:E.
  - destruct ds; try discriminate. cbn [cut_to bind store].
    apply R.
    + rewrite get_set_eqb. exact Gi.
    + rewrite get_set_eqb. exact Gs.
    + eexists. split; [rewrite get_set_eqb; reflexivity |].
      apply W; [lia | reflexivity].
    + cbn [forallb required_fields] in *. rewrite !has_key_set.
      cbn [String.eqb Ascii.eqb Bool.eqb orb].
      repeat (apply andb_prop in F as [?H F]).
      repeat match goal with H : has_key _ d = true |- _ => rewrite H end.
      reflexivity.
  - cbn [bind]. apply R; auto.
    exists ds. split; [exact Gd |]. apply W; [lia | reflexivity].
Qed.

Lemma check_recipe_id (recipe : json) :
  recipe_ok recipe = true -> check_recipe recipe = Ok recipe.
Proof.
  unfold recipe_ok, check_recipe, field_is.
  destruct recipe as [| ? | ? | ? | ? | ? | d]; try discriminate.
  rewrite all_in_dict.
  intros H. do 3 (apply andb_prop in H as [H ?H]).
  rewrite H. cbn [bind raise_if negb subscript].
  destruct (get "ingredients" d) as [[| ? | ? | ? | ? | ? | f] |];
    try discriminate.
  apply andb_prop in H2 as [Ha Hn].
  cbn [bind is_dict negb py_in]. rewrite Ha, Hn. cbn [negb bind raise_if].
  destruct (get "steps" d) as [[| ? | ? | ? | ? | steps | ?] |] eqn:Gs;
    try discriminate.
  cbn [bind is_list negb raise_if].
  destruct (get "description" d) as [ds |]; [| discriminate].
  cbn [bind]. unfold within in H1.
  destruct (py_len ds) as [n |]; cbn [bind] in *; [| discriminate].
  apply Nat.leb_le in H1.
  destruct (100 <? n)%nat eqn:E; [apply Nat.ltb_lt in E; lia |].
  cbn [bind subscript]. rewrite Gs. cbn [bind iterate].
  rewrite (shorten_steps_id _ H0). cbn [bind store].
  rewrite (set_get_same _ _ _ Gs). reflexivity.
Qed.

Lemma check_recipes_ok (l l' : list json) :
  check_recipes l = Ok l' -> forallb recipe_ok l' = true.
Proof.
  revert l'. induction l as [| x l IH]; intros l'; cbn [check_recipes].
  - intros H. injection H as <-. reflexivity.
  - destruct (check_recipe x) as [y |] eqn:C; cbn [bind]; [| discriminate].
    destruct (check_recipes l) as [r |]; cbn [bind]; [| discriminate].
    intros H. injection H as <-. cbn [forallb].
    rewrite (check_recipe_ok _ _ C). exact (IH r eq_refl).
Qed.

Lemma check_recipes_id (l : list json) :
  forallb recipe_ok l = true -> check_recipes l = Ok l.
Proof.
  induction l as [| x l IH]; cbn [forallb check_recipes]; [reflexivity |].
  intros H. apply andb_prop in H as [Hx Hl].
  rewrite (check_recipe_id _ Hx). cbn [bind]. rewrite (IH Hl). reflexivity.
Qed.

Lemma validate_recipes_ok (recipes r : json) :
  validate_recipes recipes = Ok r -> recommendations_ok r = true.
Proof.
  unfold validate_recipes.
  destruct recipes as [| ? | ? | ? | s | l | d]; try discriminate.
  - cbn [py_in bind]. destruct (contains "recipes" s); discriminate.
  - cbn [py_in bind]. destruct (existsb (is_str "recipes") l); discriminate.
  - cbn [py_in bind subscript]. unfold has_key.
    destruct (get "recipes" d) as [v |]; cbn [negb bind raise_if];
      [| discriminate].
    destruct v as [| ? | ? | ? | ? | l | ?]; cbn [is_list negb bind raise_if];
      try discriminate.
    cbn [iterate bind].
    destruct (check_recipes l) as [l' |] eqn:C; cbn [bind store];
      [| discriminate].
    intros H. injection H as <-. unfold recommendations_ok, field_is.
    rewrite get_set_same. exact (check_recipes_ok _ _ C).
Qed.

Lemma validate_recipes_id (recipes : json) :
  recommendations_ok recipes = true -> validate_recipes recipes = Ok recipes.
Proof.
  unfold recommendations_ok, validate_recipes, field_is.
  destruct recipes as [| ? | ? | ? | ? | ? | d]; try discriminate.
  cbn [py_in bind subscript]. unfold has_key.
  destruct (get "recipes" d) as [[| ? | ? | ? | ? | l | ?] |] eqn:G;
    try discriminate.
  intros H. cbn [negb bind is_list raise_if iterate].
  rewrite (check_recipes_id _ H). cbn [bind store].
  rewrite (set_get_same _ _ _ G). reflexivity.
Qed.

End RecipeFacts.

Module RecipeTheorems.
Import PyStr PyExc Units Inventory Classifier Conversation Recipes Notions
  RecipeFacts.

(** X19.  Whatever the completion returns, [generate_recipe_recommendations]
    returns recommendations of the shape the dispatcher reads: a list of
    recipes, each with the six fields, ingredients split into available
    and needed, a description of at most 100 and steps of at most 150
    each.  The conversation history is left as it was when the fixed
    error recipe is returned, and is otherwise longer by the user's
    message and the assistant's entry, in that order. *)
Theorem recommendations_are_always_well_shaped (str_of : json -> string)
    (c : completion) (message : string) (history : list entry)
    (t_user t_assistant : string) :
  let out := generate_recipe_recommendations str_of c message history
               t_user t_assistant in
  recommendations_ok (fst out) = true
  /\ (out = (error_recipes, history)
      \/ snd out = (history ++ [Entry "user" message t_user;
                                Entry "assistant" (str_of (fst out))
                                  t_assistant])%list).
Proof.
  cbn zeta. unfold generate_recipe_recommendations, recommend_body.
  destruct c as [e | content | j]; cbn [try_except];
    try (split; [reflexivity | left; reflexivity]).
  destruct (validate_recipes j) as [r |] eqn:V; cbn [bind try_except fst snd].
  - split; [exact (validate_recipes_ok _ _ V) |].
    right. unfold append2, push. rewrite <- app_assoc. reflexivity.
  - split; [reflexivity | left; reflexivity].
Qed.

(** X20.  Recommendations that are already of that shape come back
    unchanged: nothing within the limits is cut, and validating the
    result of a call again changes nothing. *)
Theorem well_shaped_recommendations_pass_unchanged (str_of : json -> string)
    (j : json) (message : string) (history : list entry)
    (t_user t_assistant : string) :
  recommendations_ok j = true ->
  fst (generate_recipe_recommendations str_of (Decoded j) message history
         t_user t_assistant) = j.
Proof.
  intros H. unfold generate_recipe_recommendations, recommend_body.
  rewrite (validate_recipes_id _ H). reflexivity.
Qed.

Lemma well_shaped_recommendations_pass_unchanged_witness :
  fst (generate_recipe_recommendations (fun _ => "") (Decoded error_recipes)
         "what can I cook?" [] "" "") = error_recipes.
Proof.
  apply (well_shaped_recommendations_pass_unchanged (fun _ => "")
           error_recipes "what can I cook?" [] "" "").
  reflexivity.
Defined.

End RecipeTheorems.

(* ================================================================== *)
(** * The conversation history and the webhook *)
(* ================================================================== *)

Module ConversationTheorems.
Import PyStr PyExc Units Inventory Dispatch Conversation Notions StrFacts
  DispatchTheorems TurnNotions.

Lemma last_n_app {A : Type} (n : nat) (old recent : list A) :
  n <= List.length recent -> last_n n (old ++ recent) = last_n n recent.
Proof.
  intros L. unfold last_n. rewrite length_app, skipn_app.
  rewrite skipn_all2 by lia. cbn [app]. f_equal. lia.
Qed.

Lemma length_last_n {A : Type} (n : nat) (l : list A) :
  List.length (last_n n l) <= n.
Proof. unfold last_n. rewrite length_skipn. lia. Qed.

(** X21.  A general reply is computed from the last five entries of the
    conversation history only: whatever came before them does not reach
    the request, so it cannot change the reply. *)
Theorem general_reply_reads_last_five_entries
    (chat : list Conversation.message -> result string)
    (message system_prompt : string) (old old' recent : list entry)
    (available_ingredients : option (list item))
    (t_user t_assistant : string) :
  5 <= List.length recent ->
  request system_prompt message (old ++ recent) available_ingredients
  = request system_prompt message (old' ++ recent) available_ingredients
  /\ reply_of (generate_general_response_with_history chat message
                 (old ++ recent) system_prompt available_ingredients
                 t_user t_assistant)
     = reply_of (generate_general_response_with_history chat message
                   (old' ++ recent) system_prompt available_ingredients
                   t_user t_assistant).
Proof.
  intros L.
  assert (R : request system_prompt message (old ++ recent)
                available_ingredients
              = request system_prompt message (old' ++ recent)
                  available_ingredients).
  { unfold request. rewrite !last_n_app by exact L. reflexivity. }
  split; [exact R |].
  unfold generate_general_response_with_history. rewrite R.
  destruct (Dispatch.generate_general_response _); reflexivity.
Qed.

(** X22.  A general turn sends at most eight messages however long the
    history is, the system prompt first; when a non-empty list of
    ingredients is passed, the last message is a system note naming every
    ingredient with its amount, and otherwise the last message is the
    user's; when the completion answers, the reply is at most 1500
    characters, and the history is the old one followed by the user's
    message and by that same reply as the assistant's entry. *)
Theorem general_turn_extends_history_by_two
    (chat : list Conversation.message -> result string)
    (message system_prompt : string) (history : list entry)
    (available_ingredients : option (list item))
    (t_user t_assistant : string) :
  let sent := request system_prompt message history available_ingredients in
  List.length sent <= 8
  /\ (exists rest,
        sent = Message "system" (system_prompt ++ limit_instruction) :: rest)
  /\ (exists before,
        sent
        = List.app before
            match available_ingredients with
            | None | Some [] => [Message "user" message]
            | Some (first :: others) =>
                [Message "user" message;
                 Message "system"
                   ("Available ingredients: "
                      ++ join ", "
                           (map (fun it => name it ++ " , " ++ amount it)
                                (first :: others)))]
            end)
  /\ forall response history',
       generate_general_response_with_history chat message history
         system_prompt available_ingredients t_user t_assistant
       = Ok (response, history') ->
       len response <= 1500
       /\ history' = (history ++ [Entry "user" message t_user;
                                  Entry "assistant" response t_assistant])%list.
Proof.
  cbn zeta. split; [| split; [| split]].
  - unfold request. rewrite !length_app, length_map. cbn [List.length].
    pose proof (length_last_n 5 history).
    destruct available_ingredients as [[| ? ?] |]; cbn [List.length]; lia.
  - eexists. reflexivity.
  - unfold request.
    exists (Message "system" (system_prompt ++ limit_instruction)
              :: map (fun msg => Message (role msg) (content msg))
                     (last_n 5 history)).
    destruct available_ingredients as [[| first others] |];
      cbn [app]; rewrite ?app_nil_r; reflexivity.
  - intros response history'.
    unfold generate_general_response_with_history,
      Dispatch.generate_general_response.
    destruct (chat _) as [text |]; cbn [bind]; [| discriminate].
    intros H. injection H as <- <-. split; [apply cut_reply_len |].
    unfold append2, push. rewrite <- app_assoc. reflexivity.
Qed.

Lemma general_turn_extends_history_by_two_witness :
  (exists before,
     request "Be warm." "What can I cook?" [] (Some [Item "egg" "3"])
     = (before
          ++ [Message "user" "What can I cook?";
              Message "system" "Available ingredients: egg , 3"])%list)
  /\ (exists before,
        request "Be warm." "What can I cook?" []
          (Some [Item "egg" "3"; Item "milk" "1 l"])
        = (before
             ++ [Message "user" "What can I cook?";
                 Message "system"
                   "Available ingredients: egg , 3, milk , 1 l"])%list).
Proof.
  split.
  - exact (proj1 (proj2 (proj2
             (general_turn_extends_history_by_two (fun _ => Ok "ok")
                "What can I cook?" "Be warm." [] (Some [Item "egg" "3"])
                "" "")))).
  - exact (proj1 (proj2 (proj2
             (general_turn_extends_history_by_two (fun _ => Ok "ok")
                "What can I cook?" "Be warm." []
                (Some [Item "egg" "3"; Item "milk" "1 l"]) "" "")))).
Defined.

Lemma general_reply_reads_last_five_entries_witness :
  request "" "hi"
    ([Entry "user" "first" ""] ++ repeat (Entry "user" "hello" "") 5) None
  = request "" "hi" ([] ++ repeat (Entry "user" "hello" "") 5) None
  /\ reply_of (generate_general_response_with_history (fun _ => Ok "ok") "hi"
                 ([Entry "user" "first" ""]
                    ++ repeat (Entry "user" "hello" "") 5) "" None "" "")
     = reply_of (generate_general_response_with_history (fun _ => Ok "ok") "hi"
                   ([] ++ repeat (Entry "user" "hello" "") 5) "" None "" "").
Proof.
  apply (general_reply_reads_last_five_entries (fun _ => Ok "ok") "hi" ""
           [Entry "user" "first" ""] []
           (repeat (Entry "user" "hello" "") 5) None "" "").
  cbn. lia.
Defined.

End ConversationTheorems.

Module WebhookTheorems.
Import PyStr PyExc Units Inventory Spec Notions DictFacts StrFacts Webhook
  TurnNotions.

Lemma replace_colon_free (new s : string) :
  colon_free s = true -> replace "whatsapp:" new s = s.
Proof.
  unfold replace, colon_free.
  induction s as [| c s IH]; cbn [all_chars replace_from]; [reflexivity |].
  intros H. apply andb_prop in H as [Hc Hs].
  destruct (prefix "whatsapp:" (String c s)) eqn:P.
  - exfalso. apply prefix_iff in P. destruct P as [q P].
    assert (A : all_chars (fun c => negb (Ascii.eqb c ":")) (String c s) = true)
      by (cbn [all_chars]; rewrite Hc, Hs; reflexivity).
    rewrite P in A. rewrite all_chars_app in A.
    apply andb_prop in A as [A _]. vm_compute in A. discriminate.
  - rewrite (IH Hs). reflexivity.
Qed.

(** X24.  The number parsed from a message and the address replies are
    sent to undo each other: for a sender "whatsapp:" followed by a
    number without a colon, [from_number] is that number, and addressing
    it gives the sender back. *)
Theorem reply_goes_back_to_the_sender (message_data : dict string)
    (number : string) :
  get "From" message_data = Some (address number) ->
  colon_free number = true ->
  from_number (parse_incoming_message message_data) = number
  /\ Some (address (from_number (parse_incoming_message message_data)))
     = get "From" message_data.
Proof.
  intros G C.
  assert (F : from_number (parse_incoming_message message_data) = number).
  { unfold parse_incoming_message, get_or. cbn [from_number]. rewrite G.
    assert (P : prefix "whatsapp:" (address number) = true)
      by (apply prefix_iff; exists number; reflexivity).
    unfold replace, address in *. cbn [append] in *.
    cbn [replace_from]. rewrite P.
    cbn [String.length Nat.sub replace_from append].
    exact (replace_colon_free "" number C). }
  split; [exact F |]. rewrite F, G. reflexivity.
Qed.

Lemma reply_goes_back_to_the_sender_witness :
  from_number (parse_incoming_message [("From", "whatsapp:+15551234")])
  = "+15551234"
  /\ Some (address (from_number
                      (parse_incoming_message [("From", "whatsapp:+15551234")])))
     = get "From" [("From", "whatsapp:+15551234")].
Proof.
  apply (reply_goes_back_to_the_sender [("From", "whatsapp:+15551234")]
           "+15551234"); reflexivity.
Defined.

(** ** The per-user lock *)

Lemma In_remove_one_of (p q : string) (l : list string) :
  NoDup l -> (In q (remove_one_of p l) <-> In q l /\ q <> p).
Proof.
  induction l as [| x l IH]; cbn [remove_one_of In]; [tauto |].
  intros N. inversion N as [| ? ? Hn Hd]; subst.
  destruct (String.eqb p x) eqn:E.
  - apply String.eqb_eq in E. subst x. split.
    + intros I. split; [auto |]. intros ->. contradiction.
    + intros [[-> | I] D]; [congruence | exact I].
  - apply String.eqb_neq in E. cbn [In]. rewrite (IH Hd). split.
    + intros [-> | [I D]]; auto.
    + intros [[-> | I] D]; auto.
Qed.

Lemma NoDup_remove_one_of (p : string) (l : list string) :
  NoDup l -> NoDup (remove_one_of p l).
Proof.
  induction l as [| x l IH]; cbn [remove_one_of]; [auto |].
  intros N. inversion N as [| ? ? Hn Hd]; subst.
  destruct (String.eqb p x); [exact Hd |].
  constructor; [| exact (IH Hd)].
  intros I. apply (In_remove_one_of p x l Hd) in I. tauto.
Qed.

Lemma mem_iff (p : string) (l : list string) : mem p l = true <-> In p l.
Proof.
  unfold mem. rewrite existsb_exists. split.
  - intros [x [I E]]. apply String.eqb_eq in E. subst x. exact I.
  - intros I. exists p. split; [exact I | apply String.eqb_refl].
Qed.

Lemma enter_cases (p : string) (l : dict lock) :
  enter p l =
    match get p l with
    | Some true => (Busy, l)
    | Some false => (Entered, set p true l)
    | None => (Entered, set p true (set p false l))
    end.
Proof.
  unfold enter, acquire, has_key, get_or, lock in *.
  destruct (get p l) as [[|] |] eqn:G; cbn [andb negb]; rewrite ?G;
    try reflexivity.
  rewrite get_set_same. reflexivity.
Qed.

Lemma step_serialized (st st' : state) (e : event) :
  serialized st -> step st e = Some st' -> serialized st'.
Proof.
  intros [W [N L]]. destruct e as [p | p]; cbn [step].
  - rewrite enter_cases.
    assert (K : forall (held : dict lock),
               ~ In p (in_flight st) ->
               (forall q, q <> p -> get q held = get q (locks st)) ->
               get p held = Some true ->
               serialized (State held (p :: in_flight st) (waiting st))).
    { intros held Np O H. split; [exact W | split].
      - constructor; assumption.
      - intros q. cbn [in_flight locks In].
        destruct (string_dec q p) as [-> | D]; [tauto |].
        rewrite (O q D), <- L. split; [intros [E | I] | ]; auto. congruence. }
    destruct (get p (locks st)) as [[|] |] eqn:G; intros H; injection H as <-.
    + destruct st. split; [exact W | split; assumption].
    + apply K.
      * intros I. apply L in I. congruence.
      * intros q D. apply get_set_other, D.
      * apply get_set_same.
    + apply K.
      * intros I. apply L in I. congruence.
      * intros q D. rewrite !get_set_other by exact D. reflexivity.
      * apply get_set_same.
  - destruct (mem p (in_flight st)) eqn:M; [| discriminate].
    intros H. injection H as <-. split; [exact W | split].
    + apply NoDup_remove_one_of, N.
    + intros q. cbn [in_flight locks]. unfold leave.
      rewrite (In_remove_one_of p q _ N), L.
      destruct (string_dec q p) as [-> | D].
      * rewrite get_set_same. split; [tauto | discriminate].
      * rewrite get_set_other by exact D. tauto.
Qed.

Lemma run_serialized (trace : list event) : forall st st',
  serialized st -> run st trace = Some st' -> serialized st'.
Proof.
  induction trace as [| e trace IH]; intros st st' S; cbn [run].
  - intros H. injection H as <-. exact S.
  - destruct (step st e) as [st1 |] eqn:E; [| discriminate].
    apply IH. exact (step_serialized _ _ _ S E).
Qed.

(** X25.  However requests and finished turns interleave, no request
    ever waits for a lock, no user has two turns inside the block at
    once, a user's lock is held exactly while that user's turn is inside,
    and the next request of a user is refused as busy exactly when it
    is. *)
Theorem one_turn_per_user_at_a_time (trace : list event) (st : state) :
  run start trace = Some st ->
  serialized st
  /\ forall p,
       fst (enter p (locks st))
       = if mem p (in_flight st) then Busy else Entered.
Proof.
  intros R.
  assert (S : serialized st).
  { apply (run_serialized trace start st); [| exact R].
    split; [reflexivity | split; [constructor |]].
    intros p. cbn. split; [tauto | discriminate]. }
  split; [exact S |].
  intros p. rewrite enter_cases. destruct S as [_ [_ L]].
  destruct (mem p (in_flight st)) eqn:M.
  - apply mem_iff, L in M. rewrite M. reflexivity.
  - destruct (get p (locks st)) as [[|] |] eqn:G; try reflexivity.
    apply L, mem_iff in G. congruence.
Qed.

Lemma one_turn_per_user_at_a_time_witness :
  serialized (State [("a", true); ("b", false)] ["a"] [])
  /\ forall p,
       fst (enter p [("a", true); ("b", false)])
       = if mem p ["a"] then Busy else Entered.
Proof.
  apply (one_turn_per_user_at_a_time
           [Arrives "a"; Arrives "b"; Arrives "a"; Finishes "b"]).
  reflexivity.
Defined.

End WebhookTheorems.

(* ================================================================== *)
(** * The branches on texts are the reconciler of [Inventory] *)
(* ================================================================== *)

Module BranchFacts.
Import PyStr PyFloat PyExc Units Classifier Inventory Branches DictFacts
  MoreDictFacts.

(** ** The mapping as values *)

Lemma get_of_items (k : string) (d : dict item) :
  get k (of_items d) = option_map of_item (get k d).
Proof.
  induction d as [| [k' v] d IH]; [reflexivity |].
  cbn [of_items map get fst snd]. fold (of_items d).
  destruct (String.eqb k k'); [reflexivity | exact IH].
Qed.

Lemma set_of_items (k : string) (it : item) (d : dict item) :
  set k (of_item it) (of_items d) = of_items (set k it d).
Proof.
  induction d as [| [k' v] d IH]; [reflexivity |].
  cbn [of_items map set fst snd]. fold (of_items d).
  destruct (String.eqb k k'); [reflexivity |].
  cbn [map fst snd]. fold (of_items (set k it d)). rewrite IH. reflexivity.
Qed.

Lemma del_of_items (k : string) (d : dict item) :
  del k (of_items d) = of_items (del k d).
Proof.
  induction d as [| [k' v] d IH]; [reflexivity |].
  cbn [of_items map del fst snd]. fold (of_items d).
  destruct (String.eqb k k'); [exact IH |].
  cbn [map fst snd]. fold (of_items (del k d)). rewrite IH. reflexivity.
Qed.

Lemma values_of_items (d : dict item) :
  values (of_items d) = map of_item (values d).
Proof.
  unfold values, of_items. rewrite !map_map. reflexivity.
Qed.

Lemma length_of_items (d : dict item) :
  List.length (of_items d) = List.length d.
Proof. apply length_map. Qed.

Lemma push_of_report (rs : list report) (r : report) :
  push (map of_report rs) (of_report r) = map of_report (push rs r).
Proof. unfold push. rewrite map_app. reflexivity. Qed.

(** ** Reading an amount *)

Lemma parse_raises_ValueError (s : string) (e : exn) :
  _parse_amount_unit s = Raise e -> exists msg, e = ValueError msg.
Proof.
  unfold _parse_amount_unit, float_.
  destruct (float_of_string (strip s)); [discriminate |].
  destruct (re_match_amount (strip s)) as [[g1 g2] |].
  - destruct (float_of_string g1); cbn [bind]; [discriminate |].
    intros H. injection H as <-. eexists. reflexivity.
  - destruct (split (strip s)) as [| p0 [| p1 [| p2 ps]]];
      try (intros H; injection H as <-; eexists; reflexivity).
    destruct (float_of_string p0); [discriminate |].
    intros H. injection H as <-. eexists. reflexivity.
Qed.

Lemma except_ValueError_parse {A : Type} (s : string) (e : exn)
    (h : result A) :
  _parse_amount_unit s = Raise e -> except_ValueError (Raise e) h = h.
Proof.
  intros H. destruct (parse_raises_ValueError s e H) as [msg ->].
  reflexivity.
Qed.

Section OnTexts.

Variable norm : string -> string.
Variable other : json -> option string.
Variable str_of : json -> string.
Variable store_call : json -> list json -> result unit.

Local Abbreviation remove_item := (Branches.remove_item norm other).
Local Abbreviation update_item := (Branches.update_item norm other).
Local Abbreviation index_entry := (Branches.index_entry norm other).

(** ** The index *)

Lemma index_on_texts (inv : list item) : forall d : dict item,
  for_each index_entry (map of_item inv) (of_items d)
  = Ok (of_items
          (fold_left (fun acc it => set (norm (name it)) it acc) inv d)).
Proof.
  induction inv as [| it inv IH]; intros d; [reflexivity |].
  cbn [map for_each fold_left]. unfold Branches.index_entry at 1.
  cbn [of_item subscript get String.eqb Ascii.eqb Bool.eqb bind
       normalize_name].
  rewrite set_of_items. apply IH.
Qed.

(** ** One removal *)

Lemma remove_item_on_texts (d : dict item) (rs : list report) (it : item) :
  remove_item (of_items d, map of_report rs) (of_item it)
  = Ok (of_items (fst (remove_one norm (d, rs) it)),
        map of_report (snd (remove_one norm (d, rs) it))).
Proof.
  unfold Branches.remove_item, remove_one.
  cbn [of_item subscript get String.eqb Ascii.eqb Bool.eqb bind
       normalize_name str_method].
  rewrite get_of_items.
  destruct (get (norm (name it)) d) as [cur |]; cbn [option_map];
    [| cbn [fst snd]; rewrite <- push_of_report; reflexivity].
  destruct (String.eqb (lower (amount it)) "all").
  { cbn [of_item subscript get String.eqb Ascii.eqb Bool.eqb bind fst snd].
    rewrite del_of_items, <- push_of_report. reflexivity. }
  unfold remove_try, remove_partial, remove_unparsed, parse_amount.
  cbn [of_item subscript get String.eqb Ascii.eqb Bool.eqb bind str_method].
  destruct (_parse_amount_unit (amount cur)) as [[cv cu] | e] eqn:Pc;
    cbn [bind].
  2:{ rewrite (except_ValueError_parse _ _ _ Pc). cbn [fst snd].
      rewrite del_of_items, <- push_of_report. reflexivity. }
  destruct (_parse_amount_unit (amount it)) as [[rv ru] | e] eqn:Pr;
    cbn [bind].
  2:{ rewrite (except_ValueError_parse _ _ _ Pr). cbn [fst snd].
      rewrite del_of_items, <- push_of_report. reflexivity. }
  destruct (if negb (String.eqb cu ru) then _convert_unit rv ru cu
            else Some rv) as [rv' |];
    [| cbn [except_ValueError fst snd]; rewrite <- push_of_report;
       reflexivity].
  destruct (rv' <? cv)%float.
  { cbn [of_item assign set String.eqb Ascii.eqb Bool.eqb bind subscript get
         except_ValueError fst snd].
    change (JDict [("name", JStr (name cur));
                   ("amount", JStr (_format_unit (cv - rv') cu))])
      with (of_item (Item (name cur) (_format_unit (cv - rv') cu))).
    rewrite set_of_items, <- push_of_report. reflexivity. }
  destruct (cv =? rv')%float; cbn [except_ValueError fst snd].
  - rewrite del_of_items, <- push_of_report. reflexivity.
  - rewrite <- push_of_report. reflexivity.
Qed.

Lemma remove_items_on_texts (items : list item) :
  forall (d : dict item) (rs : list report),
  for_each remove_item (map of_item items) (of_items d, map of_report rs)
  = Ok (of_items (fst (remove_loop norm items (d, rs))),
        map of_report (snd (remove_loop norm items (d, rs)))).
Proof.
  induction items as [| it items IH]; intros d rs; [reflexivity |].
  cbn [map for_each]. rewrite remove_item_on_texts. cbn [bind].
  unfold remove_loop. cbn [fold_left].
  destruct (remove_one norm (d, rs) it) as [d1 rs1]. cbn [fst snd].
  apply IH.
Qed.

(** ** One addition *)

Lemma fail_with_of_state (st : update_state) (r : report) :
  fail_with (of_state st) (of_report r) = of_state (fail_item st r).
Proof.
  unfold fail_with, fail_item, of_state.
  cbn [current_items updated_items any_errors u_items u_reports has_errors].
  rewrite push_of_report. reflexivity.
Qed.

Lemma update_item_on_texts (st : update_state) (it : item) :
  update_item (of_state st) (of_item it) = Ok (of_state (update_one norm st it)).
Proof.
  unfold Branches.update_item, update_one, update_try, update_body,
    update_unparsed, parse_amount.
  cbn [of_item subscript get String.eqb Ascii.eqb Bool.eqb bind
       normalize_name str_method].
  destruct (_parse_amount_unit (amount it)) as [[nv nu] | e] eqn:Pn;
    cbn [bind].
  2:{ rewrite (except_ValueError_parse _ _ _ Pn).
      rewrite <- fail_with_of_state. reflexivity. }
  destruct (_validate_unit nu) as [[|] msg]; cbn [negb].
  2:{ cbn [except_ValueError]. rewrite <- fail_with_of_state. reflexivity. }
  cbn [current_items of_state]. rewrite get_of_items.
  destruct (get (norm (name it)) (u_items st)) as [cur |] eqn:G;
    cbn [option_map].
  2:{ cbn [except_ValueError]. unfold of_state.
      cbn [u_items u_reports has_errors].
      change (JDict [("name", JStr (name it));
                     ("amount", JStr (_format_unit nv nu))])
        with (of_item (Item (name it) (_format_unit nv nu))).
      rewrite set_of_items, <- push_of_report. reflexivity. }
  cbn [of_item subscript get String.eqb Ascii.eqb Bool.eqb bind str_method].
  destruct (_parse_amount_unit (amount cur)) as [[cv cu] | e] eqn:Pc;
    cbn [bind].
  2:{ rewrite (except_ValueError_parse _ _ _ Pc).
      rewrite <- fail_with_of_state. reflexivity. }
  destruct (_validate_unit cu) as [[|] msg']; cbn [negb].
  2:{ cbn [except_ValueError]. rewrite <- fail_with_of_state. reflexivity. }
  destruct (if negb (String.eqb cu nu)
            then match _convert_unit nv nu cu with
                 | Some converted_value => Some (converted_value, cu)
                 | None => None
                 end
            else Some (nv, nu)) as [[nv' nu'] |].
  2:{ cbn [except_ValueError]. rewrite <- fail_with_of_state. reflexivity. }
  cbn [of_item assign set String.eqb Ascii.eqb Bool.eqb bind subscript get
       except_ValueError].
  unfold of_state. cbn [u_items u_reports has_errors].
  change (JDict [("name", JStr (name cur));
                 ("amount", JStr (_format_unit (cv + nv') cu))])
    with (of_item (Item (name cur) (_format_unit (cv + nv') cu))).
  rewrite set_of_items, <- push_of_report. reflexivity.
Qed.

Lemma update_items_on_texts (items : list item) : forall st : update_state,
  for_each update_item (map of_item items) (of_state st)
  = Ok (of_state (update_loop norm items st)).
Proof.
  induction items as [| it items IH]; intros st; [reflexivity |].
  cbn [map for_each]. rewrite update_item_on_texts. cbn [bind].
  unfold update_loop. cbn [fold_left]. apply IH.
Qed.

(** ** The records and the replies *)

Lemma remove_one_record (d : dict item) (rs : list report) (it : item) :
  exists r,
    snd (remove_one norm (d, rs) it) = push rs r /\ removal_record r = true.
Proof.
  unfold remove_one.
  destruct (get (norm (name it)) d) as [cur |];
    [| eexists; split; reflexivity].
  destruct (String.eqb (lower (amount it)) "all");
    [eexists; split; reflexivity |].
  unfold remove_partial.
  destruct (_parse_amount_unit (amount cur)) as [[cv cu] | e]; cbn [bind];
    [| eexists; split; reflexivity].
  destruct (_parse_amount_unit (amount it)) as [[rv ru] | e]; cbn [bind];
    [| eexists; split; reflexivity].
  destruct (if negb (String.eqb cu ru) then _convert_unit rv ru cu
            else Some rv) as [rv' |]; [| eexists; split; reflexivity].
  destruct (rv' <? cv)%float; [eexists; split; reflexivity |].
  destruct (cv =? rv')%float; eexists; split; reflexivity.
Qed.

Lemma remove_loop_records (items : list item) :
  forall (d : dict item) (rs : list report),
  forallb removal_record rs = true ->
  forallb removal_record (snd (remove_loop norm items (d, rs))) = true.
Proof.
  induction items as [| it items IH]; intros d rs H; [exact H |].
  unfold remove_loop. cbn [fold_left].
  destruct (remove_one_record d rs it) as [r [E R]].
  destruct (remove_one norm (d, rs) it) as [d1 rs1]. cbn [snd] in E.
  subst rs1. apply IH. unfold push. rewrite forallb_app, H. cbn.
  rewrite R. reflexivity.
Qed.

Lemma update_one_record (st : update_state) (it : item) :
  exists r,
    u_reports (update_one norm st it) = push (u_reports st) r
    /\ addition_record r = true.
Proof.
  unfold update_one, update_body.
  destruct (_parse_amount_unit (amount it)) as [[nv nu] | e]; cbn [bind];
    [| eexists; split; reflexivity].
  destruct (_validate_unit nu) as [[|] msg]; cbn [negb];
    [| eexists; split; reflexivity].
  destruct (get (norm (name it)) (u_items st)) as [cur |];
    [| eexists; split; reflexivity].
  destruct (_parse_amount_unit (amount cur)) as [[cv cu] | e]; cbn [bind];
    [| eexists; split; reflexivity].
  destruct (_validate_unit cu) as [[|] msg']; cbn [negb];
    [| eexists; split; reflexivity].
  destruct (negb (String.eqb cu nu));
    [destruct (_convert_unit nv nu cu) |]; eexists; split; reflexivity.
Qed.

Lemma update_loop_records (items : list item) : forall st : update_state,
  forallb addition_record (u_reports st) = true ->
  forallb addition_record (u_reports (update_loop norm items st)) = true.
Proof.
  induction items as [| it items IH]; intros st H; [exact H |].
  unfold update_loop. cbn [fold_left]. apply IH.
  destruct (update_one_record st it) as [r [E R]]. rewrite E.
  unfold push. rewrite forallb_app, H. cbn. rewrite R. reflexivity.
Qed.

Lemma concat_cons (x : string) (l : list string) :
  String.concat "" (x :: l) = x ++ String.concat "" l.
Proof.
  destruct l as [| y l]; cbn [String.concat];
    [rewrite StrFacts.append_nil_r |]; reflexivity.
Qed.

Lemma removed_line_on_texts (r : report) :
  removal_record r = true ->
  removed_entry_line str_of (of_report r) = Ok (removed_line r).
Proof.
  destruct r as [n [a |] [b |] [e |]]; intros H;
    try discriminate H; reflexivity.
Qed.

Lemma updated_line_on_texts (r : report) :
  addition_record r = true ->
  updated_entry_line str_of (of_report r) = Ok (updated_line r).
Proof.
  destruct r as [n [a |] [b |] [e |]]; intros H;
    try discriminate H; reflexivity.
Qed.

Lemma lines_on_texts (line : json -> result string)
    (text : report -> string) (ok : report -> bool) (rs : list report) :
  (forall r, ok r = true -> line (of_report r) = Ok (text r)) ->
  forallb ok rs = true ->
  lines_of line (map of_report rs) = Ok (String.concat "" (map text rs)).
Proof.
  intros L. induction rs as [| r rs IH]; intros H; [reflexivity |].
  cbn [forallb] in H. apply andb_prop in H. destruct H as [Hr Hrs].
  cbn [map lines_of]. rewrite (L r Hr), (IH Hrs). cbn [bind].
  rewrite concat_cons. reflexivity.
Qed.

(** ** The two branches *)

Lemma index_entries_on_texts (user : dict json) (inv : list item) :
  stored_ingredients user = Ok (JList (map of_item inv)) ->
  index_entries norm other user = Ok (of_items (index_inventory norm inv)).
Proof.
  intros S. unfold index_entries. rewrite S. cbn [bind visited].
  exact (index_on_texts inv []).
Qed.

(** On a stored list and a batch made of texts, with a store that
    answers, the removal branch is [remove_inventory]. *)
Lemma remove_branch_on_texts (classification : json) (user : dict json)
    (user_id : json) (inv batch : list item) (flag : bool) :
  stored_ingredients user = Ok (JList (map of_item inv)) ->
  py_get classification "items" (JList []) = Ok (JList (map of_item batch)) ->
  subscript (JDict user) "user_id" = Ok user_id ->
  answering store_call ->
  remove_branch norm other str_of store_call classification user
  = of_outcome (history_of user) (remove_inventory norm inv batch flag).
Proof.
  intros S I U A. unfold remove_branch, remove_run, remove_inventory.
  rewrite (index_entries_on_texts user inv S). cbn [bind]. rewrite I.
  cbn [bind visited].
  pose proof (remove_items_on_texts batch (index_inventory norm inv) [])
    as E. cbn [map] in E. rewrite E. clear E.
  pose proof (remove_loop_records batch (index_inventory norm inv) []
                eq_refl) as R.
  destruct (remove_loop norm batch (index_inventory norm inv, []))
    as [d rs]. cbn [fst snd] in *.
  unfold persist. rewrite U. cbn [bind]. rewrite A.
  unfold removed_reply, format_removed, of_outcome.
  cbn [response written reports option_map].
  rewrite values_of_items, !length_map.
  destruct rs as [| r rs]; [reflexivity |].
  rewrite (lines_on_texts _ removed_line removal_record (r :: rs)
             removed_line_on_texts R).
  cbn [bind map]. reflexivity.
Qed.

(** The same for the addition branch and [update_inventory]. *)
Lemma update_branch_on_texts (classification : json) (user : dict json)
    (user_id : json) (inv batch : list item) :
  stored_ingredients user = Ok (JList (map of_item inv)) ->
  py_get classification "items" (JList []) = Ok (JList (map of_item batch)) ->
  subscript (JDict user) "user_id" = Ok user_id ->
  answering store_call ->
  update_branch norm other str_of store_call classification user
  = of_outcome (history_of user) (update_inventory norm inv batch).
Proof.
  intros S I U A. unfold update_branch, update_run, update_inventory.
  rewrite (index_entries_on_texts user inv S). cbn [bind]. rewrite I.
  cbn [bind visited].
  change (Additions (of_items (index_inventory norm inv)) [] false)
    with (of_state (UpdateState (index_inventory norm inv) [] false)).
  rewrite update_items_on_texts.
  pose proof (update_loop_records batch
                (UpdateState (index_inventory norm inv) [] false) eq_refl)
    as R.
  destruct (update_loop norm batch
              (UpdateState (index_inventory norm inv) [] false))
    as [d rs e]. cbn [u_reports] in R.
  unfold of_state, persist.
  cbn [u_items u_reports has_errors current_items updated_items any_errors].
  rewrite U. cbn [bind]. rewrite A.
  unfold updated_reply, format_updated, of_outcome.
  cbn [u_items u_reports has_errors current_items updated_items any_errors
       response written reports].
  rewrite values_of_items, length_of_items.
  assert (P : (if e then Ok tt else Ok tt) = @Ok unit tt)
    by (destruct e; reflexivity).
  rewrite P.
  destruct rs as [| r rs]; [destruct e; reflexivity |].
  rewrite (lines_on_texts _ updated_line addition_record (r :: rs)
             updated_line_on_texts R).
  cbn [bind map]. destruct e; reflexivity.
Qed.

End OnTexts.

End BranchFacts.

(* ================================================================== *)
(** * The loops of [Inventory] are the reconciler of the specification *)
(* ================================================================== *)

Module PolicyFacts.
Import PyStr PyFloat PyExc Units Inventory Policy DictFacts MoreDictFacts
  RemoveFacts.

Lemma del_absent {A : Type} (k : string) (d : dict A) :
  get k d = None -> del k d = d.
Proof.
  induction d as [| [k' v] d IH]; [reflexivity |]. cbn [get del].
  destruct (String.eqb k k'); [discriminate |].
  intros H. rewrite (IH H). reflexivity.
Qed.

(** Putting back what is stored changes nothing. *)
Lemma put_stored (k : string) (d : dict item) : put k (get k d) d = d.
Proof.
  unfold put. destruct (get k d) as [cur |] eqn:G;
    [apply set_get_same, G | apply del_absent, G].
Qed.

Lemma records_app (a b : list (verdict * report)) :
  records (a ++ b) = (records a ++ records b)%list.
Proof. apply map_app. Qed.

Lemma verdicts_app (a b : list (verdict * report)) :
  verdicts (a ++ b) = (verdicts a ++ verdicts b)%list.
Proof. apply map_app. Qed.

Section WithNormalizer.
Variable norm : string -> string.

(** ** One item *)

Lemma update_one_is_policy (st : update_state) (it : item) :
  let key := norm (name it) in
  let stored := get key (u_items st) in
  let v := add_verdict (option_map amount stored) (amount it) in
  update_one norm st it
  = {| u_items := put key (entry_after Add (name it) stored v) (u_items st);
       u_reports := push (u_reports st) (record_of Add (name it) stored v);
       has_errors := has_errors st || negb (applied v) |}.
Proof.
  cbv zeta. unfold update_one, update_body, add_verdict, parseAmount, known.
  destruct (_parse_amount_unit (amount it)) as [[nv nu] | e]; cbn [bind].
  2:{ cbn [entry_after record_of applied negb]. rewrite put_stored, orb_true_r.
      reflexivity. }
  destruct (_validate_unit nu) as [[|] msg]; cbn [negb fst snd].
  2:{ cbn [entry_after record_of applied negb]. rewrite put_stored, orb_true_r.
      reflexivity. }
  destruct (get (norm (name it)) (u_items st)) as [cur |] eqn:G;
    cbn [option_map].
  2:{ cbn [entry_after record_of applied negb put]. rewrite orb_false_r.
      reflexivity. }
  destruct (_parse_amount_unit (amount cur)) as [[cv cu] | e]; cbn [bind].
  2:{ cbn [entry_after record_of applied negb]. rewrite <- G at 1.
      rewrite put_stored, orb_true_r. reflexivity. }
  destruct (_validate_unit cu) as [[|] msg']; cbn [negb fst snd].
  2:{ cbn [entry_after record_of applied negb]. rewrite <- G at 1.
      rewrite put_stored, orb_true_r. reflexivity. }
  unfold convert. rewrite (String.eqb_sym nu cu).
  destruct (String.eqb cu nu) eqn:E; cbn [negb].
  - apply String.eqb_eq in E. subst nu.
    cbn [entry_after record_of applied negb put]. rewrite orb_false_r.
    reflexivity.
  - destruct (_convert_unit nv nu cu) as [nv' |].
    + cbn [entry_after record_of applied negb put]. rewrite orb_false_r.
      reflexivity.
    + cbn [entry_after record_of applied negb]. rewrite <- G at 1.
      rewrite put_stored, orb_true_r. reflexivity.
Qed.

Lemma remove_one_is_policy (d : dict item) (rs : list report) (it : item) :
  let key := norm (name it) in
  let stored := get key d in
  let v := remove_verdict (option_map amount stored) (amount it) in
  remove_one norm (d, rs) it
  = (put key (entry_after Remove (name it) stored v) d,
     push rs (record_of Remove (name it) stored v)).
Proof.
  cbv zeta. unfold remove_one, remove_verdict.
  destruct (get (norm (name it)) d) as [cur |] eqn:G; cbn [option_map].
  2:{ cbn [entry_after record_of put]. rewrite (del_absent _ _ G).
      reflexivity. }
  destruct (String.eqb (lower (amount it)) "all"); [reflexivity |].
  unfold remove_partial, parseAmount.
  destruct (_parse_amount_unit (amount cur)) as [[cv cu] | e]; cbn [bind];
    [| reflexivity].
  destruct (_parse_amount_unit (amount it)) as [[rv ru] | e]; cbn [bind];
    [| reflexivity].
  unfold convert. rewrite (String.eqb_sym ru cu).
  assert (K : forall r : report,
             (d, push rs r) = (put (norm (name it)) (Some cur) d, push rs r)).
  { intros r. rewrite <- G. rewrite put_stored. reflexivity. }
  destruct (String.eqb cu ru); cbn [negb].
  - destruct (rv <? cv)%float; [reflexivity |].
    destruct (cv =? rv)%float; [reflexivity |].
    cbn [entry_after record_of]. apply K.
  - destruct (_convert_unit rv ru cu) as [rv' |].
    + destruct (rv' <? cv)%float; [reflexivity |].
      destruct (cv =? rv')%float; [reflexivity |].
      cbn [entry_after record_of]. apply K.
    + cbn [entry_after record_of]. apply K.
Qed.

(** ** The loops *)

Lemma update_loop_is_policy (batch : list item) :
  forall (d : dict item) (outcomes : list (verdict * report)),
  let r := fold_left (reconcile_item Add norm) batch (d, outcomes) in
  update_loop norm batch
    (UpdateState d (records outcomes)
       (negb (forallb applied (verdicts outcomes))))
  = {| u_items := fst r;
       u_reports := records (snd r);
       has_errors := negb (forallb applied (verdicts (snd r))) |}.
Proof.
  induction batch as [| it batch IH]; intros d outcomes; cbv zeta;
    [reflexivity |].
  unfold update_loop. cbn [fold_left]. rewrite update_one_is_policy.
  cbn [u_items u_reports has_errors reconcile_item verdict_of].
  set (v := add_verdict (option_map amount (get (norm (name it)) d))
              (amount it)).
  set (r := record_of Add (name it) (get (norm (name it)) d) v).
  specialize (IH (put (norm (name it))
                    (entry_after Add (name it) (get (norm (name it)) d) v) d)
                 (outcomes ++ [(v, r)])%list).
  cbv zeta in IH. rewrite <- IH. unfold update_loop. f_equal. f_equal.
  - unfold push. rewrite records_app. reflexivity.
  - rewrite verdicts_app, forallb_app. cbn [verdicts map fst forallb].
    rewrite andb_true_r, negb_andb. reflexivity.
Qed.

Lemma remove_loop_is_policy (batch : list item) :
  forall (d : dict item) (outcomes : list (verdict * report)),
  remove_loop norm batch (d, records outcomes)
  = (fst (fold_left (reconcile_item Remove norm) batch (d, outcomes)),
     records (snd (fold_left (reconcile_item Remove norm) batch
                     (d, outcomes)))).
Proof.
  induction batch as [| it batch IH]; intros d outcomes; [reflexivity |].
  unfold remove_loop. cbn [fold_left]. fold (remove_loop norm batch).
  rewrite remove_one_is_policy. cbn [reconcile_item verdict_of].
  set (v := remove_verdict (option_map amount (get (norm (name it)) d))
              (amount it)).
  set (r := record_of Remove (name it) (get (norm (name it)) d) v).
  replace (push (records outcomes) r) with (records (outcomes ++ [(v, r)]))
    by (rewrite records_app; reflexivity).
  apply IH.
Qed.

Lemma reconcile_items_length (m : mode) (batch : list item) :
  forall st : dict item * list (verdict * report),
  List.length (snd (fold_left (reconcile_item m norm) batch st))
  = List.length (snd st) + List.length batch.
Proof.
  induction batch as [| it batch IH]; intros [d outcomes];
    cbn [fold_left List.length]; [lia |].
  rewrite IH. cbn [reconcile_item snd]. rewrite length_app.
  cbn [List.length]. lia.
Qed.

(** One outcome per item of the batch. *)
Lemma reconcile_length (m : mode) (inv batch : list item) :
  List.length (snd (reconcile m norm inv batch)) = List.length batch.
Proof. unfold reconcile. rewrite reconcile_items_length. reflexivity. Qed.

(** ** The two branches of [Inventory] *)

Lemma update_inventory_is_policy (inv batch : list item) :
  written (update_inventory norm inv batch) = committed Add norm inv batch
  /\ reports (update_inventory norm inv batch)
     = records (snd (reconcile Add norm inv batch)).
Proof.
  unfold update_inventory, committed, reconcile.
  pose proof (update_loop_is_policy batch (index_inventory norm inv) [])
    as E. cbv zeta in E. cbn [records verdicts map forallb negb] in E.
  rewrite E. cbn [u_items u_reports has_errors written reports].
  destruct (fold_left (reconcile_item Add norm) batch
              (index_inventory norm inv, [])) as [d outcomes].
  cbn [fst snd]. split; [| reflexivity].
  destruct (forallb applied (verdicts outcomes)); reflexivity.
Qed.

Lemma remove_inventory_is_policy (inv batch : list item) (flag : bool) :
  written (remove_inventory norm inv batch flag)
  = committed Remove norm inv batch
  /\ reports (remove_inventory norm inv batch flag)
     = records (snd (reconcile Remove norm inv batch)).
Proof.
  unfold remove_inventory, committed, reconcile.
  pose proof (remove_loop_is_policy batch (index_inventory norm inv) [])
    as E. cbn [records map] in E. rewrite E.
  destruct (fold_left (reconcile_item Remove norm) batch
              (index_inventory norm inv, [])) as [d outcomes].
  cbn [fst snd written reports]. split; reflexivity.
Qed.

(** A batch in two parts stores what the second part would store on what
    the first part left. *)
Lemma reconcile_in_two (b1 b2 : list item) (inv : list item) :
  fst (reconcile Remove norm inv (b1 ++ b2))
  = fst (reconcile Remove norm
           (values (fst (reconcile Remove norm inv b1))) b2).
Proof.
  unfold reconcile. rewrite fold_left_app.
  pose proof (remove_loop_is_policy b1 (index_inventory norm inv) []) as E1.
  destruct (remove_loop_shape norm b1 (index_inventory norm inv))
    as [d1 [rs1 [L1 [_ [C1 _]]]]].
  cbn [records map] in E1. rewrite (L1 []) in E1.
  destruct (fold_left (reconcile_item Remove norm) b1
              (index_inventory norm inv, [])) as [d1' o1].
  cbn [fst snd] in *. injection E1 as <- _.
  rewrite (index_values norm d1 (C1 (consistent_index norm inv))).
  pose proof (remove_loop_is_policy b2 d1 o1) as E2.
  pose proof (remove_loop_is_policy b2 d1 []) as E3.
  destruct (remove_loop_shape norm b2 d1) as [d2 [rs2 [L2 _]]].
  rewrite L2 in E2, E3.
  injection E2 as <- _. injection E3 as <- _. reflexivity.
Qed.

End WithNormalizer.
End PolicyFacts.

(* ================================================================== *)
(** * Calls that are given up *)
(* ================================================================== *)

Module GiveUpFacts.
Import PyStr PyFloat PyExc Units Classifier Inventory Branches DictFacts
  MoreDictFacts BranchFacts.

(** ** Loops and handlers *)

Lemma for_each_app {S A : Type} (body : S -> A -> result S) (l1 l2 : list A) :
  forall st,
  for_each body (l1 ++ l2) st = (st' <- for_each body l1 st ;; for_each body l2 st').
Proof.
  induction l1 as [| x l1 IH]; intros st; [reflexivity |].
  cbn [app for_each]. destruct (body st x) as [st1 | e]; cbn [bind];
    [apply IH | reflexivity].
Qed.

Lemma for_each_raises {S A : Type} (body : S -> A -> result S) (x : A)
    (l : list A) :
  (forall st, raised (body st x) = true) -> In x l ->
  forall st, raised (for_each body l st) = true.
Proof.
  intros R. induction l as [| y l IH]; intros I st; [destruct I |].
  cbn [for_each]. destruct (body st y) as [st1 | e] eqn:B; cbn [bind];
    [| reflexivity].
  destruct I as [-> | I]; [| apply IH, I].
  specialize (R st). rewrite B in R. discriminate R.
Qed.

Lemma for_each_keeps {S A : Type} (P : S -> Prop) (body : S -> A -> result S) :
  (forall st x st', body st x = Ok st' -> P st -> P st') ->
  forall l st st', for_each body l st = Ok st' -> P st -> P st'.
Proof.
  intros K. induction l as [| x l IH]; intros st st' H p; cbn [for_each] in H.
  - injection H as <-. exact p.
  - destruct (body st x) as [st1 | e] eqn:B; cbn [bind] in H;
      [| discriminate H].
    exact (IH _ _ H (K _ _ _ B p)).
Qed.

Lemma except_ValueError_Ok {A : Type} (m h : result A) (a : A) :
  except_ValueError m h = Ok a -> m = Ok a \/ h = Ok a.
Proof.
  destruct m as [a' | []]; cbn [except_ValueError]; auto.
Qed.

Lemma subscript_Ok (j : json) (key : string) (v : json) :
  subscript j key = Ok v -> exists d, j = JDict d /\ get key d = Some v.
Proof.
  destruct j; cbn [subscript]; try discriminate.
  destruct (get key d) as [w |] eqn:G; [| discriminate].
  intros H. injection H as <-. eauto.
Qed.

Lemma subscript_not_ValueError (j : json) (key msg : string) :
  subscript j key <> Raise (ValueError msg).
Proof.
  destruct j; cbn [subscript]; try discriminate.
  destruct (get key d); discriminate.
Qed.

(** An amount that is not a text cannot be read, and what [strip] or
    [lower] raises on it is no [ValueError]. *)
Lemma amount_not_text (item : json) :
  (forall s, subscript item "amount" <> Ok (JStr s)) ->
  forall method,
    exists e,
      (amount <- subscript item "amount" ;; str_method method amount)
      = Raise e
      /\ forall msg, e <> ValueError msg.
Proof.
  intros N method.
  destruct (subscript item "amount") as [a | e] eqn:S; cbn [bind].
  - destruct a; try (eexists; split; [reflexivity | discriminate]).
    exfalso. exact (N s eq_refl).
  - exists e. split; [reflexivity |]. intros msg ->.
    exact (subscript_not_ValueError _ _ _ S).
Qed.

Section Anything.

Variable norm : string -> string.
Variable other : json -> option string.
Variable str_of : json -> string.
Variable store_call : json -> list json -> result unit.

Local Abbreviation remove_item := (Branches.remove_item norm other).
Local Abbreviation update_item := (Branches.update_item norm other).
Local Abbreviation remove_branch :=
  (Branches.remove_branch norm other str_of store_call).
Local Abbreviation update_branch :=
  (Branches.update_branch norm other str_of store_call).

(** ** What gives a call up *)

Lemma update_item_not_text (st : additions) (item : json) :
  (forall s, subscript item "amount" <> Ok (JStr s)) ->
  raised (update_item st item) = true.
Proof.
  intros N. unfold Branches.update_item.
  destruct (subscript item "name") as [n | e]; cbn [bind]; [| reflexivity].
  destruct (normalize_name norm other n) as [k | e]; cbn [bind];
    [| reflexivity].
  unfold update_try, parse_amount.
  destruct (amount_not_text item N "strip") as [e [E V]].
  destruct (subscript item "amount") as [a | e'] eqn:S; cbn [bind] in *.
  - rewrite E. cbn [bind]. destruct e; try reflexivity.
    exfalso. exact (V _ eq_refl).
  - injection E as ->. destruct e; try reflexivity.
    exfalso. exact (V _ eq_refl).
Qed.

Lemma update_gives_up (classification : json) (user : dict json)
    (items : list json) (item : json) :
  py_get classification "items" (JList []) = Ok (JList items) ->
  In item items ->
  (forall s, subscript item "amount" <> Ok (JStr s)) ->
  given_up Msg.update_failed (update_branch classification user).
Proof.
  intros I M N. unfold Branches.update_branch, update_run.
  destruct (index_entries norm other user) as [d | e]; cbn [bind];
    [| repeat split].
  rewrite I. cbn [bind visited].
  pose proof (for_each_raises update_item item items
                (fun st => update_item_not_text st item N) M
                (Additions d [] false)) as R.
  destruct (for_each update_item items (Additions d [] false));
    [discriminate R | repeat split].
Qed.

Lemma remove_item_not_text (d : dict json) (rs : list json) (item : json)
    (n : string) :
  subscript item "name" = Ok (JStr n) ->
  (forall s, subscript item "amount" <> Ok (JStr s)) ->
  has_key (norm n) d = true ->
  raised (remove_item (d, rs) item) = true.
Proof.
  intros S N K. unfold Branches.remove_item. rewrite S.
  cbn [bind normalize_name]. unfold has_key in K.
  destruct (get (norm n) d) as [cur |]; [| discriminate K].
  destruct (amount_not_text item N "lower") as [e [E _]].
  destruct (subscript item "amount") as [a | e']; cbn [bind] in *.
  - rewrite E. reflexivity.
  - reflexivity.
Qed.

Lemma remove_gives_up (classification : json) (user : dict json)
    (inv b1 : list item) (item : json) (b2 : list json) (n : string) :
  stored_ingredients user = Ok (JList (map of_item inv)) ->
  py_get classification "items" (JList [])
  = Ok (JList (map of_item b1 ++ item :: b2)) ->
  subscript item "name" = Ok (JStr n) ->
  (forall s, subscript item "amount" <> Ok (JStr s)) ->
  has_key (norm n) (fst (remove_loop norm b1 (index_inventory norm inv, [])))
  = true ->
  given_up Msg.remove_failed (remove_branch classification user).
Proof.
  intros S I Sn N K. unfold Branches.remove_branch, remove_run.
  rewrite (index_entries_on_texts norm other user inv S). cbn [bind].
  rewrite I. cbn [bind visited]. rewrite for_each_app.
  pose proof (remove_items_on_texts norm other b1
                (index_inventory norm inv) []) as E.
  cbn [map] in E. rewrite E. clear E. cbn [bind for_each].
  pose proof (remove_item_not_text
                (of_items (fst (remove_loop norm b1
                                  (index_inventory norm inv, []))))
                (map of_report (snd (remove_loop norm b1
                                       (index_inventory norm inv, []))))
                item n Sn N) as R.
  unfold has_key in R, K. rewrite get_of_items in R.
  destruct (get (norm n)
              (fst (remove_loop norm b1 (index_inventory norm inv, []))));
    [| discriminate K].
  specialize (R eq_refl).
  destruct (remove_item _ item); [discriminate R |].
  cbn [bind]. repeat split.
Qed.

(** ** The reply can always be written *)

Lemma named_assign (c : json) (key : string) (v c' : json) :
  assign c key v = Ok c' -> named c = true -> named c' = true.
Proof.
  destruct c; cbn [assign]; try discriminate.
  intros H. injection H as <-. cbn [named]. rewrite has_key_set.
  intros ->. apply orb_true_r.
Qed.

Lemma named_subscript (j v : json) :
  subscript j "name" = Ok v -> named j = true.
Proof.
  intros H. destruct (subscript_Ok _ _ _ H) as [d [-> G]].
  cbn [named]. unfold has_key. rewrite G. reflexivity.
Qed.

Lemma forallb_values_set (p : json -> bool) (k : string) (v : json)
    (d : dict json) :
  p v = true -> forallb p (values d) = true ->
  forallb p (values (set k v d)) = true.
Proof.
  intros Pv. induction d as [| [k' v'] d IH]; cbn [set values map snd forallb].
  - intros _. rewrite Pv. reflexivity.
  - fold (values d). intros H. apply andb_prop in H. destruct H as [H1 H2].
    destruct (String.eqb k k'); cbn [map snd forallb].
    + fold (values d). rewrite Pv, H2. reflexivity.
    + fold (values (set k v d)). rewrite H1, (IH H2). reflexivity.
Qed.

Lemma forallb_values_del (p : json -> bool) (k : string) (d : dict json) :
  forallb p (values d) = true -> forallb p (values (del k d)) = true.
Proof.
  induction d as [| [k' v'] d IH]; cbn [del values map snd forallb];
    [auto |].
  fold (values d). intros H. apply andb_prop in H. destruct H as [H1 H2].
  destruct (String.eqb k k'); [exact (IH H2) |].
  cbn [map snd forallb]. fold (values (del k d)).
  rewrite H1, (IH H2). reflexivity.
Qed.

Lemma forallb_values_get (p : json -> bool) (k : string) (v : json)
    (d : dict json) :
  forallb p (values d) = true -> get k d = Some v -> p v = true.
Proof.
  induction d as [| [k' v'] d IH]; cbn [get values map snd forallb];
    [discriminate |].
  fold (values d). intros H. apply andb_prop in H. destruct H as [H1 H2].
  destruct (String.eqb k k'); [| exact (IH H2)].
  intros E. injection E as <-. exact H1.
Qed.

Lemma forallb_push (p : json -> bool) (l : list json) (x : json) :
  forallb p l = true -> p x = true -> forallb p (push l x) = true.
Proof.
  intros H X. unfold push. rewrite forallb_app, H. cbn. rewrite X.
  reflexivity.
Qed.

Lemma index_entry_named (d : dict json) (item : json) (d' : dict json) :
  Branches.index_entry norm other d item = Ok d' ->
  forallb named (values d) = true -> forallb named (values d') = true.
Proof.
  unfold Branches.index_entry.
  destruct (subscript item "name") as [n | e] eqn:S; cbn [bind];
    [| discriminate].
  destruct (normalize_name norm other n) as [k | e]; cbn [bind];
    [| discriminate].
  intros H. injection H as <-. apply forallb_values_set.
  exact (named_subscript _ _ S).
Qed.

Lemma index_entries_named (user : dict json) (d : dict json) :
  index_entries norm other user = Ok d -> forallb named (values d) = true.
Proof.
  unfold index_entries.
  destruct (stored_ingredients user) as [inv | e]; cbn [bind];
    [| discriminate].
  destruct (visited inv) as [entries | e]; cbn [bind]; [| discriminate].
  intros H.
  exact (for_each_keeps (fun d => forallb named (values d) = true)
           (Branches.index_entry norm other) index_entry_named
           entries [] d H eq_refl).
Qed.

(** A stored entry with a name and an amount can be shown. *)
Lemma entry_shown (j v : json) :
  named j = true -> subscript j "amount" = Ok v -> removal_shown j = true.
Proof.
  intros N S. destruct (subscript_Ok _ _ _ S) as [d [-> G]].
  cbn [named removal_shown] in *. rewrite N. unfold has_key at 2.
  rewrite G. apply orb_true_r.
Qed.

Ltac step H :=
  match type of H with
  | bind ?m _ = Ok _ =>
      let E := fresh "E" in
      destruct m eqn:E; cbn [bind] in H; [| discriminate H]
  | (let (_, _) := ?p in _) = Ok _ => destruct p
  | (if ?b then _ else _) = Ok _ => destruct b
  | match ?o with Some _ => _ | None => _ end = Ok _ => destruct o
  end.

Ltac done H :=
  injection H as <-; cbn [fst snd updated_items fail_with];
  repeat split;
  eauto using forallb_values_set, forallb_values_del, forallb_push,
    named_assign, entry_shown.

Lemma remove_try_keeps (k : string) (cur item : json) (d : dict json)
    (rs : list json) (st' : dict json * list json) :
  remove_try k cur item d rs = Ok st' ->
  named cur = true ->
  forallb named (values d) = true -> forallb removal_shown rs = true ->
  forallb named (values (fst st')) = true
  /\ forallb removal_shown (snd st') = true.
Proof.
  unfold remove_try. intros H Nc Nd Rs. repeat step H; done H.
Qed.

Lemma remove_item_keeps (st : dict json * list json) (item : json)
    (st' : dict json * list json) :
  remove_item st item = Ok st' ->
  forallb named (values (fst st)) = true
  /\ forallb removal_shown (snd st) = true ->
  forallb named (values (fst st')) = true
  /\ forallb removal_shown (snd st') = true.
Proof.
  destruct st as [d rs]. cbn [fst snd]. intros H [Nd Rs].
  unfold Branches.remove_item in H. do 2 step H.
  match type of H with
  | match get ?k d with _ => _ end = _ =>
      destruct (get k d) as [cur |] eqn:G
  end; [| repeat step H; done H].
  pose proof (forallb_values_get _ _ _ _ Nd G) as Nc.
  do 2 step H.
  match type of H with
  | (if ?b then _ else _) = _ => destruct b
  end; [repeat step H; done H |].
  apply except_ValueError_Ok in H. destruct H as [H | H].
  - exact (remove_try_keeps _ _ _ _ _ _ H Nc Nd Rs).
  - unfold remove_unparsed in H. repeat step H; done H.
Qed.

Lemma remove_run_shown (classification : json) (user : dict json)
    (d : dict json) (rs : list json) :
  remove_run norm other classification user = Ok (d, rs) ->
  forallb removal_shown rs = true.
Proof.
  unfold remove_run. intros H. do 3 step H.
  pose proof (index_entries_named _ _ E) as Nd.
  exact (proj2 (for_each_keeps
                  (fun st => forallb named (values (fst st)) = true
                             /\ forallb removal_shown (snd st) = true)
                  remove_item remove_item_keeps _ _ _ H
                  (conj Nd eq_refl))).
Qed.

Lemma update_try_keeps (k : string) (item : json) (st st' : additions) :
  update_try k item st = Ok st' ->
  forallb addition_shown (updated_items st) = true ->
  forallb addition_shown (updated_items st') = true.
Proof.
  unfold update_try. intros H Rs. do 3 step H.
  destruct (_validate_unit _) as [[|] msg]; cbn [negb] in H;
    [| repeat step H; done H].
  destruct (get k (current_items st)) as [cur |]; [| repeat step H; done H].
  do 3 step H.
  destruct (_validate_unit _) as [[|] msg']; cbn [negb] in H;
    [| repeat step H; done H].
  match type of H with
  | match ?c with _ => _ end = _ => destruct c as [[nv nu] |]
  end; repeat step H; done H.
Qed.

Lemma update_item_keeps (st : additions) (item : json) (st' : additions) :
  update_item st item = Ok st' ->
  forallb addition_shown (updated_items st) = true ->
  forallb addition_shown (updated_items st') = true.
Proof.
  unfold Branches.update_item. intros H Rs. do 2 step H.
  apply except_ValueError_Ok in H. destruct H as [H | H].
  - exact (update_try_keeps _ _ _ _ H Rs).
  - unfold update_unparsed in H. repeat step H; done H.
Qed.

Lemma update_run_shown (classification : json) (user : dict json)
    (st : additions) :
  update_run norm other classification user = Ok st ->
  forallb addition_shown (updated_items st) = true.
Proof.
  unfold update_run. intros H. do 3 step H.
  exact (for_each_keeps
           (fun st => forallb addition_shown (updated_items st) = true)
           update_item update_item_keeps _ _ _ H eq_refl).
Qed.

Lemma get_has_key (key : string) (d : dict json) :
  has_key key d = true -> exists v, get key d = Some v.
Proof.
  unfold has_key. destruct (get key d) as [v |]; [eauto | discriminate].
Qed.

Lemma removed_line_written (j : json) :
  removal_shown j = true ->
  exists s, removed_entry_line str_of j = Ok s.
Proof.
  destruct j; try discriminate. cbn [removal_shown]. intros H.
  apply andb_prop in H. destruct H as [N H].
  destruct (get_has_key _ _ N) as [n Gn].
  unfold removed_entry_line. cbn [py_in bind subscript]. rewrite Gn.
  destruct (has_key "error" d) eqn:E; cbn [bind orb] in *.
  - destruct (get_has_key _ _ E) as [e Ge]. rewrite Ge. cbn [bind]. eauto.
  - destruct (get_has_key _ _ H) as [a Ga]. rewrite Ga. cbn [bind]. eauto.
Qed.

Lemma updated_line_written (j : json) :
  addition_shown j = true ->
  exists s, updated_entry_line str_of j = Ok s.
Proof.
  destruct j; try discriminate. cbn [addition_shown]. intros H.
  apply andb_prop in H. destruct H as [H X].
  apply andb_prop in H. destruct H as [N A].
  destruct (get_has_key _ _ N) as [n Gn].
  destruct (get_has_key _ _ A) as [a Ga].
  unfold updated_entry_line. cbn [py_in bind subscript]. rewrite Gn, Ga.
  destruct (has_key "error" d) eqn:E; cbn [bind orb] in *.
  - destruct (get_has_key _ _ E) as [e Ge]. rewrite Ge. cbn [bind]. eauto.
  - destruct (get_has_key _ _ X) as [x Gx]. rewrite Gx. cbn [bind]. eauto.
Qed.

Lemma lines_written (line : json -> result string) (ok : json -> bool)
    (l : list json) :
  (forall j, ok j = true -> exists s, line j = Ok s) ->
  forallb ok l = true -> exists s, lines_of line l = Ok s.
Proof.
  intros L. induction l as [| j l IH]; intros H; cbn [lines_of];
    [eauto |].
  cbn [forallb] in H. apply andb_prop in H. destruct H as [Hj Hl].
  destruct (L j Hj) as [s ->]. destruct (IH Hl) as [s' ->].
  cbn [bind]. eauto.
Qed.

(** ** The fixed reply *)

Lemma removed_reply_is_no_apology (rs : list json) (n : nat) (s : string) :
  removed_reply str_of rs n = Ok s -> s <> Msg.remove_failed.
Proof.
  unfold removed_reply. destruct rs as [| r rs].
  - intros H. injection H as <-. discriminate.
  - destruct (lines_of _ _) as [body |]; cbn [bind]; [| discriminate].
    intros H. injection H as <-. intros C.
    apply (f_equal (substring 0 2)) in C. vm_compute in C. discriminate C.
Qed.

Lemma updated_reply_is_no_apology (st : additions) (s : string) :
  updated_reply str_of st = Ok s -> s <> Msg.update_failed.
Proof.
  unfold updated_reply. destruct (updated_items st) as [| r rs].
  - intros H. injection H as <-. discriminate.
  - destruct (lines_of _ _) as [body |]; cbn [bind]; [| discriminate].
    intros H. injection H as <-. intros C.
    apply (f_equal (substring 0 2)) in C.
    destruct (any_errors st); vm_compute in C; discriminate C.
Qed.

(** A branch that answers with the apology has stored nothing. *)
Lemma remove_apology (classification : json) (user : dict json) :
  t_response (remove_branch classification user) = Msg.remove_failed ->
  given_up Msg.remove_failed (remove_branch classification user).
Proof.
  unfold Branches.remove_branch.
  destruct (remove_run norm other classification user) as [[d rs] | e] eqn:R;
    [| repeat split].
  destruct (persist store_call user (values d)); [| repeat split].
  destruct (lines_written (removed_entry_line str_of) removal_shown rs
              removed_line_written (remove_run_shown _ _ _ _ R))
    as [body B].
  destruct (removed_reply str_of rs (List.length (values d)))
    as [s |] eqn:F.
  - cbn [t_response]. intros C. exfalso.
    exact (removed_reply_is_no_apology _ _ _ F C).
  - exfalso. unfold removed_reply in F. destruct rs; [discriminate F |].
    rewrite B in F. discriminate F.
Qed.

Lemma update_apology (classification : json) (user : dict json) :
  t_response (update_branch classification user) = Msg.update_failed ->
  given_up Msg.update_failed (update_branch classification user).
Proof.
  unfold Branches.update_branch.
  destruct (update_run norm other classification user) as [st | e] eqn:R;
    [| repeat split].
  destruct (if any_errors st then Ok tt
            else persist store_call user (values (current_items st)));
    [| repeat split].
  destruct (lines_written (updated_entry_line str_of) addition_shown
              (updated_items st) updated_line_written
              (update_run_shown _ _ _ R)) as [body B].
  destruct (updated_reply str_of st) as [s |] eqn:F.
  - cbn [t_response]. intros C. exfalso.
    exact (updated_reply_is_no_apology _ _ F C).
  - exfalso. unfold updated_reply in F.
    destruct (updated_items st); [discriminate F |].
    rewrite B in F. discriminate F.
Qed.

End Anything.
End GiveUpFacts.

(* ================================================================== *)
(** * The commit policy of the two modes *)
(* ================================================================== *)

Module CommitTheorems.
Import PyStr PyFloat PyExc Units Classifier Inventory Branches Policy
  BranchFacts PolicyFacts GiveUpFacts.

(** C2, as stated, fails: a Remove batch is not always committed.  The
    classification below passes [classify_message] unchanged; its first
    item removes all of the rice, which alone would store the eggs and
    the milk; its second item carries the amount as a number, [lower]
    raises on it outside the inner [try], and the outer handler answers
    with the apology and stores nothing, the rice included. *)
Lemma remove_is_given_up_after_a_success :
  classify_message (Decoded spoiled_request) = spoiled_request
  /\ inventory_turn lower no_answer not_shown store_answers
       (request_for "remove_inventory" [of_item (Item "rice" "all")])
       pantry_user
     = Ok (Some
             {| t_response :=
                  Msg.remove_header ++ Msg.removed_items_heading
                    ++ Msg.bullet ++ "rice (1 kg)" ++ nl
                    ++ Msg.remaining_items ++ "2";
                t_history := JList [];
                t_written :=
                  Some [of_item (Item "Egg" "6"); of_item (Item "milk" "2 l")];
                t_reports := [of_item (Item "rice" "1 kg")] |})
  /\ inventory_turn lower no_answer not_shown store_answers
       spoiled_request pantry_user
     = Ok (Some
             {| t_response := Msg.remove_failed;
                t_history := JList [];
                t_written := None;
                t_reports := [] |})
  /\ ~ (forall (c : completion) (user : dict json),
          action_of (classify_message c) = Some "remove_inventory" ->
          t_written
            (remove_branch lower no_answer not_shown store_answers
               (classify_message c) user)
          <> None).
Proof.
  split; [vm_compute; reflexivity |].
  split; [vm_compute; reflexivity |].
  split; [vm_compute; reflexivity |].
  intros H.
  exact (H (Decoded spoiled_request) pantry_user eq_refl eq_refl).
Qed.

(** C2, amended.  On stored entries and items whose names and amounts
    are texts, with a store that answers, each branch reports the records
    of the specification's reconciler, one per item in input order, and
    stores what its commit rule says: Add only when every item was
    applied, so that one failing item (an amount that does not parse, an
    unknown unit, units that cannot be converted, on the item or on the
    stored entry) leaves the whole batch unwritten while every record is
    still reported; Remove whatever the outcomes, so that a batch
    [b1 ++ b2] stores what [b2] would store on what [b1] left.  This
    holds only of calls that are not given up: an Add batch with an item
    whose amount is not a text, and a Remove batch in which items made of
    texts are followed by an item that is still in stock and whose amount
    is not a text, end with the apology, no record and nothing stored,
    whatever the earlier items did; and a branch that answers with the
    apology has stored nothing, whatever values it was given. *)
Theorem commit_policy_by_mode
    (normalize : string -> string) (other : json -> option string)
    (str_of : json -> string)
    (update_one : json -> list json -> result unit) :
  let add := update_branch normalize other str_of update_one in
  let remove := remove_branch normalize other str_of update_one in
  (forall user_id others action currentInventory deltaItems m,
      answering update_one ->
      let user :=
        document user_id (JList (map of_item currentInventory)) others in
      let classification := request_for action (map of_item deltaItems) in
      let t := match m with
               | Add => add classification user
               | Remove => remove classification user
               end in
      let reconciled := reconcile m normalize currentInventory deltaItems in
      t_reports t = map of_report (records (snd reconciled))
      /\ List.length (t_reports t) = List.length deltaItems
      /\ t_written t
         = match m with
           | Add =>
               if forallb applied (verdicts (snd reconciled))
               then Some (map of_item (values (fst reconciled)))
               else None
           | Remove => Some (map of_item (values (fst reconciled)))
           end)
  /\ (forall user_id others action currentInventory b1 b2,
        answering update_one ->
        let left_by_b1 :=
          values (fst (reconcile Remove normalize currentInventory b1)) in
        t_written
          (remove (request_for action (map of_item (b1 ++ b2)))
             (document user_id (JList (map of_item currentInventory)) others))
        = t_written
            (remove (request_for action (map of_item b2))
               (document user_id (JList (map of_item left_by_b1)) others)))
  /\ (forall classification user items item,
        py_get classification "items" (JList []) = Ok (JList items) ->
        In item items ->
        (forall s, subscript item "amount" <> Ok (JStr s)) ->
        given_up Msg.update_failed (add classification user))
  /\ (forall user_id others action currentInventory b1 item b2 name,
        subscript item "name" = Ok (JStr name) ->
        (forall s, subscript item "amount" <> Ok (JStr s)) ->
        has_key (normalize name)
          (fst (reconcile Remove normalize currentInventory b1)) = true ->
        given_up Msg.remove_failed
          (remove (request_for action (map of_item b1 ++ item :: b2))
             (document user_id (JList (map of_item currentInventory))
                others)))
  /\ (forall classification user,
        (t_response (add classification user) = Msg.update_failed ->
         given_up Msg.update_failed (add classification user))
        /\ (t_response (remove classification user) = Msg.remove_failed ->
            given_up Msg.remove_failed (remove classification user))).
Proof.
  cbv zeta. split; [| split; [| split; [| split]]].
  - intros user_id others action inv delta m A. destruct m.
    + rewrite (update_branch_on_texts normalize other str_of update_one
                 (request_for action (map of_item delta))
                 (document user_id (JList (map of_item inv)) others)
                 user_id inv delta eq_refl eq_refl eq_refl A).
      cbn [of_outcome t_reports t_written].
      destruct (update_inventory_is_policy normalize inv delta) as [W R].
      rewrite W, R. unfold committed, records.
      rewrite !length_map, reconcile_length.
      destruct (reconcile Add normalize inv delta) as [d o]. cbn [fst snd].
      split; [reflexivity | split; [reflexivity |]].
      destruct (forallb applied (verdicts o)); reflexivity.
    + rewrite (remove_branch_on_texts normalize other str_of update_one
                 (request_for action (map of_item delta))
                 (document user_id (JList (map of_item inv)) others)
                 user_id inv delta false eq_refl eq_refl eq_refl A).
      cbn [of_outcome t_reports t_written].
      destruct (remove_inventory_is_policy normalize inv delta false)
        as [W R].
      rewrite W, R. unfold committed, records.
      rewrite !length_map, reconcile_length.
      destruct (reconcile Remove normalize inv delta) as [d o].
      cbn [fst snd]. repeat split.
  - intros user_id others action inv b1 b2 A.
    rewrite (remove_branch_on_texts normalize other str_of update_one
               (request_for action (map of_item (b1 ++ b2)))
               (document user_id (JList (map of_item inv)) others)
               user_id inv (b1 ++ b2) false eq_refl eq_refl eq_refl A).
    rewrite (remove_branch_on_texts normalize other str_of update_one
               (request_for action (map of_item b2))
               (document user_id
                  (JList (map of_item
                            (values (fst (reconcile Remove normalize inv
                                            b1))))) others)
               user_id
               (values (fst (reconcile Remove normalize inv b1)))
               b2 false eq_refl eq_refl eq_refl A).
    cbn [of_outcome t_written].
    rewrite (proj1 (remove_inventory_is_policy normalize inv (b1 ++ b2)
                      false)).
    rewrite (proj1 (remove_inventory_is_policy normalize _ b2 false)).
    unfold committed.
    pose proof (reconcile_in_two normalize b1 b2 inv) as T.
    destruct (reconcile Remove normalize inv (b1 ++ b2)) as [d o].
    destruct (reconcile Remove normalize
                (values (fst (reconcile Remove normalize inv b1))) b2)
      as [d' o'].
    cbn [fst] in T. subst d'. reflexivity.
  - intros classification user items item.
    apply update_gives_up.
  - intros user_id others action inv b1 item b2 name Sn N K.
    apply (remove_gives_up normalize other str_of update_one
             (request_for action (map of_item b1 ++ item :: b2))
             (document user_id (JList (map of_item inv)) others)
             inv b1 item b2 name eq_refl eq_refl Sn N).
    pose proof (remove_loop_is_policy normalize b1
                  (index_inventory normalize inv) []) as E.
    cbn [records map] in E. rewrite E. exact K.
  - intros classification user. split;
      [apply update_apology | apply remove_apology].
Qed.

Lemma commit_policy_by_mode_witness :
  answering store_answers
  /\ (t_reports
        (update_branch lower no_answer not_shown store_answers
           (request_for "update_inventory"
              (map of_item
                 [Item "rice" "500g"; Item "flour" "2 kg";
                  Item "milk" "1 ltr"; Item "eggs" "half a dozen";
                  Item "rice" "1 l"]))
           pantry_user)
      = map of_report
          [Report "rice" (Some "1.5 kg") (Some "0.5 kg") None;
           Report "flour" (Some "2 kg") (Some "2 kg") None;
           Report "milk" (Some "1 ltr") None (Some "Did you mean: l?");
           Report "eggs" (Some "half a dozen") None
             (Some "Invalid amount format");
           Report "rice" (Some "1 l") None
             (Some "Cannot convert between l and kg")]
      /\ List.length
           (t_reports
              (update_branch lower no_answer not_shown store_answers
                 (request_for "update_inventory"
                    (map of_item
                       [Item "rice" "500g"; Item "flour" "2 kg";
                        Item "milk" "1 ltr"; Item "eggs" "half a dozen";
                        Item "rice" "1 l"]))
                 pantry_user))
         = 5
      /\ t_written
           (update_branch lower no_answer not_shown store_answers
              (request_for "update_inventory"
                 (map of_item
                    [Item "rice" "500g"; Item "flour" "2 kg";
                     Item "milk" "1 ltr"; Item "eggs" "half a dozen";
                     Item "rice" "1 l"]))
              pantry_user)
         = None)
  /\ (t_reports
        (remove_branch lower no_answer not_shown store_answers
           (request_for "remove_inventory"
              (map of_item
                 [Item "rice" "all"; Item "flour" "1 kg";
                  Item "milk" "1 kg"; Item "egg" "7"; Item "egg" "2";
                  Item "milk" "a little"]))
           pantry_user)
      = map of_report
          [Report "rice" (Some "1 kg") None None;
           Report "flour" None None (Some "Item not found in inventory");
           Report "milk" (Some "2 l") None
             (Some "Cannot convert between kg and l");
           Report "Egg" (Some "6") None
             (Some "Requested amount exceeds available amount");
           Report "Egg" (Some "2 piece") None None;
           Report "milk" (Some "2 l") None (Some "Invalid amount format")]
      /\ List.length
           (t_reports
              (remove_branch lower no_answer not_shown store_answers
                 (request_for "remove_inventory"
                    (map of_item
                       [Item "rice" "all"; Item "flour" "1 kg";
                        Item "milk" "1 kg"; Item "egg" "7"; Item "egg" "2";
                        Item "milk" "a little"]))
                 pantry_user))
         = 6
      /\ t_written
           (remove_branch lower no_answer not_shown store_answers
              (request_for "remove_inventory"
                 (map of_item
                    [Item "rice" "all"; Item "flour" "1 kg";
                     Item "milk" "1 kg"; Item "egg" "7"; Item "egg" "2";
                     Item "milk" "a little"]))
              pantry_user)
         = Some (map of_item [Item "Egg" "4 piece"]))
  /\ given_up Msg.update_failed
       (update_branch lower no_answer not_shown store_answers
          (request_for "update_inventory"
             [of_item (Item "rice" "500g");
              JDict [("name", JStr "flour"); ("amount", JInt 2)]])
          pantry_user)
  /\ given_up Msg.remove_failed
       (remove_branch lower no_answer not_shown store_answers
          spoiled_request pantry_user).
Proof.
  pose proof (commit_policy_by_mode lower no_answer not_shown store_answers)
    as [P1 [_ [P3 [P4 _]]]].
  assert (A : answering store_answers) by (intros ? ?; reflexivity).
  split; [exact A |]. split; [| split; [| split]].
  - exact (P1 (JStr "USER_20240101123456_7890") [] "update_inventory" pantry
             [Item "rice" "500g"; Item "flour" "2 kg";
              Item "milk" "1 ltr"; Item "eggs" "half a dozen";
              Item "rice" "1 l"] Add A).
  - exact (P1 (JStr "USER_20240101123456_7890") [] "remove_inventory" pantry
             [Item "rice" "all"; Item "flour" "1 kg";
              Item "milk" "1 kg"; Item "egg" "7"; Item "egg" "2";
              Item "milk" "a little"] Remove A).
  - apply (P3 (request_for "update_inventory"
                 [of_item (Item "rice" "500g");
                  JDict [("name", JStr "flour"); ("amount", JInt 2)]])
             pantry_user
             [of_item (Item "rice" "500g");
              JDict [("name", JStr "flour"); ("amount", JInt 2)]]
             (JDict [("name", JStr "flour"); ("amount", JInt 2)]) eq_refl).
    + right. left. reflexivity.
    + intros s. discriminate.
  - apply (P4 (JStr "USER_20240101123456_7890") [] "remove_inventory" pantry
             [Item "rice" "all"]
             (JDict [("name", JStr "egg"); ("amount", JInt 2)]) [] "egg"
             eq_refl).
    + intros s. discriminate.
    + reflexivity.
Defined.

End CommitTheorems.

(* ================================================================== *)
(** * What a removal can do to the stored list *)
(* ================================================================== *)

Module BranchTheorems.
Import PyStr PyFloat PyExc Units Classifier Inventory Dispatch Branches
  InventoryNotions DictFacts MoreDictFacts RemoveFacts LedgerFacts
  BranchFacts GiveUpFacts.

(** On texts, with a store that answers, the dispatcher on the values it
    receives is the dispatcher of [Dispatch] for the two inventory
    actions. *)
Lemma inventory_turn_on_texts (cap : capabilities)
    (other : json -> option string) (str_of : json -> string)
    (store_call : json -> list json -> result unit)
    (user_id : json) (others : dict json) (inv its : list item)
    (flag : bool) (updated : string) (action : string) :
  answering store_call ->
  action = "remove_inventory" \/ action = "update_inventory" ->
  inventory_turn (normalize_item_name cap) other str_of store_call
    (request_for action (map of_item its))
    (document user_id (JList (map of_item inv)) others)
  = (o <- process_classified_message cap (Classification action its flag)
            (User inv updated) ;;
     Ok (Some (of_outcome
                 (history_of
                    (document user_id (JList (map of_item inv)) others))
                 o))).
Proof.
  intros A [-> | ->]; unfold inventory_turn, process_classified_message;
    cbn [request_for subscript get String.eqb Ascii.eqb Bool.eqb bind is_str
         Dispatch.action Dispatch.items Dispatch.remove_all
         Dispatch.ingredients].
  - rewrite (remove_branch_on_texts (normalize_item_name cap) other str_of
               store_call
               (request_for "remove_inventory" (map of_item its))
               (document user_id (JList (map of_item inv)) others)
               user_id inv its flag eq_refl eq_refl eq_refl A).
    reflexivity.
  - rewrite (update_branch_on_texts (normalize_item_name cap) other str_of
               store_call
               (request_for "update_inventory" (map of_item its))
               (document user_id (JList (map of_item inv)) others)
               user_id inv its eq_refl eq_refl eq_refl A).
    reflexivity.
Qed.

Ltac open_bind H :=
  match type of H with
  | bind ?m _ = Ok _ =>
      let E := fresh "E" in
      destruct m eqn:E; cbn [bind] in H; [| discriminate H]
  | (let (_, _) := ?p in _) = Ok _ => destruct p
  | (if ?b then _ else _) = Ok _ => destruct b
  | match ?o with Some _ => _ | None => _ end = Ok _ => destruct o
  end.

Lemma assign_keeps_name (c : json) (v c' : json) :
  assign c "amount" v = Ok c' -> subscript c' "name" = subscript c "name".
Proof.
  destruct c; cbn [assign]; try discriminate.
  intros H. injection H as <-. cbn [subscript].
  rewrite get_set_other by discriminate. reflexivity.
Qed.

Section Anything.

Variable norm : string -> string.
Variable other : json -> option string.
Variable str_of : json -> string.
Variable store_call : json -> list json -> result unit.

(** Every value of [d'] carries the name of a value of [d]. *)
Local Abbreviation names_from d d' :=
  (forall v : json, In v (values d') ->
     exists v0 : json,
       In v0 (values d) /\ subscript v "name" = subscript v0 "name").

Lemma names_from_del (k : string) (d : dict json) : names_from d (del k d).
Proof. intros v I. exists v. split; [exact (In_values_del _ _ _ I) | auto]. Qed.

Lemma names_from_same (d : dict json) : names_from d d.
Proof. intros v I. exists v. auto. Qed.

Lemma names_from_set (k : string) (cur cur' : json) (d : dict json) :
  get k d = Some cur -> subscript cur' "name" = subscript cur "name" ->
  names_from d (set k cur' d).
Proof.
  intros G N v I. destruct (In_values_set _ _ _ _ I) as [-> | I'].
  - exists cur. split; [exact (get_In_values _ _ _ G) | exact N].
  - exists v. auto.
Qed.

Lemma remove_try_shrinks (k : string) (cur item : json) (d : dict json)
    (rs : list json) (st' : dict json * list json) :
  remove_try k cur item d rs = Ok st' -> get k d = Some cur ->
  List.length (fst st') <= List.length d /\ names_from d (fst st').
Proof.
  unfold remove_try. intros H G.
  assert (P : get k d <> None) by congruence.
  repeat open_bind H; injection H as <-; cbn [fst];
    try (split; [lia | apply names_from_same]);
    try (split; [apply length_del | apply names_from_del]).
  split; [rewrite (length_set_present _ _ _ P); lia |].
  eapply names_from_set; [exact G |].
  eapply assign_keeps_name; eassumption.
Qed.

Lemma remove_item_shrinks (st : dict json * list json) (item : json)
    (st' : dict json * list json) :
  Branches.remove_item norm other st item = Ok st' ->
  List.length (fst st') <= List.length (fst st)
  /\ names_from (fst st) (fst st').
Proof.
  destruct st as [d rs]. cbn [fst]. intros H.
  unfold Branches.remove_item in H. do 2 open_bind H.
  match type of H with
  | match get ?k d with _ => _ end = _ =>
      destruct (get k d) as [cur |] eqn:G
  end.
  2:{ repeat open_bind H. injection H as <-. cbn [fst].
      split; [lia | apply names_from_same]. }
  do 2 open_bind H.
  match type of H with
  | (if ?b then _ else _) = _ => destruct b
  end.
  { repeat open_bind H. injection H as <-. cbn [fst].
    split; [apply length_del | apply names_from_del]. }
  apply except_ValueError_Ok in H. destruct H as [H | H].
  - exact (remove_try_shrinks _ _ _ _ _ _ H G).
  - unfold remove_unparsed in H. repeat open_bind H. injection H as <-.
    cbn [fst]. split; [apply length_del | apply names_from_del].
Qed.

Lemma remove_items_shrink (items : list json) :
  forall st st' : dict json * list json,
  for_each (Branches.remove_item norm other) items st = Ok st' ->
  List.length (fst st') <= List.length (fst st)
  /\ names_from (fst st) (fst st').
Proof.
  induction items as [| item items IH]; intros st st' H; cbn [for_each] in H.
  - injection H as <-. split; [lia | apply names_from_same].
  - destruct (Branches.remove_item norm other st item) as [st1 | e] eqn:R;
      cbn [bind] in H; [| discriminate H].
    destruct (remove_item_shrinks _ _ _ R) as [L1 N1].
    destruct (IH _ _ H) as [L2 N2]. split; [lia |].
    intros v I. destruct (N2 v I) as [v1 [I1 E1]].
    destruct (N1 v1 I1) as [v0 [I0 E0]]. exists v0. split; [exact I0 |].
    congruence.
Qed.

Lemma index_entries_from (entries : list json) :
  forall d d' : dict json,
  for_each (Branches.index_entry norm other) entries d = Ok d' ->
  List.length d' <= List.length d + List.length entries
  /\ forall v, In v (values d') ->
       (In v (values d) \/ In v entries)
       /\ (In v entries -> exists name, subscript v "name" = Ok name).
Proof.
  induction entries as [| item entries IH]; intros d d' H;
    cbn [for_each] in H.
  - injection H as <-. cbn [List.length]. split; [lia |].
    intros v I. split; [auto | intros []].
  - destruct (Branches.index_entry norm other d item) as [d1 | e] eqn:X;
      cbn [bind] in H; [| discriminate H].
    destruct (IH _ _ H) as [L N]. unfold Branches.index_entry in X.
    destruct (subscript item "name") as [n | e] eqn:S; cbn [bind] in X;
      [| discriminate X].
    destruct (normalize_name norm other n) as [k | e]; cbn [bind] in X;
      [| discriminate X].
    injection X as <-. pose proof (length_set k item d).
    cbn [List.length]. split; [lia |].
    intros v I. destruct (N v I) as [[I1 | I1] W].
    + destruct (In_values_set _ _ _ _ I1) as [-> | I2].
      * split; [right; left; reflexivity | intros _; eauto].
      * split; [left; exact I2 |].
        intros [<- | I3]; [eauto | exact (W I3)].
    + split; [right; right; exact I1 |].
      intros _. exact (W I1).
Qed.

(** X8.  Remove never adds or renames, whatever values the document and
    the classification hold: a list it hands to the store is no longer
    than the list of stored entries, and each of its entries carries the
    name of a stored entry.  On texts, with a store that answers, it does
    hand a list to the store. *)
Theorem remove_only_shrinks :
  (forall (classification : json) (user : dict json) (l : list json),
      t_written (remove_branch norm other str_of store_call
                   classification user) = Some l ->
      exists entries,
        stored_entries user = Ok entries
        /\ List.length l <= List.length entries
        /\ forall e, In e l ->
             exists s name,
               In s entries
               /\ subscript s "name" = Ok name
               /\ subscript e "name" = Ok name)
  /\ (forall user_id others action (inv batch : list item),
        answering store_call ->
        exists l,
          t_written (remove_branch norm other str_of store_call
                       (request_for action (map of_item batch))
                       (document user_id (JList (map of_item inv)) others))
          = Some l).
Proof.
  split.
  - intros classification user l. unfold Branches.remove_branch.
    destruct (remove_run norm other classification user)
      as [[d rs] | e] eqn:R; [| discriminate].
    assert (W : exists entries,
               stored_entries user = Ok entries
               /\ List.length (values d) <= List.length entries
               /\ forall e, In e (values d) ->
                    exists s name,
                      In s entries
                      /\ subscript s "name" = Ok name
                      /\ subscript e "name" = Ok name).
    { unfold remove_run, index_entries, stored_ingredients in R.
      unfold stored_entries.
      destruct (py_get _ "ingredients" (JList [])) as [ci | e];
        cbn [bind] in R; [| discriminate R].
      destruct (visited ci) as [entries | e]; cbn [bind] in R;
        [| discriminate R].
      destruct (for_each (Branches.index_entry norm other) entries [])
        as [d0 | e] eqn:X; cbn [bind] in R; [| discriminate R].
      do 2 open_bind R.
      destruct (index_entries_from _ _ _ X) as [L0 N0].
      destruct (remove_items_shrink _ _ _ R) as [L1 N1].
      cbn [fst List.length] in *.
      exists entries. split; [reflexivity |]. split.
      - unfold values. rewrite length_map. lia.
      - intros e I. destruct (N1 e I) as [v0 [I0 Q0]].
        destruct (N0 v0 I0) as [[[] | I1] Nm].
        destruct (Nm I1) as [name Sn].
        exists v0, name. split; [exact I1 |]. split; [exact Sn |].
        congruence. }
    destruct (persist store_call user (values d)); [| discriminate].
    destruct (removed_reply str_of rs (List.length (values d)));
      cbn [t_written gave_up]; intros H; injection H as <-; exact W.
  - intros user_id others action inv batch A.
    rewrite (remove_branch_on_texts norm other str_of store_call
               (request_for action (map of_item batch))
               (document user_id (JList (map of_item inv)) others)
               user_id inv batch false eq_refl eq_refl eq_refl A).
    cbn [of_outcome t_written]. unfold remove_inventory.
    destruct (remove_loop norm batch (index_inventory norm inv, [])).
    cbn [written option_map]. eauto.
Qed.

Lemma refusal_of_report (r : report) :
  refusal_shown (of_report r) = refused r.
Proof. destruct r as [n [a |] [b |] [e |]]; reflexivity. Qed.

Lemma refusals_of_reports (rs : list report) :
  forallb refusal_shown (map of_report rs) = forallb refused rs.
Proof.
  induction rs as [| r rs IH]; [reflexivity |].
  cbn [map forallb]. rewrite refusal_of_report, IH. reflexivity.
Qed.

(** X9.  On stored entries with pairwise distinct normalized names, a
    Remove call whose records all refuse the request (item not found,
    more than is stored, units that cannot be converted) hands the stored
    list back as it was: only a removal that went through, or an amount
    that does not parse, changes the mapping. *)
Theorem refused_removals_change_nothing
    (user_id : json) (others : dict json) (action : string)
    (inv batch : list item) :
  answering store_call ->
  NoDup (normalized norm inv) ->
  forallb refusal_shown
    (t_reports (remove_branch norm other str_of store_call
                  (request_for action (map of_item batch))
                  (document user_id (JList (map of_item inv)) others)))
  = true ->
  t_written (remove_branch norm other str_of store_call
               (request_for action (map of_item batch))
               (document user_id (JList (map of_item inv)) others))
  = Some (map of_item inv).
Proof.
  intros A N.
  rewrite (remove_branch_on_texts norm other str_of store_call
             (request_for action (map of_item batch))
             (document user_id (JList (map of_item inv)) others)
             user_id inv batch false eq_refl eq_refl eq_refl A).
  cbn [of_outcome t_written t_reports]. unfold remove_inventory.
  destruct (remove_loop_refusals norm batch (index_inventory norm inv))
    as [d' [rs' [E F]]].
  rewrite (E []). cbn [reports written app option_map]. intros H.
  rewrite refusals_of_reports in H.
  rewrite (F H), (values_index_distinct norm inv N). reflexivity.
Qed.

End Anything.

Lemma remove_only_shrinks_witness :
  exists entries,
    stored_entries pantry_user = Ok entries
    /\ List.length [of_item (Item "Egg" "6"); of_item (Item "milk" "2 l")]
       <= List.length entries
    /\ forall e,
         In e [of_item (Item "Egg" "6"); of_item (Item "milk" "2 l")] ->
         exists s name,
           In s entries
           /\ subscript s "name" = Ok name
           /\ subscript e "name" = Ok name.
Proof.
  apply (proj1 (remove_only_shrinks lower no_answer not_shown store_answers)
           (request_for "remove_inventory"
              [of_item (Item "rice" "all");
               JDict [("name", JStr "flour"); ("amount", JInt 2)]])
           pantry_user).
  vm_compute. reflexivity.
Defined.

Lemma refused_removals_change_nothing_witness :
  t_written
    (remove_branch lower no_answer not_shown store_answers
       (request_for "remove_inventory"
          (map of_item
             [Item "rice" "5 kg"; Item "milk" "200 g"; Item "eggs" "2"]))
       (document (JStr "USER_1")
          (JList (map of_item [Item "Rice" "2 kg"; Item "milk" "1 l"])) []))
  = Some (map of_item [Item "Rice" "2 kg"; Item "milk" "1 l"]).
Proof.
  apply (refused_removals_change_nothing lower no_answer not_shown
           store_answers).
  - intros ? ?. reflexivity.
  - repeat constructor; cbn; intuition discriminate.
  - vm_compute. reflexivity.
Defined.

End BranchTheorems.

Module Examples.
Import PyStr PyFloat PyExc Units Inventory Spec Notions.

Example add_half_a_kilo :
  update_inventory lower [Item "tomato" "2 kg"] [Item "tomato" "500g"]
  = {| response :=
         Msg.update_header ++ Msg.items_heading
           ++ Msg.bullet ++ "tomato (2.5 kg) [+0.5 kg]" ++ nl
           ++ Msg.total_in_inventory ++ "1";
       written := Some [Item "tomato" "2.5 kg"];
       reports := [Report "tomato" (Some "2.5 kg") (Some "0.5 kg") None] |}.
Proof. vm_compute. reflexivity. Qed.

Example unknown_unit_blocks_the_batch :
  written (update_inventory lower [] [Item "rice" "1 kg"; Item "milk" "1 ltr"])
  = None
  /\ map r_error
       (reports (update_inventory lower []
                   [Item "rice" "1 kg"; Item "milk" "1 ltr"]))
     = [None; Some "Did you mean: l?"].
Proof. split; vm_compute; reflexivity. Qed.

Example remove_exact_stock :
  written (remove_inventory lower [Item "egg" "3 pieces"] [Item "Egg" "3"] false)
  = Some [].
Proof. vm_compute. reflexivity. Qed.

Example remove_more_than_stock :
  remove_inventory lower [Item "egg" "3 pieces"] [Item "egg" "5"] false
  = {| response :=
         Msg.remove_header ++ Msg.removed_items_heading
           ++ Msg.bullet ++ "egg - Requested amount exceeds available amount"
           ++ nl ++ Msg.remaining_items ++ "1";
       written := Some [Item "egg" "3 pieces"];
       reports := [Report "egg" (Some "3 pieces") None
                     (Some "Requested amount exceeds available amount")] |}.
Proof. vm_compute. reflexivity. Qed.

Example format_rounds_to_two_places :
  map (fun v => _format_unit v "kg") [2.5%float; 2500%float; 0.125%float]
  = ["2.5 kg"; "2500 kg"; "0.12 kg"].
Proof. vm_compute. reflexivity. Qed.

End Examples.
